(** * Segment classifier of the Magnetica backend API

    A shallow embedding of [EnterpriseInformationLayerService] (the
    classifier of the enterprise server) and the properties of its
    classification engine.

    JavaScript numbers are IEEE 754 binary64 values: they are modelled by
    Rocq's primitive [float], whose operations are the same binary64
    operations (round to nearest, ties to even).  A signals object is a
    finite map from property names to JavaScript values; object literals
    whose property order is observed ([Object.entries]) are association
    lists in declaration order. *)

From Stdlib Require Import Floats ZArith Lia.
From stdpp Require Import gmap strings list.

Set Warnings "-inexact-float".

(** ** JavaScript values and completions *)

Module JS.

(** The values a signals object can hold.  [VObj] stands for any object or
    array (their [typeof] is "object" and they are truthy). *)
Inductive value : Type :=
| VUndefined
| VNull
| VBool (b : bool)
| VNum (x : float)
| VStr (s : string)
| VObj.

(** How the evaluation of a piece of code ends: normally with a value, by a
    thrown [Error] carrying a message, or [Stuck] where the code would
    coerce a string or an object to a number, which is not modelled. *)
Inductive completion (A : Type) : Type :=
| Normal (a : A)
| Throw (message : string)
| Stuck.
Arguments Normal {A} a.
Arguments Throw {A} message.
Arguments Stuck {A}.

Definition typeof (v : value) : string :=
  match v with
  | VUndefined => "undefined"
  | VNull => "object"
  | VBool _ => "boolean"
  | VNum _ => "number"
  | VStr _ => "string"
  | VObj => "object"
  end.

(** Truthiness, as tested by [cond ? a : b] and [if (cond)]. *)
Definition ToBoolean (v : value) : bool :=
  match v with
  | VUndefined | VNull => false
  | VBool b => b
  | VNum x => negb (is_zero x || is_nan x)
  | VStr s => negb (String.eqb s "")
  | VObj => true
  end.

(** The numeric coercion applied by [*], [/] and by [>] against a number. *)
Definition ToNumber (v : value) : completion float :=
  match v with
  | VUndefined => Normal nan
  | VNull => Normal 0%float
  | VBool b => Normal (if b then 1%float else 0%float)
  | VNum x => Normal x
  | VStr _ | VObj => Stuck
  end.

Definition isNaN (x : float) : bool := is_nan x.

(** [a >= b] and [a > b] on numbers: false as soon as one side is NaN. *)
Definition ge (a b : float) : bool := (b <=? a)%float.
Definition gt (a b : float) : bool := (b <? a)%float.

(** [Math.min] and [Math.max] of two numbers: NaN if either is NaN, and
    -0 is below +0. *)
Definition Math_min (a b : float) : float :=
  if is_nan a || is_nan b then nan
  else if (a <? b)%float then a
  else if (b <? a)%float then b
  else if get_sign a then a else b.

Definition Math_max (a b : float) : float :=
  if is_nan a || is_nan b then nan
  else if (a <? b)%float then b
  else if (b <? a)%float then a
  else if get_sign a then b else a.

(** [o[k]] on an object literal, by own property; a missing property reads
    as [undefined] ([None]). *)
Fixpoint prop {A : Type} (o : list (string * A)) (k : string) : option A :=
  match o with
  | [] => None
  | (k', a) :: o' => if String.eqb k' k then Some a else prop o' k
  end.

(** The names an object literal inherits from [Object.prototype].  Under
    one of them, unless the literal has the property itself, [o[k]] is not
    [undefined] but an inherited function (the prototype itself under
    [__proto__]): a truthy object without properties of the program's, and
    NaN when read as a number. *)
Definition inheritedNames : list string :=
  [ "constructor"; "__proto__"; "hasOwnProperty"; "isPrototypeOf";
    "propertyIsEnumerable"; "toLocaleString"; "toString"; "valueOf";
    "__defineGetter__"; "__defineSetter__"; "__lookupGetter__";
    "__lookupSetter__" ]%string.

Definition inherited (k : string) : bool := existsb (String.eqb k) inheritedNames.

End JS.
Import JS.

(** A signals object, and the read [signals[k]]. *)
Abbreviation Signals := (gmap string value).

Definition get (signals : Signals) (k : string) : value :=
  default VUndefined (signals !! k).

(** ** The world outside the classifier: the clock and the console *)

Inductive Level : Type := INFO | ERROR | WARN.

(** A field of the data object handed to the logger. *)
Inductive LogDatum : Type :=
| LText (s : string)
| LCount (n : nat)
| LFixed (digits : nat) (x : float)   (* x.toFixed(digits) *)
| LMillis (x : float).                (* `${x.toFixed(2)}ms` *)

Record LogEntry : Type := {
  level : Level;
  message : string;
  data : list (string * LogDatum)
}.

(** [perf n] is what the [n]-th call of [performance.now()] returns. *)
Record World : Type := {
  perf : nat -> float;
  calls : nat;
  console : list LogEntry
}.

(** Computations of the service: they read the clock, write to the console
    and end in a completion. *)
Definition M (A : Type) : Type := World -> completion A * World.

Definition ret {A : Type} (a : A) : M A := fun w => (Normal a, w).

Definition throw {A : Type} (msg : string) : M A := fun w => (Throw msg, w).

Definition lift {A : Type} (c : completion A) : M A := fun w => (c, w).

Definition bind {A B : Type} (m : M A) (f : A -> M B) : M B :=
  fun w =>
    match m w with
    | (Normal a, w') => f a w'
    | (Throw e, w') => (Throw e, w')
    | (Stuck, w') => (Stuck, w')
    end.

(** [try { body } catch (error) { handler error.message }] *)
Definition try_catch {A : Type} (body : M A) (handler : string -> M A) : M A :=
  fun w =>
    match body w with
    | (Throw e, w') => handler e w'
    | r => r
    end.

Notation "x <- m ;; k" := (bind m (fun x => k))
  (at level 100, m at next level, right associativity).
Notation "m ;;; k" := (bind m (fun _ => k))
  (at level 100, right associativity).

Definition performance_now : M float :=
  fun w => (Normal (perf w (calls w)),
            {| perf := perf w; calls := S (calls w); console := console w |}).

Definition log (l : Level) (msg : string) (d : list (string * LogDatum)) : M unit :=
  fun w => (Normal tt,
            {| perf := perf w; calls := calls w;
               console := console w ++ [{| level := l; message := msg; data := d |}] |}).

(** Bind on completions, for the arithmetic that touches no state. *)
Definition cbind {A B : Type} (c : completion A) (f : A -> completion B) : completion B :=
  match c with
  | Normal a => f a
  | Throw e => Throw e
  | Stuck => Stuck
  end.

Notation "x <~ c ;; k" := (cbind c (fun x => k))
  (at level 100, c at next level, right associativity).

(** [for (const x of l) body(x)] *)
Fixpoint for_of {A : Type} (l : list A) (body : A -> completion unit) : completion unit :=
  match l with
  | [] => Normal tt
  | x :: l' => _ <~ body x ;; for_of l' body
  end.

(** A loop over [l] that updates local variables [s]. *)
Fixpoint for_fold {S A : Type} (body : S -> A -> completion S) (l : list A) (s : S)
  : completion S :=
  match l with
  | [] => Normal s
  | x :: l' => s' <~ body s x ;; for_fold body l' s'
  end.

(** ** The static catalog *)

Module Config.

Record Thresholds : Type := {
  engagement : float;
  confidence : float;
  priority : float
}.

Record SegmentDefinition : Type := {
  id : string;
  name : string;
  description : string;
  keySignals : list string;
  thresholds : Thresholds
}.

Record ContentAngle : Type := {
  angle_id : string;
  angle_name : string;
  focus : string
}.

(** The [characteristics] of a segment, the business rules and the
    metadata are descriptive text that no computation reads; they are left
    out. *)
Record MOHDConfig : Type := {
  customerSegments : list (string * SegmentDefinition);
  contentAngles : list (string * ContentAngle)
}.

End Config.

Definition loadMOHDConfiguration : Config.MOHDConfig :=
  {| Config.customerSegments :=
       [ ("italian_heritage_advocate",
          {| Config.id := "italian_heritage_advocate";
             Config.name := "Italian Heritage Advocate";
             Config.description :=
               "Customers passionate about Italian design legacy and craftsmanship stories";
             Config.keySignals :=
               ["designer_story_engagement"; "craftsmanship_focus"; "heritage_content_time"];
             Config.thresholds :=
               {| Config.engagement := 0.7; Config.confidence := 0.75; Config.priority := 0.8 |} |});
         ("luxury_project_planner",
          {| Config.id := "luxury_project_planner";
             Config.name := "Luxury Project Planner";
             Config.description := "High-value customers planning complete interior projects";
             Config.keySignals :=
               ["multi_room_navigation"; "project_interest"; "budget_premium_indicators"];
             Config.thresholds :=
               {| Config.engagement := 0.8; Config.confidence := 0.85; Config.priority := 0.9 |} |});
         ("international_minimalist",
          {| Config.id := "international_minimalist";
             Config.name := "International Minimalist";
             Config.description :=
               "Global customers seeking clean, contemporary Italian design integration";
             Config.keySignals :=
               ["clean_aesthetic_preference"; "integration_focus"; "contemporary_browsing"];
             Config.thresholds :=
               {| Config.engagement := 0.6; Config.confidence := 0.7; Config.priority := 0.65 |} |});
         ("hospitality_professional",
          {| Config.id := "hospitality_professional";
             Config.name := "Hospitality Professional";
             Config.description := "Commercial buyers for hospitality and business environments";
             Config.keySignals :=
               ["commercial_scale_indicators"; "durability_specs"; "technical_focus"];
             Config.thresholds :=
               {| Config.engagement := 0.75; Config.confidence := 0.8; Config.priority := 0.85 |} |}) ];
     Config.contentAngles :=
       [ ("italian_heritage",
          {| Config.angle_id := "italian_heritage";
             Config.angle_name := "Italian Heritage & Legacy";
             Config.focus := "Designer storytelling and craftsmanship tradition" |});
         ("artisanal_excellence",
          {| Config.angle_id := "artisanal_excellence";
             Config.angle_name := "Artisanal Excellence & Quality";
             Config.focus := "Technical superiority and manufacturing excellence" |});
         ("project_completion",
          {| Config.angle_id := "project_completion";
             Config.angle_name := "Complete Project Solutions";
             Config.focus := "Comprehensive interior design scenarios and coordination" |});
         ("contemporary_integration",
          {| Config.angle_id := "contemporary_integration";
             Config.angle_name := "Contemporary Integration & Harmony";
             Config.focus := "Modern living integration and aesthetic harmony" |}) ] |}.

(** ** The service *)

Record Service : Type := {
  mohdConfig : Config.MOHDConfig;
  isInitialized : bool
}.

(** [new EnterpriseInformationLayerService()], without the start-up log line. *)
Definition informationService : Service :=
  {| mohdConfig := loadMOHDConfiguration; isInitialized := true |}.

Record Classification : Type := {
  primary_segment : string;
  confidence_score : float;
  segment_probabilities : list (string * float);
  classification_factors : list string;
  recommended_content_angle : string;
  consultation_readiness_score : float
}.

Definition requiredSignals : list string :=
  [ "designer_story_engagement"; "craftsmanship_content_focus"; "heritage_content_time";
    "multi_room_navigation"; "complete_project_interest"; "budget_premium_indicators";
    "clean_aesthetic_preference"; "integration_content_focus"; "contemporary_browsing_pattern";
    "commercial_scale_indicators"; "durability_specs_interest"; "technical_documentation_focus";
    "session_duration"; "page_depth"; "product_interaction_quality"; "return_visitor_pattern" ].

(** [signals[signal] === undefined || signals[signal] === null] *)
Definition isMissing (signals : Signals) (signal : string) : bool :=
  match get signals signal with
  | VUndefined | VNull => true
  | _ => false
  end.

Definition isFlag (signal : string) : bool :=
  String.eqb signal "multi_room_navigation" || String.eqb signal "return_visitor_pattern".

(** The global [isNaN(value)]. *)
Definition isNaN_value (v : value) : completion bool :=
  x <~ ToNumber v ;; Normal (isNaN x).

(** The body of the type-checking loop, for one signal. *)
Definition checkSignal (signals : Signals) (signal : string) : completion unit :=
  let value := get signals signal in
  if isFlag signal then
    if negb (String.eqb (typeof value) "boolean") && negb (String.eqb (typeof value) "number")
    then Throw ("Signal '" +:+ signal +:+ "' must be a boolean or number, got " +:+ typeof value)
    else Normal tt
  else
    bad <~ (if negb (String.eqb (typeof value) "number") then Normal true
            else isNaN_value value) ;;
    if bad
    then Throw ("Signal '" +:+ signal +:+ "' must be a number, got " +:+ typeof value)
    else Normal tt.

(** The two validation steps that open the [try] block: the missing-signal
    check, then the type check of every required signal. *)
Definition validate (signals : Signals) : completion unit :=
  let missingSignals := List.filter (isMissing signals) requiredSignals in
  _ <~ (if (0 <? length missingSignals)%nat
        then Throw ("Missing required signals: " +:+ String.concat ", " missingSignals)
        else Normal tt) ;;
  for_of requiredSignals (checkSignal signals).

(** [signals.k] read as a number by an arithmetic operator. *)
Definition num (signals : Signals) (k : string) : completion float :=
  ToNumber (get signals k).

(** [signals.k ? 1 : 0] and [if (signals.k)] *)
Definition flag (signals : Signals) (k : string) : bool :=
  ToBoolean (get signals k).

Section Scores.
Local Open Scope float_scope.

Definition calculateSegmentProbabilities (signals : Signals)
  : completion (list (string * float)) :=
  let body :=
       designer_story_engagement <~ num signals "designer_story_engagement" ;;
       craftsmanship_content_focus <~ num signals "craftsmanship_content_focus" ;;
       heritage_content_time <~ num signals "heritage_content_time" ;;
       let heritageScore :=
         designer_story_engagement * 0.4 +
         craftsmanship_content_focus * 0.3 +
         Math_min (heritage_content_time / 120) 1 * 0.3 in
       complete_project_interest <~ num signals "complete_project_interest" ;;
       budget_premium_indicators <~ num signals "budget_premium_indicators" ;;
       let plannerScore :=
         (if flag signals "multi_room_navigation" then 1 else 0) * 0.35 +
         complete_project_interest * 0.35 +
         budget_premium_indicators * 0.3 in
       clean_aesthetic_preference <~ num signals "clean_aesthetic_preference" ;;
       integration_content_focus <~ num signals "integration_content_focus" ;;
       contemporary_browsing_pattern <~ num signals "contemporary_browsing_pattern" ;;
       let minimalistScore :=
         clean_aesthetic_preference * 0.4 +
         integration_content_focus * 0.35 +
         contemporary_browsing_pattern * 0.25 in
       commercial_scale_indicators <~ num signals "commercial_scale_indicators" ;;
       durability_specs_interest <~ num signals "durability_specs_interest" ;;
       technical_documentation_focus <~ num signals "technical_documentation_focus" ;;
       let hospitalityScore :=
         commercial_scale_indicators * 0.4 +
         durability_specs_interest * 0.3 +
         technical_documentation_focus * 0.3 in
       Normal
         [ ("italian_heritage_advocate", Math_min (Math_max heritageScore 0) 1);
           ("luxury_project_planner", Math_min (Math_max plannerScore 0) 1);
           ("international_minimalist", Math_min (Math_max minimalistScore 0) 1);
           ("hospitality_professional", Math_min (Math_max hospitalityScore 0) 1) ] in
  match body with
  | Throw error => Throw ("Probability calculation failed: " +:+ error)
  | r => r
  end.

(** The body of the selection loop: the locals are [(maxScore,
    primarySegment)]; reading [thresholds] of a segment the catalog does
    not have is a TypeError.  Under an inherited name [segments[segmentId]]
    is an object without [thresholds], and the TypeError comes one step
    later, reading [confidence]. *)
Definition selectStep (segments : list (string * Config.SegmentDefinition))
    (locals : float * string) (entry : string * float) : completion (float * string) :=
  let '(maxScore, primarySegment) := locals in
  let '(segmentId, probability) := entry in
  match prop segments segmentId with
  | None =>
      if inherited segmentId
      then Throw "Cannot read properties of undefined (reading 'confidence')"
      else Throw "Cannot read properties of undefined (reading 'thresholds')"
  | Some segmentConfig =>
      if ge probability (Config.confidence (Config.thresholds segmentConfig))
         && gt probability maxScore
      then Normal (probability, segmentId)
      else Normal (maxScore, primarySegment)
  end.

Definition selectPrimarySegment (this : Service) (probabilities : list (string * float))
  : completion string :=
  let segments := Config.customerSegments (mohdConfig this) in
  locals <~ for_fold (selectStep segments) probabilities
              (0, "international_minimalist"%string) ;;
  Normal (snd locals).

(** [if (cond) factors.push(s)], on the array [factors] built so far: the
    array keeps what was pushed before a failing condition. *)
Definition pushIf (cond : completion bool) (s : string)
    (factors : list string) : list string * completion unit :=
  match cond with
  | Normal true => (factors ++ [s], Normal tt)
  | Normal false => (factors, Normal tt)
  | Throw e => (factors, Throw e)
  | Stuck => (factors, Stuck)
  end.

Definition andThen (s1 s2 : list string -> list string * completion unit)
    (factors : list string) : list string * completion unit :=
  match s1 factors with
  | (factors', Normal _) => s2 factors'
  | r => r
  end.

(** [signals.k > t] *)
Definition above (signals : Signals) (k : string) (t : float) : completion bool :=
  x <~ num signals k ;; Normal (gt x t).

Definition identifyClassificationFactors (signals : Signals) (primarySegment : string)
  : M (list string) :=
  let factors : list string := [] in
  let threshold := 0.6 in
  let body :=
    if String.eqb primarySegment "italian_heritage_advocate" then
      andThen (pushIf (above signals "designer_story_engagement" threshold)
                 "High designer story engagement")
     (andThen (pushIf (above signals "craftsmanship_content_focus" threshold)
                 "Strong craftsmanship interest")
              (pushIf (above signals "heritage_content_time" 90)
                 "Extended heritage content consumption"))
    else if String.eqb primarySegment "luxury_project_planner" then
      andThen (pushIf (Normal (flag signals "multi_room_navigation"))
                 "Multi-room project exploration")
     (andThen (pushIf (above signals "complete_project_interest" threshold)
                 "Complete project interest signals")
              (pushIf (above signals "budget_premium_indicators" threshold)
                 "Premium budget indicators"))
    else if String.eqb primarySegment "international_minimalist" then
      andThen (pushIf (above signals "clean_aesthetic_preference" threshold)
                 "Clean aesthetic preference")
     (andThen (pushIf (above signals "integration_content_focus" threshold)
                 "Integration-focused browsing")
              (pushIf (above signals "contemporary_browsing_pattern" threshold)
                 "Contemporary design pattern"))
    else if String.eqb primarySegment "hospitality_professional" then
      andThen (pushIf (above signals "commercial_scale_indicators" threshold)
                 "Commercial scale indicators")
     (andThen (pushIf (above signals "durability_specs_interest" threshold)
                 "Technical specification focus")
              (pushIf (above signals "technical_documentation_focus" threshold)
                 "Professional documentation interest"))
    else
      fun factors => (factors, Normal tt) in
  match body factors with
  | (factors, Normal _) => ret factors
  | (factors, Throw error) =>
      log WARN "Factor identification partial failure" [("error"%string, LText error)] ;;;
      ret factors
  | (_, Stuck) => lift Stuck
  end.

(** [mapping[primarySegment] || 'contemporary_integration'].  Under an
    inherited name what is returned is the inherited function or object,
    not a string: [Stuck]. *)
Definition selectContentAngle (primarySegment : string) : completion string :=
  let mapping :=
    [ ("italian_heritage_advocate", "italian_heritage");
      ("luxury_project_planner", "project_completion");
      ("international_minimalist", "contemporary_integration");
      ("hospitality_professional", "artisanal_excellence") ]%string in
  match prop mapping primarySegment with
  | Some angle =>
      Normal (if ToBoolean (VStr angle) then angle else "contemporary_integration"%string)
  | None =>
      if inherited primarySegment then Stuck
      else Normal "contemporary_integration"%string
  end.

(** Under an inherited name [multipliers[primarySegment]] is the inherited
    function or object: it is truthy, so it is the multiplier, and the
    product with it is NaN. *)
Definition calculateConsultationReadiness (signals : Signals) (primarySegment : string)
  : M float :=
  try_catch
    (lift (
       session_duration <~ num signals "session_duration" ;;
       page_depth <~ num signals "page_depth" ;;
       product_interaction_quality <~ num signals "product_interaction_quality" ;;
       let baseScore :=
         Math_min (session_duration / 600) 1 * 0.3 +
         Math_min (page_depth / 10) 1 * 0.2 +
         product_interaction_quality * 0.3 +
         (if flag signals "return_visitor_pattern" then 0.2 else 0) in
       let multipliers :=
         [ ("luxury_project_planner"%string, 1.5);
           ("hospitality_professional"%string, 1.3);
           ("italian_heritage_advocate"%string, 1.1);
           ("international_minimalist"%string, 0.8) ] in
       let segmentMultiplier :=
         match prop multipliers primarySegment with
         | Some m => if ToBoolean (VNum m) then m else 1
         | None => if inherited primarySegment then nan else 1
         end in
       Normal (Math_min (Math_max (baseScore * segmentMultiplier) 0) 1)))
    (fun error =>
       log WARN "Consultation readiness calculation failed" [("error"%string, LText error)] ;;;
       ret 0.5).

End Scores.

(** The classification proper: the [try] block up to the construction of the
    result. *)
Definition classify (this : Service) (signals : Signals) : M Classification :=
  lift (validate signals) ;;;
  probabilities <- lift (calculateSegmentProbabilities signals) ;;
  primarySegment <- lift (selectPrimarySegment this probabilities) ;;
  match prop probabilities primarySegment with
  | None => throw "Classification confidence calculation failed"
  | Some confidence =>
      if isNaN confidence
      then throw "Classification confidence calculation failed"
      else
        factors <- identifyClassificationFactors signals primarySegment ;;
        angle <- lift (selectContentAngle primarySegment) ;;
        readiness <- calculateConsultationReadiness signals primarySegment ;;
        ret {| primary_segment := primarySegment;
               confidence_score := confidence;
               segment_probabilities := probabilities;
               classification_factors := factors;
               recommended_content_angle := angle;
               consultation_readiness_score := readiness |}
  end.

Definition validateSegmentClassification (this : Service) (signals : Signals)
  : M Classification :=
  startTime <- performance_now ;;
  try_catch
    (classification <- classify this signals ;;
     now <- performance_now ;;
     let processingTime := (now - startTime)%float in
     (* the message texts open with an emoji, left out here *)
     log INFO "Enterprise segment classification completed"
       [ ("primarySegment", LText (primary_segment classification));
         ("confidence", LFixed 4 (confidence_score classification));
         ("processingTime", LMillis processingTime);
         ("sessionSignals", LCount (size signals));
         ("security", LText "VALIDATED") ] ;;;
     ret classification)
    (fun error =>
       log ERROR "Enterprise segment classification failed"
         [ ("error", LText error);
           ("signals", LCount (size signals)) ] ;;;
       throw error).

(** ** The order of binary64 numbers *)

Module FloatOrder.

(** A number that is not NaN has a rank in the lexicographic order of
    [Z * Z * Z]: its class (negative infinity, negative, zero, positive,
    positive infinity), then its exponent, then its mantissa.  The two
    zeros share a rank, and NaN has none. *)
Definition rank (x : spec_float) : option (Z * Z * Z) :=
  match x with
  | S754_nan => None
  | S754_infinity true => Some (-2, 0, 0)%Z
  | S754_finite true m e => Some (-1, - e, - Zpos m)%Z
  | S754_zero _ => Some (0, 0, 0)%Z
  | S754_finite false m e => Some (1, e, Zpos m)%Z
  | S754_infinity false => Some (2, 0, 0)%Z
  end.

Definition lex_lt (a b : Z * Z * Z) : Prop :=
  let '(a1, a2, a3) := a in
  let '(b1, b2, b3) := b in
  (a1 < b1 \/ (a1 = b1 /\ (a2 < b2 \/ (a2 = b2 /\ a3 < b3))))%Z.

Definition lex_le (a b : Z * Z * Z) : Prop := lex_lt a b \/ a = b.

Definition rk (x : float) : option (Z * Z * Z) := rank (Prim2SF x).

(** [x < y] and [x <= y] as propositions. *)
Definition flt (x y : float) : Prop :=
  exists a b, rk x = Some a /\ rk y = Some b /\ lex_lt a b.

Definition fle (x y : float) : Prop :=
  exists a b, rk x = Some a /\ rk y = Some b /\ lex_le a b.

End FloatOrder.

(** ** The specification's formulas, in its own words *)

Module Spec.
Local Open Scope float_scope.

(** The number stored under [k] in a validated signal vector. *)
Definition numberAt (signals : Signals) (k : string) : float :=
  match get signals k with
  | VNum x => x
  | _ => nan
  end.

Definition clamp (x : float) : float := Math_min (Math_max x 0) 1.

(** [x] lies in the interval [0,1]. *)
Definition in_unit_interval (x : float) : Prop :=
  (0 <=? x) = true /\ (x <=? 1) = true.

Definition truthy01 (signals : Signals) (k : string) : float :=
  if flag signals k then 1 else 0.

Definition italian_heritage_advocate (signals : Signals) : float :=
  clamp (0.4 * numberAt signals "designer_story_engagement" +
         0.3 * numberAt signals "craftsmanship_content_focus" +
         0.3 * Math_min (numberAt signals "heritage_content_time" / 120) 1).

Definition luxury_project_planner (signals : Signals) : float :=
  clamp (0.35 * truthy01 signals "multi_room_navigation" +
         0.35 * numberAt signals "complete_project_interest" +
         0.3 * numberAt signals "budget_premium_indicators").

Definition international_minimalist (signals : Signals) : float :=
  clamp (0.4 * numberAt signals "clean_aesthetic_preference" +
         0.35 * numberAt signals "integration_content_focus" +
         0.25 * numberAt signals "contemporary_browsing_pattern").

Definition hospitality_professional (signals : Signals) : float :=
  clamp (0.4 * numberAt signals "commercial_scale_indicators" +
         0.3 * numberAt signals "durability_specs_interest" +
         0.3 * numberAt signals "technical_documentation_focus").

Definition probabilities (signals : Signals) : list (string * float) :=
  [ ("italian_heritage_advocate"%string, italian_heritage_advocate signals);
    ("luxury_project_planner"%string, luxury_project_planner signals);
    ("international_minimalist"%string, international_minimalist signals);
    ("hospitality_professional"%string, hospitality_professional signals) ].

(** The segments in catalog-declared order, each with its confidence
    threshold. *)
Definition thresholds : list (string * float) :=
  [ ("italian_heritage_advocate"%string, 0.75);
    ("luxury_project_planner"%string, 0.85);
    ("international_minimalist"%string, 0.7);
    ("hospitality_professional"%string, 0.8) ].

(** A candidate is a segment with its probability and its threshold. *)
Definition candidates (probs : list (string * float)) : list (string * float * float) :=
  zip_with (fun sp st => (fst sp, snd sp, snd st)) probs thresholds.

Definition eligible (c : string * float * float) : Prop :=
  ge (snd (fst c)) (snd c) = true.

(** The tie-break rule on the candidates [cs], in declaration order: with no
    eligible candidate the primary segment [r] is the fixed fallback;
    otherwise it is an eligible candidate, of probability [conf], strictly
    above every eligible candidate declared before it and at least every
    eligible candidate declared after it. *)
Definition selection (cs : list (string * float * float)) (r : string) (conf : float)
  : Prop :=
  ((forall c, In c cs -> ~ eligible c) -> r = "international_minimalist"%string) /\
  ((exists c, In c cs /\ eligible c) ->
   exists i t, cs !! i = Some (r, conf, t) /\ eligible (r, conf, t) /\
     forall j c, cs !! j = Some c -> eligible c ->
       ((j < i)%nat -> gt conf (snd (fst c)) = true) /\
       ((i < j)%nat -> ge conf (snd (fst c)) = true)).

Definition multiplier (segment : string) : float :=
  if String.eqb segment "luxury_project_planner" then 1.5
  else if String.eqb segment "hospitality_professional" then 1.3
  else if String.eqb segment "italian_heritage_advocate" then 1.1
  else if String.eqb segment "international_minimalist" then 0.8
  else 1.

(** The content angle of a segment: a fixed lookup, with a fallback for
    an unknown id. *)
Definition content_angle (segment : string) : string :=
  if String.eqb segment "italian_heritage_advocate" then "italian_heritage"%string
  else if String.eqb segment "luxury_project_planner" then "project_completion"%string
  else if String.eqb segment "international_minimalist"
  then "contemporary_integration"%string
  else if String.eqb segment "hospitality_professional" then "artisanal_excellence"%string
  else "contemporary_integration"%string.

Definition consultation_readiness (signals : Signals) (segment : string) : float :=
  clamp ((0.3 * Math_min (numberAt signals "session_duration" / 600) 1 +
          0.2 * Math_min (numberAt signals "page_depth" / 10) 1 +
          0.3 * numberAt signals "product_interaction_quality" +
          0.2 * truthy01 signals "return_visitor_pattern") * multiplier segment).

(** A factor check: a signal strictly above a threshold, or a truthy flag. *)
Inductive check : Type :=
| Above (signal : string) (t : float)
| Truthy (signal : string).

Definition holds (signals : Signals) (c : check) : bool :=
  match c with
  | Above k t => gt (numberAt signals k) t
  | Truthy k => flag signals k
  end.

(** The fixed per-segment list of checks, each with its factor string. *)
Definition checks (segment : string) : list (check * string) :=
  if String.eqb segment "italian_heritage_advocate" then
    [ (Above "designer_story_engagement" 0.6, "High designer story engagement"%string);
      (Above "craftsmanship_content_focus" 0.6, "Strong craftsmanship interest"%string);
      (Above "heritage_content_time" 90, "Extended heritage content consumption"%string) ]
  else if String.eqb segment "luxury_project_planner" then
    [ (Truthy "multi_room_navigation", "Multi-room project exploration"%string);
      (Above "complete_project_interest" 0.6, "Complete project interest signals"%string);
      (Above "budget_premium_indicators" 0.6, "Premium budget indicators"%string) ]
  else if String.eqb segment "international_minimalist" then
    [ (Above "clean_aesthetic_preference" 0.6, "Clean aesthetic preference"%string);
      (Above "integration_content_focus" 0.6, "Integration-focused browsing"%string);
      (Above "contemporary_browsing_pattern" 0.6, "Contemporary design pattern"%string) ]
  else if String.eqb segment "hospitality_professional" then
    [ (Above "commercial_scale_indicators" 0.6, "Commercial scale indicators"%string);
      (Above "durability_specs_interest" 0.6, "Technical specification focus"%string);
      (Above "technical_documentation_focus" 0.6,
         "Professional documentation interest"%string) ]
  else [].

Definition factors (signals : Signals) (segment : string) : list string :=
  map snd (List.filter (fun c => holds signals (fst c)) (checks segment)).

End Spec.

(** ** Predicates on inputs and outcomes *)

(** A signal vector passes input validation when the two validation steps
    of the classifier end normally. *)
Definition valid (signals : Signals) : Prop := validate signals = Normal tt.

(** The non-flag signals are finite numbers. *)
Definition finite_signals (signals : Signals) : Prop :=
  forall k x, In k requiredSignals -> isFlag k = false ->
    get signals k = VNum x -> is_finite x = true.

(** What the type check accepts: a number that is not NaN for a numeric
    signal, a boolean or any number for a flag. *)
Definition isNumber (v : value) : bool :=
  match v with
  | VNum x => negb (is_nan x)
  | _ => false
  end.

Definition isBooleanOrNumber (v : value) : bool :=
  match v with
  | VBool _ | VNum _ => true
  | _ => false
  end.

Definition wellTyped (signals : Signals) (k : string) : bool :=
  if isFlag k then isBooleanOrNumber (get signals k) else isNumber (get signals k).

(** The outcome of a call, whatever it did to the console. *)
Definition outcome {A : Type} (m : M A) (w : World) : completion A := fst (m w).

(** The selection loop as a left fold over candidates: the locals are
    [(maxScore, primarySegment)]. *)
Definition pickStep (locals : float * string) (c : string * float * float) : float * string :=
  let '(k, p, t) := c in
  if ge p t && gt p (fst locals) then (p, k) else locals.

Definition pick (cs : list (string * float * float)) (locals : float * string)
  : float * string :=
  fold_left pickStep cs locals.

(** [chosen cs i k p]: candidate [i] of [cs] is segment [k] with probability
    [p]; it is eligible, strictly above every eligible candidate before it
    and at least every eligible candidate after it. *)
Definition chosen (cs : list (string * float * float)) (i : nat) (k : string) (p : float)
  : Prop :=
  exists t, cs !! i = Some (k, p, t) /\ Spec.eligible (k, p, t) /\
    forall j c, cs !! j = Some c -> Spec.eligible c ->
      ((j < i)%nat -> FloatOrder.flt (snd (fst c)) p) /\
      ((i < j)%nat -> FloatOrder.fle (snd (fst c)) p).

(** The segment the selection loop ends with on the specified probabilities. *)
Definition selected (signals : Signals) : string :=
  snd (pick (Spec.candidates (Spec.probabilities signals))
         (0%float, "international_minimalist")).

(** The result object, assembled from the specification's formulas. *)
Definition assembled (signals : Signals) (segment : string) (confidence : float)
  : Classification :=
  {| primary_segment := segment;
     confidence_score := confidence;
     segment_probabilities := Spec.probabilities signals;
     classification_factors := Spec.factors signals segment;
     recommended_content_angle := Spec.content_angle segment;
     consultation_readiness_score := Spec.consultation_readiness signals segment |}.

(** A value that is a finite number. *)
Definition finiteNumber (v : value) : bool :=
  match v with
  | VNum x => is_finite x
  | _ => false
  end.

(** A computation whose outcome is the same in every world. *)
Definition stable {A : Type} (m : M A) : Prop :=
  exists r, forall w, outcome m w = r.

(** ** Finite numbers *)

(** A spec float that is finite, and one that is a number (not NaN). *)
Definition sf_finite (x : spec_float) : bool :=
  match x with S754_zero _ | S754_finite _ _ _ => true | _ => false end.
Definition sf_number (x : spec_float) : bool :=
  match x with S754_nan => false | _ => true end.

(** A constant below 1/2 in magnitude, and a constant of magnitude 4 or more. *)
Definition small (c : float) : bool :=
  match Prim2SF c with
  | S754_zero _ => true
  | S754_finite _ m e => ((Zpos (digits2_pos m) + e <=? -1) && (e <=? -1))%Z
  | _ => false
  end.

Definition big (c : float) : bool :=
  match Prim2SF c with
  | S754_finite _ m e => (3 <=? Zpos (digits2_pos m) + e)%Z
  | _ => false
  end.

Definition nonzero_finite (c : float) : bool :=
  match Prim2SF c with
  | S754_finite _ _ _ => true
  | _ => false
  end.

(** A shift record whose mantissa is that of a [d]-digit number shifted
    right [k] times. *)
Definition shifted (d k : Z) (mrs : shr_record) : Prop :=
  (0 <= shr_m mrs /\ Zdigits2 (shr_m mrs) <= Z.max 0 (d - k))%Z.

(** ** Sample inputs *)

Module Samples.

Definition world : World :=
  {| perf := fun n => match n with O => 100.25%float | S _ => 101.5%float end;
     calls := 0; console := [] |}.

(** All numeric signals 0 and both flags false. *)
Definition allZero : Signals :=
  list_to_map (map (fun k => (k, if isFlag k then VBool false else VNum 0%float))
                 requiredSignals).

(** The heritage scenario of the specification. *)
Definition heritage : Signals :=
  <["designer_story_engagement" := VNum 1%float]>
    (<["craftsmanship_content_focus" := VNum 1%float]>
       (<["heritage_content_time" := VNum 240%float]> allZero)).

(** The planner scenario of the specification. *)
Definition planner : Signals :=
  <["multi_room_navigation" := VBool true]>
    (<["complete_project_interest" := VNum 1%float]>
       (<["budget_premium_indicators" := VNum 1%float]> allZero)).

(** Heritage and hospitality both score exactly 1. *)
Definition tie : Signals :=
  <["commercial_scale_indicators" := VNum 1%float]>
    (<["durability_specs_interest" := VNum 1%float]>
       (<["technical_documentation_focus" := VNum 1%float]> heritage)).

(** A heritage visitor whose story engagement sits exactly on the factor
    threshold. *)
Definition onThreshold : Signals :=
  <["designer_story_engagement" := VNum 0.6%float]> heritage.

(** Two signals are missing: one is [null], one is absent. *)
Definition twoMissing : Signals :=
  delete "page_depth" (<["designer_story_engagement" := VNull]> allZero).

(** Infinite signals, which the type check lets through. *)
Definition infiniteTime : Signals :=
  <["heritage_content_time" := VNum infinity]> allZero.

Definition infiniteHeritage : Signals :=
  <["designer_story_engagement" := VNum infinity]>
    (<["craftsmanship_content_focus" := VNum neg_infinity]> allZero).

Definition infiniteSession : Signals :=
  <["session_duration" := VNum neg_infinity]>
    (<["product_interaction_quality" := VNum infinity]> allZero).

(** A returning planner visitor, half way through a long session. *)
Definition returning : Signals :=
  <["session_duration" := VNum 300%float]>
    (<["page_depth" := VNum 5%float]>
       (<["product_interaction_quality" := VNum 0.5%float]>
          (<["return_visitor_pattern" := VBool true]> planner))).

(** A signal of the wrong type. *)
Definition textSignal : Signals :=
  <["designer_story_engagement" := VStr "high"]> allZero.

End Samples.

(** * The HTTP boundary of the enterprise server *)

Module Http.

(** A property of a request body: a primitive value, or an object (an
    array counts) given by what [Object.entries] yields for it, in order. *)
Inductive field : Type :=
| Prim (v : value)
| Object (entries : list (string * value)).

Definition typeofField (f : field) : string :=
  match f with
  | Prim v => typeof v
  | Object _ => "object"
  end.

Definition truthy (f : field) : bool :=
  match f with
  | Prim v => ToBoolean v
  | Object _ => true
  end.

(** [req.body]: what is not an object (nothing parsed, a primitive), or an
    object with its [signals] and [demo_mode] properties. *)
Inductive body : Type :=
| NotParsed (v : value)
| Parsed (signals : field) (demo_mode : value).

Record Request : Type := {
  req_path : string;
  req_body : body
}.

(** The [error] text of an error envelope.  The range error interpolates
    the number itself, whose decimal rendering is not modelled: it is kept
    as data. *)
Inductive ErrorText : Type :=
| Message (s : string)
| OutOfRange (key : string) (x : float).
  (* `Signal '${key}' must be between 0 and 1, got ${x}` *)

Inductive Payload : Type :=
| Failure (error : ErrorText) (path : string) (security : option string)
| Success (classification : Classification) (signals_used : Signals) (demo_mode : value).

(** A response: the status and the JSON payload, without its timestamps. *)
Record Response : Type := {
  status : nat;
  payload : Payload
}.

Definition badRequest (error : ErrorText) (path : string) : Response :=
  {| status := 400; payload := Failure error path None |}.

(** What a middleware does: answer, or pass on with [next()]. *)
Inductive Handled : Type :=
| Responded (r : Response)
| Next.

Record Schema : Type := {
  required : list string;
  optional : list string;
  signalsRequired : list string
}.

Definition segmentClassifySchema : Schema :=
  {| required := ["signals"; "demo_mode"];
     optional := ["signals"; "demo_mode"];
     signalsRequired :=
       [ "designer_story_engagement"; "craftsmanship_content_focus";
         "heritage_content_time"; "multi_room_navigation"; "complete_project_interest";
         "budget_premium_indicators"; "clean_aesthetic_preference";
         "integration_content_focus"; "contemporary_browsing_pattern";
         "commercial_scale_indicators"; "durability_specs_interest";
         "technical_documentation_focus"; "session_duration"; "page_depth";
         "product_interaction_quality"; "return_visitor_pattern" ] |}.

Definition includes (l : list string) (k : string) : bool :=
  existsb (String.eqb k) l.

Definition allowedLargeValues : list string :=
  ["session_duration"; "page_depth"; "heritage_content_time"].

(** The check of one entry of [body.signals]: [Some] response if it is
    refused. *)
Definition checkEntry (path : string) (entry : string * value) : option Response :=
  let '(key, value) := entry in
  if String.eqb (typeof value) "string"
     || match value with VNull | VUndefined => true | _ => false end
  then Some (badRequest
               (Message ("Signal '" +:+ key +:+ "' must be a numeric value, got "
                         +:+ typeof value)) path)
  else
    match value with
    | VNum x =>
        if isNaN x || gt 0 x || gt x 1 then
          if negb (includes allowedLargeValues key) && gt x 1
          then Some (badRequest (OutOfRange key x) path)
          else None
        else None
    | _ => None
    end.

(** The loop over [Object.entries(body.signals)], left at the first refusal. *)
Fixpoint checkEntries (path : string) (entries : list (string * value)) : option Response :=
  match entries with
  | [] => None
  | entry :: rest =>
      match checkEntry path entry with
      | Some r => Some r
      | None => checkEntries path rest
      end
  end.

Definition demoModes : list string := ["heritage"; "planner"; "random"].

(** [['heritage', 'planner', 'random'].includes(v)] *)
Definition isDemoMode (v : value) : bool :=
  match v with
  | VStr s => includes demoModes s
  | _ => false
  end.

(** The middleware returned by [validateInput(schema)].  Nothing in its
    [try] block throws; an opaque object where entries are read is [Stuck]. *)
Definition validateInput (schema : Schema) (req : Request) : completion Handled :=
  let path := req_path req in
  match req_body req with
  | NotParsed v =>
      if negb (ToBoolean v) || negb (String.eqb (typeof v) "object")
      then Normal (Responded
             (badRequest (Message "Request body is required and must be valid JSON") path))
      else Stuck
  | Parsed signals demo_mode =>
      if truthy signals && negb (String.eqb (typeofField signals) "object")
      then Normal (Responded
             (badRequest (Message "Signals must be an object with numeric values") path))
      else if ToBoolean demo_mode && negb (isDemoMode demo_mode)
      then Normal (Responded
             (badRequest (Message "demo_mode must be one of: heritage, planner, random") path))
      else if truthy signals then
        match signals with
        | Object entries =>
            match checkEntries path entries with
            | Some r => Normal (Responded r)
            | None => Normal Next
            end
        | Prim _ => Stuck
        end
      else Normal Next
  end.

(** [Math.floor]: a finite number with a negative exponent is cut at the
    binary point, downwards; any other number is returned as it is. *)
Definition Math_floor (x : float) : float :=
  match Prim2SF x with
  | S754_finite s m e =>
      if (0 <=? e)%Z then x
      else
        let q := Z.shiftr (Zpos m) (- e) in
        let exact := (Z.shiftl q (- e) =? Zpos m)%Z in
        if s then (- of_uint63 (Uint63.of_Z (if exact then q else (q + 1)%Z)))%float
        else of_uint63 (Uint63.of_Z q)
  | _ => x
  end.

Section Demo.
Local Open Scope float_scope.

(** [Math.random()] is an oracle: [random n] is the [n]-th draw of the call. *)
Variable random : nat -> float.

Definition heritageTemplate : list (string * value) :=
  [ ("designer_story_engagement", VNum (0.8 + random 0 * 0.2));
    ("craftsmanship_content_focus", VNum (0.7 + random 1 * 0.3));
    ("heritage_content_time", VNum (90 + random 2 * 120));
    ("multi_room_navigation", VBool (gt (random 3) 0.7));
    ("complete_project_interest", VNum (0.2 + random 4 * 0.3));
    ("budget_premium_indicators", VNum (0.4 + random 5 * 0.3));
    ("clean_aesthetic_preference", VNum (0.3 + random 6 * 0.3));
    ("integration_content_focus", VNum (0.2 + random 7 * 0.3));
    ("contemporary_browsing_pattern", VNum (0.1 + random 8 * 0.3));
    ("commercial_scale_indicators", VNum (0.1 + random 9 * 0.2));
    ("durability_specs_interest", VNum (0.1 + random 10 * 0.2));
    ("technical_documentation_focus", VNum (0.1 + random 11 * 0.2));
    ("session_duration", VNum (200 + random 12 * 400));
    ("page_depth", VNum (5 + random 13 * 10));
    ("product_interaction_quality", VNum (0.6 + random 14 * 0.4));
    ("return_visitor_pattern", VBool (gt (random 15) 0.5)) ]%string.

Definition plannerTemplate : list (string * value) :=
  [ ("designer_story_engagement", VNum (0.1 + random 16 * 0.3));
    ("craftsmanship_content_focus", VNum (0.2 + random 17 * 0.3));
    ("heritage_content_time", VNum (10 + random 18 * 60));
    ("multi_room_navigation", VBool true);
    ("complete_project_interest", VNum (0.8 + random 19 * 0.2));
    ("budget_premium_indicators", VNum (0.7 + random 20 * 0.3));
    ("clean_aesthetic_preference", VNum (0.4 + random 21 * 0.4));
    ("integration_content_focus", VNum (0.3 + random 22 * 0.4));
    ("contemporary_browsing_pattern", VNum (0.5 + random 23 * 0.3));
    ("commercial_scale_indicators", VNum (0.1 + random 24 * 0.3));
    ("durability_specs_interest", VNum (0.2 + random 25 * 0.3));
    ("technical_documentation_focus", VNum (0.1 + random 26 * 0.3));
    ("session_duration", VNum (400 + random 27 * 400));
    ("page_depth", VNum (8 + random 28 * 12));
    ("product_interaction_quality", VNum (0.8 + random 29 * 0.2));
    ("return_visitor_pattern", VBool (gt (random 30) 0.3)) ]%string.

(** [types[Math.floor(v)]] for the two-element array [types]: the element
    at index 0 or 1, and [undefined] under any other number. *)
Definition pickType (types : list string) (v : float) : option string :=
  let i := Math_floor v in
  if i =? 0 then nth_error types 0
  else if i =? 1 then nth_error types 1
  else None.

(** Both templates are built, drawing 31 numbers, before one is chosen.
    Under an inherited name [signalTemplates[segmentType]] is the inherited
    function or object, which is truthy and is returned in place of a
    template: [Stuck]. *)
Definition generateDemoSignals (segmentType : string) : completion Signals :=
  let signalTemplates :=
    [ ("heritage"%string, heritageTemplate); ("planner"%string, plannerTemplate) ] in
  let segmentType : option string :=
    if String.eqb segmentType "random"
    then pickType (map fst signalTemplates) (random 31 * 2)
    else Some segmentType in
  match segmentType with
  | Some k =>
      if inherited k then Stuck
      else Normal (list_to_map (default heritageTemplate (prop signalTemplates k)))
  | None => Normal (list_to_map heritageTemplate)
  end.

(** The handler's [testSignals]: the posted signals, replaced by generated
    ones when [demo_mode] is set; [None] when falsy. *)
Definition testSignals (signals : field) (demo_mode : value)
  : completion (option Signals) :=
  if ToBoolean demo_mode then
    match demo_mode with
    | VStr mode =>
        match generateDemoSignals mode with
        | Normal demo => Normal (Some demo)
        | Throw msg => Throw msg
        | Stuck => Stuck
        end
    | _ => Stuck
    end
  else
    match signals with
    | Object entries => Normal (Some (list_to_map entries))
    | Prim v => if ToBoolean v then Stuck else Normal None
    end.

Definition ok (result : Classification) (used : Signals) (demo_mode : value) : Response :=
  {| status := 200;
     payload := Success result used
                  (if ToBoolean demo_mode then demo_mode else VBool false) |}.

Definition validationFailed (error : string) (path : string) : Response :=
  {| status := 400;
     payload := Failure (Message error) path (Some "validation_failed"%string) |}.

(** [POST /api/v1/segment/classify]: the middleware, then the handler. *)
Definition segmentClassify (req : Request) : M Response :=
  handled <- lift (validateInput segmentClassifySchema req) ;;
  match handled with
  | Responded r => ret r
  | Next =>
      match req_body req with
      | NotParsed _ => lift Stuck
      | Parsed signals demo_mode =>
          testSignals <- lift (testSignals signals demo_mode) ;;
          match testSignals with
          | None =>
              ret (badRequest
                     (Message "No signals provided and demo_mode not specified")
                     (req_path req))
          | Some testSignals =>
              try_catch
                (result <- validateSegmentClassification informationService testSignals ;;
                 ret (ok result testSignals demo_mode))
                (fun error => ret (validationFailed error (req_path req)))
          end
      end
  end.

End Demo.

(** Draws of [Math.random()]: numbers from 0 up to, not including, 1. *)
Definition unit_draws (random : nat -> float) : Prop :=
  forall n, ge (random n) 0 = true /\ gt 1 (random n) = true.

(** What the entry check lets through: anything but a string, [null] or
    [undefined], and no number above 1 under a key other than the three
    large ones. *)
Definition acceptable (entry : string * value) : Prop :=
  match snd entry with
  | VStr _ | VNull | VUndefined => False
  | VNum x => gt x 1 = true -> includes allowedLargeValues (fst entry) = true
  | _ => True
  end.

(** What the middleware passes on: an object body whose [demo_mode] is
    falsy or one of the three modes, and whose [signals] is falsy or an
    object of acceptable entries. *)
Definition accepted (req : Request) : Prop :=
  exists signals demo_mode,
    req_body req = Parsed signals demo_mode /\
    (ToBoolean demo_mode = false \/ isDemoMode demo_mode = true) /\
    ((exists v, signals = Prim v /\ ToBoolean v = false) \/
     (exists entries, signals = Object entries /\ Forall acceptable entries)).

(** The error text that names a refused entry. *)
Definition refusal (key : string) (v : value) : ErrorText :=
  match v with
  | VNum x => OutOfRange key x
  | _ => Message ("Signal '" +:+ key +:+ "' must be a numeric value, got " +:+ typeof v)
  end.

End Http.

(** * The user-profile route *)

Module Profile.
Local Open Scope float_scope.

(** The euro sign, as its three bytes. *)
Definition euro : string :=
  String (Ascii.ascii_of_nat 226)
    (String (Ascii.ascii_of_nat 130) (String (Ascii.ascii_of_nat 172) "")).

Record EngagementMetrics : Type := {
  total_sessions : float;
  average_session_duration : value;
  content_engagement_score : float;
  consultation_interactions : float
}.

Record BusinessValue : Type := {
  estimated_project_value : string;
  consultation_urgency : string;
  conversion_probability : float
}.

Record UserProfile : Type := {
  session_id : string;
  segment_classification : Classification;
  behavioral_history : list Signals;
  engagement_metrics : EngagementMetrics;
  business_value : BusinessValue
}.

(** The JSON payload, without its timestamps: the profile with the
    confidence of its metadata, or the error envelope. *)
Inductive Answer : Type :=
| Data (userProfile : UserProfile) (confidence : float)
| Failed (error : string) (path : string).

Record ProfileResponse : Type := {
  status : nat;
  answer : Answer
}.

(** [GET /api/v1/user-profile/:sessionId].  [random n] is the [n]-th draw
    of the request: the generator takes the first 32. *)
Definition userProfile (random : nat -> float) (sessionId path : string)
  : M ProfileResponse :=
  try_catch
    (demoSignals <- lift (Http.generateDemoSignals random "random") ;;
     classification <- validateSegmentClassification informationService demoSignals ;;
     let userProfile :=
       {| session_id := sessionId;
          segment_classification := classification;
          behavioral_history := [demoSignals];
          engagement_metrics :=
            {| total_sessions := Http.Math_floor (random 32%nat * 10) + 1;
               average_session_duration := get demoSignals "session_duration";
               content_engagement_score := confidence_score classification;
               consultation_interactions := Http.Math_floor (random 33%nat * 3) |};
          business_value :=
            {| estimated_project_value :=
                 if String.eqb (primary_segment classification) "luxury_project_planner"
                 then (euro +:+ "15,000+")%string else (euro +:+ "3,000+")%string;
               consultation_urgency :=
                 if gt (consultation_readiness_score classification) 0.8
                 then "high"%string else "medium"%string;
               conversion_probability := confidence_score classification |} |} in
     ret {| status := 200;
            answer := Data userProfile (confidence_score classification) |})
    (fun _ =>
       ret {| status := 500; answer := Failed "User profile generation failed" path |}).

End Profile.

(** ** Numbers bounded above *)

(** A spec float that is negative infinity, negative, zero, or positive
    and below [2 ^ k]. *)
Definition sf_below (k : Z) (x : spec_float) : bool :=
  match x with
  | S754_nan => false
  | S754_infinity s => s
  | S754_zero _ => true
  | S754_finite true _ _ => true
  | S754_finite false m e => (Zpos (digits2_pos m) + e <=? k)%Z
  end.

Definition below (k : Z) (x : float) : bool := sf_below k (Prim2SF x).

(** A positive constant below [2 ^ k], with a negative exponent. *)
Definition positive_below (k : Z) (c : float) : bool :=
  match Prim2SF c with
  | S754_finite false m e => ((Zpos (digits2_pos m) + e <=? k) && (e <=? -1))%Z
  | _ => false
  end.

(** The numeric signals other than the three large ones are below
    [2 ^ k]. *)
Definition capped (k : Z) (signals : Signals) : Prop :=
  forall key x, In key requiredSignals -> isFlag key = false ->
    Http.includes Http.allowedLargeValues key = false ->
    get signals key = VNum x -> below k x = true.

(** Sample requests and a sample source of random numbers. *)
Module HttpSamples.

Definition halves : nat -> float := fun _ => 0.5%float.

Definition path : string := "/api/v1/segment/classify".

(** A demo request without signals. *)
Definition demoHeritage : Http.Request :=
  {| Http.req_path := path;
     Http.req_body := Http.Parsed (Http.Prim VUndefined) (VStr "heritage") |}.

(** The second entry is a string, the third a number out of range. *)
Definition refused : Http.Request :=
  {| Http.req_path := path;
     Http.req_body :=
       Http.Parsed
         (Http.Object [ ("session_duration"%string, VNum 480%float);
                        ("page_depth"%string, VStr "7");
                        ("product_interaction_quality"%string, VNum 1.5%float) ])
         VUndefined |}.

(** Only two signals posted: the middleware passes them on. *)
Definition incomplete : Http.Request :=
  {| Http.req_path := path;
     Http.req_body :=
       Http.Parsed
         (Http.Object [ ("session_duration"%string, VNum 480%float);
                        ("page_depth"%string, VNum (-3)%float) ])
         VUndefined |}.

(** The sixteen required signals, all zero or false, with one entry more. *)
Definition zeros : list (string * value) :=
  map (fun k => (k, if isFlag k then VBool false else VNum 0%float)) requiredSignals
  ++ [ ("visitor_id"%string, VObj) ].

Definition zerosRequest : Http.Request :=
  {| Http.req_path := path;
     Http.req_body := Http.Parsed (Http.Object zeros) VUndefined |}.

(** What the classifier says of [incomplete]. *)
Definition missingText : string :=
  "Missing required signals: designer_story_engagement, craftsmanship_content_focus, heritage_content_time, multi_room_navigation, complete_project_interest, budget_premium_indicators, clean_aesthetic_preference, integration_content_focus, contemporary_browsing_pattern, commercial_scale_indicators, durability_specs_interest, technical_documentation_focus, product_interaction_quality, return_visitor_pattern".

(** The answer of the route to a request, from the sample world. *)
Definition answer (random : nat -> float) (req : Http.Request) : Http.Response :=
  match fst (Http.segmentClassify random req Samples.world) with
  | Normal r => r
  | _ => Http.badRequest (Http.Message "") path
  end.

End HttpSamples.

(** * The API keys manager (config/api-keys-manager.js) *)

Module ApiKeys.

(** [process.env]: every value present is a string.  [env !! key] is the
    variable of that name, [None] when it is not set; a name inherited from
    [Object.prototype], which is no variable name, is outside the model. *)
Abbreviation Env := (gmap string string).

(** [s.includes(sub)] and [s.startsWith(sub)] *)
Fixpoint str_includes (s sub : string) : bool :=
  String.prefix sub s ||
  match s with
  | EmptyString => false
  | String _ s' => str_includes s' sub
  end.

Definition startsWith (s sub : string) : bool := String.prefix sub s.

(** Truthiness of [process.env[key]]: present and not empty. *)
Definition isSet (value : option string) : bool :=
  match value with
  | Some s => negb (String.eqb s "")
  | None => false
  end.

Record Manager : Type := {
  configPath : string;
  templatePath : string;
  required_keys : list string;
  isInitialized : bool
}.

(** The state the constructor sets up before it calls [init], given the
    two paths it joins. *)
Definition constructed (configPath templatePath : string) : Manager :=
  {| configPath := configPath;
     templatePath := templatePath;
     required_keys := [ "OPENAI_API_KEY"; "PINECONE_API_KEY"; "PINECONE_ENVIRONMENT" ];
     isInitialized := false |}.

Record Validation : Type := {
  isValid : bool;
  missing : list string
}.

(** [!value || value.includes('your-') || value.includes('here')] *)
Definition placeholder (value : option string) : bool :=
  match value with
  | None => true
  | Some s => String.eqb s "" || str_includes s "your-" || str_includes s "here"
  end.

Definition validateRequiredKeys (this : Manager) (env : Env) : Validation :=
  let missing :=
    fold_left
      (fun missing key =>
         let value := env !! key in
         if placeholder value then missing ++ [key] else missing)
      (required_keys this) [] in
  {| isValid := Nat.eqb (length missing) 0; missing := missing |}.

(** What a connection test resolves to: [{ valid: true, message }] or
    [{ valid: false, error }]. *)
Inductive TestResult : Type :=
| Valid (message : string)
| Invalid (error : string).

(** Reading [startsWith] of an absent key is a TypeError, whose text is the
    engine's: [Stuck]. *)
Definition testOpenAIConnection (env : Env) : completion TestResult :=
  match env !! "OPENAI_API_KEY" with
  | None => Stuck
  | Some apiKey =>
      if negb (startsWith apiKey "sk-")
      then Normal (Invalid "Formato API key OpenAI non valido")
      else Normal (Valid "Formato API key valido")
  end.

Definition testPineconeConnection (env : Env) : completion TestResult :=
  let apiKey := env !! "PINECONE_API_KEY" in
  let environment := env !! "PINECONE_ENVIRONMENT" in
  if negb (isSet apiKey) || negb (isSet environment)
  then Normal (Invalid "Configurazione Pinecone incompleta")
  else Normal (Valid "Configurazione Pinecone completa").

Record Results : Type := {
  openai : option TestResult;
  pinecone : option TestResult
}.

(** [process.env.K && !process.env.K.includes('your-')] *)
Definition testable (value : option string) : bool :=
  match value with
  | Some s => negb (String.eqb s "") && negb (str_includes s "your-")
  | None => false
  end.

(** [try { results.k = await test() } catch (error) { results.k = { valid:
    false, error: error.message } }] *)
Definition attempt (test : completion TestResult) : completion (option TestResult) :=
  match test with
  | Normal r => Normal (Some r)
  | Throw msg => Normal (Some (Invalid msg))
  | Stuck => Stuck
  end.

Definition validateAPIKeys (env : Env) : completion Results :=
  openai <~ (if testable (env !! "OPENAI_API_KEY")
             then attempt (testOpenAIConnection env) else Normal None) ;;
  pinecone <~ (if testable (env !! "PINECONE_API_KEY")
               then attempt (testPineconeConnection env) else Normal None) ;;
  Normal {| openai := openai; pinecone := pinecone |}.

Record Status : Type := {
  isConfigured : bool;
  requiredKeys : Z;
  configuredKeys : Z;
  missingKeys : list string;
  demoMode : bool
}.

Definition getConfigurationStatus (this : Manager) (env : Env) : Status :=
  let validation := validateRequiredKeys this env in
  {| isConfigured := isInitialized this;
     requiredKeys := Z.of_nat (length (required_keys this));
     configuredKeys := Z.of_nat (length (required_keys this))
                       - Z.of_nat (length (missing validation));
     missingKeys := missing validation;
     demoMode := bool_decide (env !! "ENABLE_DEMO_MODE" = Some "true") |}.

(** [sub] occurs in [s]. *)
Definition occurs (sub s : string) : Prop :=
  exists a b, s = (a +:+ sub +:+ b)%string.

(** A key that counts as configured: present, not empty, and free of the
    two placeholder fragments. *)
Definition configured (env : Env) (key : string) : Prop :=
  exists s, env !! key = Some s /\ s <> ""%string /\
    ~ occurs "your-" s /\ ~ occurs "here" s.

End ApiKeys.

Module KeySamples.

Definition manager : ApiKeys.Manager :=
  ApiKeys.constructed "/srv/app/.env" "/srv/app/env.template".

Definition complete : ApiKeys.Env :=
  list_to_map [ ("OPENAI_API_KEY"%string, "sk-test-0123456789"%string);
                ("PINECONE_API_KEY"%string, "pc-0123456789"%string);
                ("PINECONE_ENVIRONMENT"%string, "us-east-1-aws"%string) ].

(** The values of the template: placeholders. *)
Definition template : ApiKeys.Env :=
  list_to_map [ ("OPENAI_API_KEY"%string, "sk-your-openai-api-key-here"%string);
                ("PINECONE_API_KEY"%string, "your-pinecone-api-key-here"%string);
                ("PINECONE_ENVIRONMENT"%string, "us-east-1"%string);
                ("ENABLE_DEMO_MODE"%string, "true"%string) ].

End KeySamples.

(** * Properties *)

(** ** Facts on the order of binary64 numbers *)

Module FloatFacts.
Import FloatOrder.

Lemma SFcompare_rank (x y : spec_float) :
  match SFcompare x y, rank x, rank y with
  | None, None, _ | None, _, None => True
  | Some Lt, Some a, Some b => lex_lt a b
  | Some Eq, Some a, Some b => a = b
  | Some Gt, Some a, Some b => lex_lt b a
  | _, _, _ => False
  end.
Proof.
  destruct x as [[]|[]| |[] mx ex], y as [[]|[]| |[] my ey]; simpl; try lia; try reflexivity;
    destruct (Z.compare_spec ex ey); simpl; try lia;
    rewrite Pos.compare_cont_spec; simpl;
    destruct (Pos.compare_spec mx my); simpl; try lia; subst; reflexivity.
Qed.

Ltac by_rank x y :=
  unfold flt, fle, lex_le, rk;
  pose proof (SFcompare_rank (Prim2SF x) (Prim2SF y)) as H;
  destruct (SFcompare (Prim2SF x) (Prim2SF y)) as [[]|];
  destruct (rank (Prim2SF x)) as [[[? ?] ?]|];
  destruct (rank (Prim2SF y)) as [[[? ?] ?]|];
  try contradiction;
  (split;
   [ intros E; try discriminate E;
     try (eexists _, _; split; [reflexivity|split; [reflexivity|]];
          first [left; exact H | right; exact H | exact H])
   | intros (? & ? & Ea & Eb & L); try reflexivity;
     try discriminate Ea; try discriminate Eb;
     injection Ea as <-; injection Eb as <-;
     try (destruct L as [L|L]; [|injection L as -> -> ->]);
     try (injection H as -> -> ->);
     unfold lex_lt in *; lia ]).

Lemma ltb_flt (x y : float) : (x <? y)%float = true <-> flt x y.
Proof. rewrite FloatAxioms.ltb_spec. unfold SFltb. by_rank x y. Qed.

Lemma leb_fle (x y : float) : (x <=? y)%float = true <-> fle x y.
Proof. rewrite FloatAxioms.leb_spec. unfold SFleb. by_rank x y. Qed.

Lemma eqb_fle (x y : float) : (x =? y)%float = true <-> fle x y /\ fle y x.
Proof.
  rewrite FloatAxioms.eqb_spec. unfold SFeqb, fle, lex_le, rk.
  pose proof (SFcompare_rank (Prim2SF x) (Prim2SF y)) as H.
  destruct (SFcompare (Prim2SF x) (Prim2SF y)) as [[]|];
    destruct (rank (Prim2SF x)) as [[[? ?] ?]|];
    destruct (rank (Prim2SF y)) as [[[? ?] ?]|];
    try contradiction;
    (split;
     [ intros E; try discriminate E; injection H as -> -> ->;
       split; eexists _, _; eauto
     | intros [(? & ? & Ea & Eb & L) (? & ? & Ea' & Eb' & L')]; try reflexivity;
       try discriminate Ea; try discriminate Eb;
       injection Ea as <-; injection Eb as <-; injection Ea' as <-; injection Eb' as <-;
       try (destruct L as [L|L]; [|injection L as -> -> ->]);
       try (destruct L' as [L'|L']; [|injection L' as -> -> ->]);
       unfold lex_lt in *; lia ]).
Qed.

Lemma is_nan_rk (x : float) : is_nan x = true <-> rk x = None.
Proof.
  unfold is_nan, rk. rewrite FloatAxioms.eqb_spec. unfold SFeqb.
  pose proof (SFcompare_rank (Prim2SF x) (Prim2SF x)) as H.
  destruct (SFcompare (Prim2SF x) (Prim2SF x)) as [[]|];
    destruct (rank (Prim2SF x)) as [[[a1 a2] a3]|]; simpl in *;
    try contradiction; try lia; split; intro; try discriminate; reflexivity.
Qed.

Lemma not_nan_rk (x : float) : is_nan x = false <-> exists a, rk x = Some a.
Proof.
  destruct (is_nan x) eqn:E.
  - apply is_nan_rk in E. rewrite E. split; [discriminate|]. intros [a ?]; discriminate.
  - split; [intros _|reflexivity]. destruct (rk x) as [a|] eqn:R; [eauto|].
    apply is_nan_rk in R. congruence.
Qed.

Lemma flt_fle x y : flt x y -> fle x y.
Proof. intros (a & b & ? & ? & ?). exists a, b. unfold lex_le. auto. Qed.

Lemma fle_refl x : is_nan x = false -> fle x x.
Proof. intros [a Ha]%not_nan_rk. exists a, a. unfold lex_le. auto. Qed.

Lemma fle_not_nan_l x y : fle x y -> is_nan x = false.
Proof. intros (a & b & ? & ? & ?). apply not_nan_rk. eauto. Qed.

Lemma fle_not_nan_r x y : fle x y -> is_nan y = false.
Proof. intros (a & b & ? & ? & ?). apply not_nan_rk. eauto. Qed.

Lemma flt_not_nan_l x y : flt x y -> is_nan x = false.
Proof. intros H%flt_fle. eapply fle_not_nan_l; eauto. Qed.

Lemma flt_not_nan_r x y : flt x y -> is_nan y = false.
Proof. intros H%flt_fle. eapply fle_not_nan_r; eauto. Qed.

(** Open the order hypotheses into facts on ranks. *)
Ltac ranks :=
  repeat match goal with
  | H : flt _ _ |- _ => destruct H as (? & ? & ? & ? & H)
  | H : fle _ _ |- _ => destruct H as (? & ? & ? & ? & H)
  end;
  repeat match goal with
  | H : rk ?x = Some _, H' : rk ?x = Some _ |- _ =>
      rewrite H in H'; injection H' as <-
  end.

Ltac lex :=
  unfold lex_le, lex_lt in *;
  repeat match goal with
  | a : (Z * Z * Z)%type |- _ => destruct a as [[? ?] ?]
  end;
  repeat match goal with
  | H : _ \/ (_, _, _) = (_, _, _) |- _ => destruct H as [H|H]; [|injection H as -> -> ->]
  end;
  first [lia | right; f_equal; lia | left; lia ].

Lemma flt_trans x y z : flt x y -> flt y z -> flt x z.
Proof. intros H1 H2. ranks. eexists _, _. repeat split; eauto. lex. Qed.

Lemma flt_fle_trans x y z : flt x y -> fle y z -> flt x z.
Proof. intros H1 H2. ranks. eexists _, _. repeat split; eauto. lex. Qed.

Lemma fle_flt_trans x y z : fle x y -> flt y z -> flt x z.
Proof. intros H1 H2. ranks. eexists _, _. repeat split; eauto. lex. Qed.

Lemma fle_trans x y z : fle x y -> fle y z -> fle x z.
Proof. intros H1 H2. ranks. eexists _, _. repeat split; eauto. lex. Qed.

Lemma flt_irrefl x : ~ flt x x.
Proof. intros H. ranks. lex. Qed.

Lemma flt_not_fle x y : flt x y -> ~ fle y x.
Proof. intros H1 H2. ranks. lex. Qed.

Lemma lex_total (a b : Z * Z * Z) : lex_lt a b \/ lex_le b a.
Proof.
  destruct a as [[a1 a2] a3], b as [[b1 b2] b3]. unfold lex_le, lex_lt.
  destruct (Z.lt_total a1 b1) as [?|[->|?]]; [lia| |lia].
  destruct (Z.lt_total a2 b2) as [?|[->|?]]; [lia| |lia].
  destruct (Z.lt_total a3 b3) as [?|[->|?]]; [lia| |lia].
  right; right; reflexivity.
Qed.

Lemma fle_total x y : is_nan x = false -> is_nan y = false -> flt x y \/ fle y x.
Proof.
  intros [a Ha]%not_nan_rk [b Hb]%not_nan_rk.
  destruct (lex_total a b); [left|right]; eexists _, _; eauto.
Qed.

Lemma not_ltb_fle x y :
  is_nan x = false -> is_nan y = false -> (x <? y)%float = false -> fle y x.
Proof.
  intros Hx Hy H. destruct (fle_total x y Hx Hy) as [L|L]; [|exact L].
  apply ltb_flt in L. congruence.
Qed.

(** A product with NaN is NaN. *)
Lemma mul_nan_r (x : float) : (x * nan)%float = nan.
Proof.
  apply Prim2SF_inj. rewrite mul_spec.
  change (Prim2SF nan) with S754_nan.
  destruct (Prim2SF x) as [?|?| |? ? ?]; reflexivity.
Qed.

(** Multiplication commutes, bit for bit. *)
Lemma mul_comm (x y : float) : (x * y)%float = (y * x)%float.
Proof.
  apply Prim2SF_inj. rewrite !mul_spec. unfold SF64mul, SFmul.
  destruct (Prim2SF x) as [[]|[]| |[] mx ex], (Prim2SF y) as [[]|[]| |[] my ey];
    simpl; try reflexivity;
    rewrite (Pos.mul_comm mx my), (Z.add_comm ex ey); reflexivity.
Qed.

(** [Math.min] and [Math.max] return NaN or one of their arguments. *)
Lemma Math_max_cases a b :
  (is_nan (Math_max a b) = true /\ (is_nan a = true \/ is_nan b = true))
  \/ (is_nan a = false /\ is_nan b = false /\
      fle a (Math_max a b) /\ fle b (Math_max a b) /\
      (Math_max a b = a \/ Math_max a b = b)).
Proof.
  unfold Math_max.
  destruct (is_nan a) eqn:Na; [left; split; [reflexivity|auto]|].
  destruct (is_nan b) eqn:Nb; [left; split; [reflexivity|auto]|].
  right. simpl. do 2 (split; [reflexivity|]).
  destruct (a <? b)%float eqn:L1.
  { apply ltb_flt in L1. repeat split; auto using flt_fle, fle_refl. }
  destruct (b <? a)%float eqn:L2.
  { apply ltb_flt in L2. repeat split; auto using flt_fle, fle_refl. }
  pose proof (not_ltb_fle _ _ Na Nb L1). pose proof (not_ltb_fle _ _ Nb Na L2).
  destruct (get_sign a); repeat split; auto using fle_refl.
Qed.

Lemma Math_min_cases a b :
  (is_nan (Math_min a b) = true /\ (is_nan a = true \/ is_nan b = true))
  \/ (is_nan a = false /\ is_nan b = false /\
      fle (Math_min a b) a /\ fle (Math_min a b) b /\
      (Math_min a b = a \/ Math_min a b = b)).
Proof.
  unfold Math_min.
  destruct (is_nan a) eqn:Na; [left; split; [reflexivity|auto]|].
  destruct (is_nan b) eqn:Nb; [left; split; [reflexivity|auto]|].
  right. simpl. do 2 (split; [reflexivity|]).
  destruct (a <? b)%float eqn:L1.
  { apply ltb_flt in L1. repeat split; auto using flt_fle, fle_refl. }
  destruct (b <? a)%float eqn:L2.
  { apply ltb_flt in L2. repeat split; auto using flt_fle, fle_refl. }
  pose proof (not_ltb_fle _ _ Na Nb L1). pose proof (not_ltb_fle _ _ Nb Na L2).
  destruct (get_sign a); repeat split; auto using fle_refl.
Qed.

(** Clamping: NaN stays NaN, anything else lands in the unit interval. *)
Lemma clamp_nan x : is_nan x = true -> Spec.clamp x = nan.
Proof. intros H. unfold Spec.clamp, Math_max. rewrite H. reflexivity. Qed.

Lemma clamp_unit x : is_nan x = false -> Spec.in_unit_interval (Spec.clamp x).
Proof.
  intros Hx. unfold Spec.clamp, Spec.in_unit_interval. rewrite !leb_fle.
  destruct (Math_max_cases x 0) as [[_ [N|N]]|(_ & _ & L1 & L2 & E)];
    [congruence|discriminate N|].
  pose proof (fle_not_nan_r _ _ L2) as Nm.
  destruct (Math_min_cases (Math_max x 0) 1) as [[_ [N|N]]|(_ & _ & L3 & L4 & [E'|E'])];
    [congruence|discriminate N| |]; rewrite E'.
  - rewrite E' in L4. auto.
  - split; [|apply fle_refl; reflexivity]. apply leb_fle. reflexivity.
Qed.

Lemma clamp_range x : is_nan (Spec.clamp x) = true \/ Spec.in_unit_interval (Spec.clamp x).
Proof.
  destruct (is_nan x) eqn:E; [left; rewrite clamp_nan by exact E; reflexivity|].
  right. apply clamp_unit, E.
Qed.

Lemma in_unit_not_nan x : Spec.in_unit_interval x -> is_nan x = false.
Proof. intros [H _]. apply leb_fle in H. eapply fle_not_nan_r; eauto. Qed.

End FloatFacts.

(** ** Loops and validation *)

Lemma for_of_Normal {A : Type} (l : list A) (body : A -> completion unit) :
  for_of l body = Normal tt <-> forall x, In x l -> body x = Normal tt.
Proof.
  induction l as [|a l IH]; simpl.
  - split; [intros _ x []|reflexivity].
  - destruct (body a) as [[]| |] eqn:E; simpl.
    + rewrite IH. split; [intros H x [<-|Hx]; auto|intros H x Hx; auto].
    + split; [discriminate|]. intros H. specialize (H a (or_introl eq_refl)). congruence.
    + split; [discriminate|]. intros H. specialize (H a (or_introl eq_refl)). congruence.
Qed.

Lemma for_of_Throw {A : Type} (l : list A) (body : A -> completion unit) msg :
  for_of l body = Throw msg -> exists x, In x l /\ body x = Throw msg.
Proof.
  induction l as [|a l IH]; simpl; [discriminate|].
  destruct (body a) as [[]| |] eqn:E; simpl.
  - intros H. destruct (IH H) as (x & ? & ?). eauto.
  - intros [= <-]. eauto.
  - discriminate.
Qed.

Lemma for_of_not_Stuck {A : Type} (l : list A) (body : A -> completion unit) :
  (forall x, In x l -> body x <> Stuck) -> for_of l body <> Stuck.
Proof.
  induction l as [|a l IH]; simpl; [discriminate|]. intros H.
  pose proof (H a (or_introl eq_refl)).
  destruct (body a) as [[]| |]; simpl; [|discriminate|congruence].
  apply IH. auto.
Qed.

Lemma checkSignal_Normal signals k :
  checkSignal signals k = Normal tt <-> wellTyped signals k = true.
Proof.
  unfold checkSignal, wellTyped.
  destruct (isFlag k), (get signals k) as [| |b|x|s|]; simpl;
    try (split; (discriminate || reflexivity)).
  unfold isNaN. destruct (is_nan x); simpl; split; (discriminate || reflexivity).
Qed.

Lemma checkSignal_not_Stuck signals k : checkSignal signals k <> Stuck.
Proof.
  unfold checkSignal.
  destruct (isFlag k), (get signals k) as [| |b|x|s|]; simpl; try discriminate.
  unfold isNaN. destruct (is_nan x); discriminate.
Qed.

Lemma wellTyped_not_missing signals k : wellTyped signals k = true -> isMissing signals k = false.
Proof.
  unfold wellTyped, isMissing.
  destruct (isFlag k), (get signals k); simpl; (discriminate || reflexivity).
Qed.

Lemma filter_nil_iff {A : Type} (f : A -> bool) (l : list A) :
  List.filter f l = [] <-> forall x, In x l -> f x = false.
Proof.
  induction l as [|a l IH]; simpl; [split; [intros _ x []|reflexivity]|].
  destruct (f a) eqn:E.
  - split; [discriminate|]. intros H. specialize (H a (or_introl eq_refl)). congruence.
  - rewrite IH. split; [intros H x [<-|?]; auto|auto].
Qed.

(** Validation passes exactly when every required signal is well typed. *)
Lemma valid_iff signals :
  valid signals <-> forall k, In k requiredSignals -> wellTyped signals k = true.
Proof.
  unfold valid, validate. split.
  - destruct (List.filter (isMissing signals) requiredSignals); [|discriminate].
    intros H k Hk. apply checkSignal_Normal. revert k Hk. apply for_of_Normal, H.
  - intros H.
    assert (List.filter (isMissing signals) requiredSignals = []) as ->.
    { apply filter_nil_iff. intros k Hk. apply wellTyped_not_missing; auto. }
    apply (proj2 (for_of_Normal requiredSignals (checkSignal signals))).
    intros k Hk. apply checkSignal_Normal; auto.
Qed.

Lemma validate_not_Stuck signals : validate signals <> Stuck.
Proof.
  unfold validate.
  destruct (List.filter (isMissing signals) requiredSignals); [|discriminate].
  apply (for_of_not_Stuck requiredSignals (checkSignal signals)).
  intros. apply checkSignal_not_Stuck.
Qed.

(** Deciding membership in a literal list of strings. *)
Ltac in_list := simpl; repeat (first [left; reflexivity | right]).

Lemma valid_number signals k :
  valid signals -> In k requiredSignals -> isFlag k = false ->
  get signals k = VNum (Spec.numberAt signals k) /\ is_nan (Spec.numberAt signals k) = false.
Proof.
  intros V Hk F. pose proof (proj1 (valid_iff signals) V k Hk) as W.
  unfold wellTyped in W. rewrite F in W. unfold Spec.numberAt.
  destruct (get signals k); simpl in W; try discriminate.
  split; [reflexivity|]. destruct (is_nan x); [discriminate|reflexivity].
Qed.

Lemma valid_num signals k :
  valid signals -> In k requiredSignals -> isFlag k = false ->
  num signals k = Normal (Spec.numberAt signals k).
Proof.
  intros V Hk F. unfold num. destruct (valid_number signals k V Hk F) as [-> _]. reflexivity.
Qed.

(** ** The selection loop *)

Module Selection.
Import FloatOrder FloatFacts.

Lemma eligible_fle k p t : Spec.eligible (k, p, t) <-> fle t p.
Proof. unfold Spec.eligible, ge. simpl. apply leb_fle. Qed.

Lemma pick_snoc cs c locals : pick (cs ++ [c]) locals = pickStep (pick cs locals) c.
Proof. unfold pick. rewrite fold_left_app. reflexivity. Qed.

Lemma pick_spec (cs : list (string * float * float)) (d : string) :
  (forall c, In c cs -> flt 0 (snd c)) ->
  (pick cs (0%float, d) = (0%float, d) /\ forall c, In c cs -> ~ Spec.eligible c)
  \/ (exists i k p, pick cs (0%float, d) = (p, k) /\ chosen cs i k p).
Proof.
  induction cs as [|[[k p] t] cs IH] using rev_ind; intros Hpos.
  { left. split; [reflexivity|]. intros c []. }
  rewrite pick_snoc.
  assert (flt 0 t) as Ht by (apply (Hpos (k, p, t)), in_or_app; right; left; reflexivity).
  destruct IH as [[E None]|(i & ki & pi & E & ti & Hi & Ei & Best)].
  { intros c Hc. apply Hpos, in_or_app. left. exact Hc. }
  - (* nothing chosen so far *)
    rewrite E. unfold pickStep. simpl fst.
    destruct (ge p t) eqn:G; simpl.
    + assert (fle t p) as Htp by (apply leb_fle, G).
      assert (gt p 0 = true) as ->.
      { apply ltb_flt. eapply flt_fle_trans; eauto. }
      right. exists (length cs), k, p. split; [reflexivity|].
      exists t. split; [|split].
      * rewrite lookup_app_r by lia. rewrite Nat.sub_diag. reflexivity.
      * apply eligible_fle, Htp.
      * intros j c Hj Hc. split; intros Hlt.
        -- rewrite lookup_app_l in Hj by exact Hlt.
           exfalso. apply (None c); [|exact Hc].
           apply list_elem_of_In, list_elem_of_lookup. eauto.
        -- apply lookup_lt_Some in Hj. rewrite length_app in Hj. simpl in Hj. lia.
    + left. split; [reflexivity|]. intros c [Hc|[<-|[]]]%in_app_or; [auto|].
      unfold Spec.eligible. simpl. congruence.
  - (* candidate [i] chosen so far *)
    rewrite E. unfold pickStep. simpl fst.
    assert (i < length cs)%nat as Hlen by (eapply lookup_lt_Some; eauto).
    assert (fle ti pi) as Hti by (apply eligible_fle in Ei; exact Ei).
    destruct (ge p t) eqn:G; simpl.
    + assert (fle t p) as Htp by (apply leb_fle, G).
      destruct (gt p pi) eqn:G2.
      * apply ltb_flt in G2.
        right. exists (length cs), k, p. split; [reflexivity|].
        exists t. split; [|split].
        -- rewrite lookup_app_r by lia. rewrite Nat.sub_diag. reflexivity.
        -- apply eligible_fle, Htp.
        -- intros j c Hj Hc. split; intros Hlt.
           ++ rewrite lookup_app_l in Hj by exact Hlt.
              destruct (Best j c Hj Hc) as [B1 B2].
              destruct (Nat.lt_total j i) as [?|[->|?]].
              ** eapply flt_trans; eauto.
              ** rewrite Hi in Hj. injection Hj as <-. exact G2.
              ** eapply fle_flt_trans; eauto.
           ++ apply lookup_lt_Some in Hj. rewrite length_app in Hj. simpl in Hj. lia.
      * assert (fle p pi) as Hle.
        { apply not_ltb_fle; [eapply fle_not_nan_r; eauto..|exact G2]. }
        right. exists i, ki, pi. split; [reflexivity|].
        exists ti. split; [|split].
        -- rewrite lookup_app_l by exact Hlen. exact Hi.
        -- exact Ei.
        -- intros j c Hj Hc.
           destruct (Nat.lt_ge_cases j (length cs)) as [Hlt|Hge].
           ++ rewrite lookup_app_l in Hj by exact Hlt. eauto.
           ++ rewrite lookup_app_r in Hj by exact Hge.
              destruct (j - length cs)%nat eqn:D; simpl in Hj; [|discriminate].
              injection Hj as <-. simpl. split; [lia|auto].
    + right. exists i, ki, pi. split; [reflexivity|].
      exists ti. split; [|split].
      * rewrite lookup_app_l by exact Hlen. exact Hi.
      * exact Ei.
      * intros j c Hj Hc.
        destruct (Nat.lt_ge_cases j (length cs)) as [Hlt|Hge].
        -- rewrite lookup_app_l in Hj by exact Hlt. eauto.
        -- rewrite lookup_app_r in Hj by exact Hge.
           destruct (j - length cs)%nat eqn:D; simpl in Hj; [|discriminate].
           injection Hj as <-. unfold Spec.eligible in Hc. simpl in Hc. congruence.
Qed.

(** On the four probabilities in catalog order, the loop of
    [selectPrimarySegment] is [pick] on the candidates. *)
Lemma selectPrimarySegment_pick (p1 p2 p3 p4 : float) :
  let probs := [ ("italian_heritage_advocate"%string, p1);
                 ("luxury_project_planner"%string, p2);
                 ("international_minimalist"%string, p3);
                 ("hospitality_professional"%string, p4) ] in
  selectPrimarySegment informationService probs
  = Normal (snd (pick (Spec.candidates probs) (0%float, "international_minimalist"%string))).
Proof.
  unfold selectPrimarySegment, pick, pickStep, selectStep. simpl.
  repeat match goal with
  | |- context [if ?b then _ else _] => destruct b; simpl
  end; reflexivity.
Qed.

Lemma thresholds_positive probs c : In c (Spec.candidates probs) -> flt 0 (snd c).
Proof.
  unfold Spec.candidates, Spec.thresholds.
  destruct probs as [|a [|b [|c' [|d probs]]]]; simpl;
    intros H; repeat (destruct H as [<-|H]; [apply ltb_flt; reflexivity|]);
    try contradiction.
  destruct probs; contradiction.
Qed.

End Selection.

(** ** The scoring steps on a validated vector *)

Section Validated.
Import FloatFacts.

Variable signals : Signals.
Hypothesis V : valid signals.

(** Read the numeric signals of the goal as the numbers they hold. *)
Ltac numeric :=
  repeat match goal with
  | |- context [num signals ?k] =>
      rewrite (valid_num signals k V ltac:(in_list) eq_refl)
  end.

(** Put the weights in front, as the specification writes them. *)
Ltac weights_first :=
  repeat match goal with
  | |- context [(?c * Spec.numberAt signals ?k)%float] =>
      rewrite (mul_comm c (Spec.numberAt signals k))
  | |- context [(?c * Math_min ?a ?b)%float] =>
      rewrite (mul_comm c (Math_min a b))
  end.

Lemma calculateSegmentProbabilities_valid :
  calculateSegmentProbabilities signals = Normal (Spec.probabilities signals).
Proof.
  unfold calculateSegmentProbabilities. numeric. cbn [cbind].
  unfold Spec.probabilities, Spec.italian_heritage_advocate, Spec.luxury_project_planner,
    Spec.international_minimalist, Spec.hospitality_professional, Spec.clamp,
    Spec.truthy01.
  weights_first.
  match goal with
  | |- context [(0.35 * ?b)%float] => rewrite (mul_comm 0.35 b)
  end.
  reflexivity.
Qed.

Lemma above_valid k t :
  In k requiredSignals -> isFlag k = false ->
  above signals k t = Normal (Spec.holds signals (Spec.Above k t)).
Proof. intros Hk F. unfold above. rewrite (valid_num signals k V Hk F). reflexivity. Qed.

Lemma identifyClassificationFactors_valid segment w :
  identifyClassificationFactors signals segment w = (Normal (Spec.factors signals segment), w).
Proof.
  unfold identifyClassificationFactors, Spec.factors, Spec.checks.
  repeat match goal with
  | |- context [above signals ?k ?t] =>
      rewrite (above_valid k t ltac:(in_list) eq_refl)
  end.
  change (Normal (flag signals "multi_room_navigation"))
    with (Normal (A:=bool) (Spec.holds signals (Spec.Truthy "multi_room_navigation"))).
  destruct (String.eqb segment "italian_heritage_advocate");
    [|destruct (String.eqb segment "luxury_project_planner");
      [|destruct (String.eqb segment "international_minimalist");
        [|destruct (String.eqb segment "hospitality_professional")]]];
    unfold andThen, pushIf; cbn [List.filter map fst snd];
    repeat match goal with
    | |- context [Spec.holds signals ?c] => destruct (Spec.holds signals c)
    end; reflexivity.
Qed.

Lemma calculateConsultationReadiness_valid segment w :
  inherited segment = false ->
  calculateConsultationReadiness signals segment w
  = (Normal (Spec.consultation_readiness signals segment), w).
Proof.
  intros Hi.
  unfold calculateConsultationReadiness, try_catch, lift. numeric. cbn [cbind].
  unfold Spec.consultation_readiness, Spec.truthy01, Spec.multiplier, Spec.clamp.
  cbn [prop]. rewrite Hi.
  rewrite !(String.eqb_sym _ segment).
  weights_first.
  destruct (flag signals "return_visitor_pattern");
    repeat match goal with
    | |- context [if String.eqb segment ?k then _ else _] =>
        destruct (String.eqb segment k)
    end; reflexivity.
Qed.

(** Under an inherited name the multiplier is no number, and neither is
    the score. *)
Lemma calculateConsultationReadiness_inherited segment w :
  inherited segment = true ->
  calculateConsultationReadiness signals segment w = (Normal nan, w).
Proof.
  intros Hi.
  assert (forall x, Math_min (Math_max (x * nan) 0) 1 = nan) as N.
  { intros x. rewrite mul_nan_r. reflexivity. }
  unfold calculateConsultationReadiness, try_catch, lift. numeric. cbn [cbind].
  unfold inherited in Hi. cbn [existsb inheritedNames] in Hi.
  repeat (apply orb_prop in Hi;
          destruct Hi as [Hi|Hi];
          [apply String.eqb_eq in Hi; subst segment; cbn [prop String.eqb];
           cbv [inherited]; cbn; rewrite N; reflexivity|]).
  discriminate Hi.
Qed.

End Validated.

(** The content angle of a segment that is no inherited name. *)
Lemma selectContentAngle_spec segment :
  inherited segment = false ->
  selectContentAngle segment = Normal (Spec.content_angle segment).
Proof.
  intros Hi. unfold selectContentAngle, Spec.content_angle. cbn [prop]. rewrite Hi.
  rewrite !(String.eqb_sym _ segment).
  repeat match goal with
  | |- context [if String.eqb segment ?k then _ else _] =>
      destruct (String.eqb segment k)
  end; reflexivity.
Qed.

(** ** The whole classification on a validated vector *)

Module Whole.
Import FloatOrder FloatFacts Selection.

(** The selected segment is a key of the probabilities, and its
    probability is not NaN unless it is the fallback. *)
Lemma selected_cases signals :
  let cs := Spec.candidates (Spec.probabilities signals) in
  ((forall c, In c cs -> ~ Spec.eligible c) /\
   selected signals = "international_minimalist" /\
   prop (Spec.probabilities signals) (selected signals)
   = Some (Spec.international_minimalist signals))
  \/ (exists i p, chosen cs i (selected signals) p /\
        prop (Spec.probabilities signals) (selected signals) = Some p /\
        is_nan p = false).
Proof.
  intros cs. unfold selected. fold cs.
  destruct (pick_spec cs "international_minimalist" (thresholds_positive _))
    as [[E None]|(i & k & p & E & Hc)]; rewrite E; simpl snd.
  - left. auto.
  - right. exists i, p. split; [exact Hc|].
    destruct Hc as (t & Hi & El & _).
    split; [|apply eligible_fle in El; eapply fle_not_nan_r; eauto].
    subst cs. unfold Spec.candidates, Spec.probabilities, Spec.thresholds in Hi.
    simpl in Hi.
    do 4 (destruct i as [|i]; [injection Hi as <- <- <-; reflexivity|]).
    discriminate Hi.
Qed.

Lemma selected_prop signals :
  exists conf, prop (Spec.probabilities signals) (selected signals) = Some conf.
Proof.
  destruct (selected_cases signals) as [(_ & _ & H)|(i & p & _ & H & _)]; eauto.
Qed.

(** The selected segment is a catalog id, hence no inherited name. *)
Lemma selected_catalog signals :
  In (selected signals)
    [ "italian_heritage_advocate"; "luxury_project_planner";
      "international_minimalist"; "hospitality_professional" ]%string.
Proof.
  destruct (selected_cases signals) as [(_ & -> & _)|(i & p & (t & Hi & _) & _)].
  - in_list.
  - unfold Spec.candidates, Spec.probabilities, Spec.thresholds in Hi. simpl in Hi.
    do 4 (destruct i as [|i]; [injection Hi as <- _ _; in_list|]). discriminate Hi.
Qed.

Lemma selected_not_inherited signals : inherited (selected signals) = false.
Proof.
  pose proof (selected_catalog signals) as H. simpl in H.
  destruct H as [<-|[<-|[<-|[<-|[]]]]]; reflexivity.
Qed.

Lemma classify_valid signals w conf :
  valid signals ->
  prop (Spec.probabilities signals) (selected signals) = Some conf ->
  classify informationService signals w
  = (if is_nan conf
     then Throw "Classification confidence calculation failed"
     else Normal (assembled signals (selected signals) conf), w).
Proof.
  intros V Hconf. unfold classify, bind, lift.
  rewrite V, (calculateSegmentProbabilities_valid signals V).
  unfold Spec.probabilities at 1. rewrite selectPrimarySegment_pick.
  fold (Spec.probabilities signals). fold (selected signals).
  rewrite Hconf. unfold isNaN, throw.
  destruct (is_nan conf); [reflexivity|].
  rewrite (identifyClassificationFactors_valid _ V).
  rewrite (selectContentAngle_spec _ (selected_not_inherited signals)).
  rewrite (calculateConsultationReadiness_valid _ V _ _ (selected_not_inherited signals)).
  reflexivity.
Qed.

(** The outcome of [validateSegmentClassification] is the outcome of
    [classify]: the clock and the console do not bear on it. *)
Lemma validateSegmentClassification_outcome this signals w :
  outcome (validateSegmentClassification this signals) w
  = outcome (classify this signals)
      {| perf := perf w; calls := S (calls w); console := console w |}.
Proof.
  unfold outcome, validateSegmentClassification, bind, try_catch, performance_now.
  destruct (classify this signals _) as [[c| |] w']; reflexivity.
Qed.

Lemma validateSegmentClassification_valid signals w conf :
  valid signals ->
  prop (Spec.probabilities signals) (selected signals) = Some conf ->
  outcome (validateSegmentClassification informationService signals) w
  = if is_nan conf
    then Throw "Classification confidence calculation failed"
    else Normal (assembled signals (selected signals) conf).
Proof.
  intros V Hconf. rewrite validateSegmentClassification_outcome.
  unfold outcome. rewrite (classify_valid _ _ _ V Hconf). reflexivity.
Qed.

(** A validated vector whose classification returns: what it returns. *)
Lemma returned_inv signals w c :
  valid signals ->
  outcome (validateSegmentClassification informationService signals) w = Normal c ->
  exists conf,
    prop (Spec.probabilities signals) (selected signals) = Some conf /\
    is_nan conf = false /\
    c = assembled signals (selected signals) conf.
Proof.
  intros V H. destruct (selected_prop signals) as [conf Hconf].
  rewrite (validateSegmentClassification_valid _ _ _ V Hconf) in H.
  exists conf. destruct (is_nan conf); [discriminate|].
  injection H as <-. auto.
Qed.

(** The classification returns only for a validated vector. *)
Lemma returned_valid signals w c :
  outcome (validateSegmentClassification informationService signals) w = Normal c ->
  valid signals.
Proof.
  rewrite validateSegmentClassification_outcome.
  unfold outcome, classify, bind, lift, valid.
  destruct (validate signals) as [[]| |]; [reflexivity|discriminate..].
Qed.

End Whole.

(** ** Finite arithmetic never yields NaN *)

Module FloatFinite.
Local Open Scope Z_scope.

Lemma digits2_size p : digits2_pos p = Pos.size p.
Proof. induction p; simpl; congruence. Qed.

Lemma Zdigits2_nonneg m : 0 <= Zdigits2 m.
Proof. destruct m; simpl; lia. Qed.

(** [m < 2 ^ Zdigits2 m], and [2 ^ (Zdigits2 m - 1) <= m] for positive [m]. *)
Lemma Zdigits2_gt m : 0 <= m -> m < 2 ^ Zdigits2 m.
Proof.
  destruct m as [|p|p]; simpl; [lia| |lia]. intros _.
  rewrite digits2_size. pose proof (Pos.size_gt p) as H.
  rewrite <- Pos2Z.inj_pow. lia.
Qed.

Lemma Zdigits2_le p : 2 ^ (Zpos (digits2_pos p) - 1) <= Zpos p.
Proof.
  rewrite digits2_size. pose proof (Pos.size_le p) as H.
  assert (2 ^ Zpos (Pos.size p) = 2 * 2 ^ (Zpos (Pos.size p) - 1)) as E.
  { replace (Zpos (Pos.size p)) with (Z.succ (Zpos (Pos.size p) - 1)) at 1 by lia.
    apply Z.pow_succ_r. lia. }
  apply Pos2Z.pos_le_pos in H. rewrite Pos2Z.inj_pow, (Pos2Z.pos_xO p) in H. lia.
Qed.

Lemma Zdigits2_bound m k : 0 <= m < 2 ^ k -> 0 <= k -> Zdigits2 m <= k.
Proof.
  intros [H0 H] Hk. destruct m as [|p|p]; simpl; [lia| |lia].
  pose proof (Zdigits2_le p) as L.
  assert (2 ^ (Zpos (digits2_pos p) - 1) < 2 ^ k) as Hlt by lia.
  apply Z.pow_lt_mono_r_iff in Hlt; lia.
Qed.

Lemma Zdigits2_succ m : 0 <= m -> Zdigits2 (m + 1) <= Zdigits2 m + 1.
Proof.
  intros H. pose proof (Zdigits2_gt m H) as G. pose proof (Zdigits2_nonneg m) as N.
  apply Zdigits2_bound; [|lia].
  replace (Zdigits2 m + 1) with (Z.succ (Zdigits2 m)) by lia.
  rewrite Z.pow_succ_r by exact N. lia.
Qed.

Lemma Zdigits2_mul p q :
  Zdigits2 (Zpos (p * q)) <= Zdigits2 (Zpos p) + Zdigits2 (Zpos q).
Proof.
  pose proof (Zdigits2_gt (Zpos p) ltac:(lia)) as Gp.
  pose proof (Zdigits2_gt (Zpos q) ltac:(lia)) as Gq.
  pose proof (Zdigits2_nonneg (Zpos p)). pose proof (Zdigits2_nonneg (Zpos q)).
  apply Zdigits2_bound; [|lia]. rewrite Z.pow_add_r by lia.
  rewrite Pos2Z.inj_mul. nia.
Qed.

(** *** Shifting right *)

Lemma iter_pos_shift {A : Type} (Q : Z -> A -> Prop) (f : A -> A) :
  (forall k x, Q k x -> Q (k + 1) (f x)) ->
  forall p k x, Q k x -> Q (k + Zpos p) (SpecFloat.iter_pos f p x).
Proof.
  intros Hf. induction p as [p IH|p IH|]; intros k x Hx; simpl.
  - replace (k + Zpos p~1) with (k + 1 + Zpos p + Zpos p) by lia. auto.
  - replace (k + Zpos p~0) with (k + Zpos p + Zpos p) by lia. auto.
  - auto.
Qed.

Lemma shr_1_shifted d k mrs : shifted d k mrs -> shifted d (k + 1) (shr_1 mrs).
Proof.
  unfold shifted. destruct mrs as [m r s]. simpl.
  destruct m as [|[p|p|]|p]; simpl; try lia;
    intros [_ H]; (split; [lia|]);
    rewrite ?Pos2Z.inj_succ in H; lia.
Qed.

Lemma shr_record_of_loc_m m l : shr_m (shr_record_of_loc m l) = m.
Proof. destruct l as [|[]]; reflexivity. Qed.

Lemma fexp_ge k : k - prec <= fexp prec emax k.
Proof. unfold fexp. lia. Qed.

Lemma shr_fexp_bounds m e l :
  0 <= m ->
  0 <= shr_m (fst (shr_fexp prec emax m e l)) /\
  Zdigits2 (shr_m (fst (shr_fexp prec emax m e l))) <= prec /\
  snd (shr_fexp prec emax m e l) = Z.max e (fexp prec emax (Zdigits2 m + e)).
Proof.
  intros Hm. unfold shr_fexp, shr.
  pose proof (fexp_ge (Zdigits2 m + e)) as F.
  destruct (fexp prec emax (Zdigits2 m + e) - e) as [|p|p] eqn:E; simpl.
  - rewrite shr_record_of_loc_m. lia.
  - destruct (iter_pos_shift (shifted (Zdigits2 m)) shr_1 (shr_1_shifted (Zdigits2 m))
                p 0 (shr_record_of_loc m l)) as [H1 H2].
    { unfold shifted. rewrite shr_record_of_loc_m. lia. }
    simpl in H2. assert (prec = 53) by reflexivity. lia.
  - rewrite shr_record_of_loc_m. lia.
Qed.

Lemma round_nearest_even_cases m l :
  round_nearest_even m l = m \/ round_nearest_even m l = m + 1.
Proof. destruct l as [|[]]; simpl; auto. destruct (Z.even m); auto. Qed.

(** *** Rounding never yields NaN, nor infinity below the overflow bound *)

Lemma binary_round_aux_cases sx mx ex lx :
  0 <= mx ->
  exists m e,
    0 <= m /\
    e <= Z.max (Z.max ex (fexp prec emax (Zdigits2 mx + ex)) + 1) (SpecFloat.emin prec emax) /\
    binary_round_aux prec emax sx mx ex lx
    = match m with
      | Z0 => S754_zero sx
      | Zpos p => if e <=? emax - prec then S754_finite sx p e else S754_infinity sx
      | Zneg _ => S754_nan
      end.
Proof.
  intros Hm. unfold binary_round_aux.
  pose proof (shr_fexp_bounds mx ex lx Hm) as (A1 & A2 & A3).
  destruct (shr_fexp prec emax mx ex lx) as [mrs' e']. simpl in A1, A2, A3.
  set (m1 := round_nearest_even (shr_m mrs') (loc_of_shr_record mrs')).
  assert (0 <= m1 /\ Zdigits2 m1 <= prec + 1) as [B1 B2].
  { pose proof (Zdigits2_succ (shr_m mrs') A1).
    destruct (round_nearest_even_cases (shr_m mrs') (loc_of_shr_record mrs')) as [E|E];
      unfold m1; rewrite E; lia. }
  pose proof (shr_fexp_bounds m1 e' loc_Exact B1) as (C1 & C2 & C3).
  destruct (shr_fexp prec emax m1 e' loc_Exact) as [mrs'' e'']. simpl in C1, C2, C3.
  exists (shr_m mrs''), e''. split; [exact C1|]. split; [|reflexivity].
  subst e'' e'. unfold fexp. lia.
Qed.

Lemma binary_round_aux_number sx mx ex lx :
  0 <= mx -> sf_number (binary_round_aux prec emax sx mx ex lx) = true.
Proof.
  intros Hm. destruct (binary_round_aux_cases sx mx ex lx Hm) as (m & e & H0 & _ & ->).
  destruct m as [|p|p]; [reflexivity| |lia]. destruct (e <=? emax - prec); reflexivity.
Qed.

Lemma binary_round_aux_finite sx mx ex lx :
  0 <= mx -> Zdigits2 mx + ex <= emax - 1 -> ex <= emax - prec - 1 ->
  sf_finite (binary_round_aux prec emax sx mx ex lx) = true.
Proof.
  intros Hm B1 B2.
  destruct (binary_round_aux_cases sx mx ex lx Hm) as (m & e & H0 & He & ->).
  destruct m as [|p|p]; [reflexivity| |lia].
  assert (e <= emax - prec) as L.
  { revert He. unfold fexp, SpecFloat.emin. unfold prec, emax in *. lia. }
  apply Z.leb_le in L. rewrite L. reflexivity.
Qed.

(** *** The operations on spec floats *)

Lemma valid_finite_bounds sx mx ex :
  valid_binary (S754_finite sx mx ex) = true ->
  Zpos (digits2_pos mx) + ex <= emax /\ ex <= emax - prec.
Proof.
  simpl. unfold bounded, canonical_mantissa, fexp.
  intros [H1 H2]%andb_prop. apply Z.eqb_eq in H1. apply Z.leb_le in H2.
  assert (prec = 53) by reflexivity. lia.
Qed.

Lemma SFmul_small x c :
  valid_binary x = true -> sf_finite x = true ->
  match c with
  | S754_zero _ => true
  | S754_finite _ m e => (Zpos (digits2_pos m) + e <=? -1) && (e <=? -1)
  | _ => false
  end = true ->
  sf_finite (SFmul prec emax x c) = true.
Proof.
  intros V Fx Hc.
  destruct x as [sx| | |sx mx ex]; try discriminate;
    destruct c as [sc| | |sc mc ec]; try discriminate; try reflexivity.
  apply andb_prop in Hc. destruct Hc as [H1%Z.leb_le H2%Z.leb_le].
  destruct (valid_finite_bounds _ _ _ V) as [B1 B2].
  pose proof (Zdigits2_mul mx mc) as D. simpl in D |- *.
  assert (prec = 53) by reflexivity.
  apply binary_round_aux_finite; simpl; lia.
Qed.

Lemma SFmul_number x c :
  sf_number x = true ->
  match c with S754_finite _ _ _ => true | _ => false end = true ->
  sf_number (SFmul prec emax x c) = true.
Proof.
  intros Nx Hc.
  destruct x as [sx|sx| |sx mx ex]; try discriminate;
    destruct c as [sc|sc| |sc mc ec]; try discriminate; try reflexivity.
  simpl. apply binary_round_aux_number. lia.
Qed.

Lemma binary_normalize_number m e szero :
  sf_number (binary_normalize prec emax m e szero) = true.
Proof.
  unfold binary_normalize, binary_round.
  destruct m as [|p|p]; [reflexivity| |];
    destruct (shl_align _ _ _) as [mz ez]; apply binary_round_aux_number; lia.
Qed.

Lemma SFadd_number a b :
  sf_number a = true -> sf_finite b = true -> sf_number (SFadd prec emax a b) = true.
Proof.
  intros Na Fb.
  destruct a as [sa|sa| |sa ma ea]; try discriminate;
    destruct b as [sb| | |sb mb eb]; try discriminate; try reflexivity;
    try (destruct sa, sb; reflexivity).
  simpl. apply binary_normalize_number.
Qed.

Lemma div_digits m' m2 k2 K :
  0 <= m' < 2 ^ K -> 2 ^ k2 <= m2 -> 0 <= k2 -> 0 <= K ->
  0 <= m' / m2 /\ Zdigits2 (m' / m2) <= Z.max 0 (K - k2).
Proof.
  intros [H0 H1] H2 Hk2 HK.
  assert (0 < 2 ^ k2) as P by (apply Z.pow_pos_nonneg; lia).
  assert (0 < m2) as Pm by lia.
  assert (0 <= m' / m2) as Q0 by (apply Z.div_pos; lia).
  pose proof (Z.mul_div_le m' m2 Pm) as L.
  split; [exact Q0|].
  destruct (Z.le_gt_cases k2 K) as [C|C].
  - assert (2 ^ K = 2 ^ (K - k2) * 2 ^ k2) as E.
    { rewrite <- Z.pow_add_r by lia. f_equal. lia. }
    apply Z.le_trans with (K - k2); [|lia].
    apply Zdigits2_bound; [|lia]. split; [exact Q0|]. nia.
  - assert (2 ^ K < 2 ^ k2) as E by (apply Z.pow_lt_mono_r; lia).
    assert (m' / m2 = 0) as -> by nia. simpl. lia.
Qed.

Lemma SFdiv_big x c :
  valid_binary x = true -> sf_finite x = true ->
  match c with
  | S754_finite _ m e => 3 <=? Zpos (digits2_pos m) + e
  | _ => false
  end = true ->
  sf_finite (SFdiv prec emax x c) = true.
Proof.
  intros V Fx Hc.
  destruct x as [sx| | |sx mx ex]; try discriminate;
    destruct c as [sc| | |sc mc ec]; try discriminate; try reflexivity.
  apply Z.leb_le in Hc.
  destruct (valid_finite_bounds _ _ _ V) as [B1 B2].
  unfold SFdiv, SFdiv_core_binary.
  set (d1 := Zdigits2 (Zpos mx)). set (d2 := Zdigits2 (Zpos mc)).
  set (e' := Z.min (fexp prec emax (d1 + ex - (d2 + ec))) (ex - ec)).
  set (s := ex - ec - e').
  set (m' := match s with Zpos _ => Z.shiftl (Zpos mx) s | Z0 => Zpos mx | Zneg _ => 0 end).
  assert (0 <= s) as Hs by (unfold s, e'; lia).
  assert (m' = Zpos mx * 2 ^ s) as Em.
  { unfold m'. destruct s as [|p|p] eqn:Es; [simpl; lia| |lia].
    rewrite Z.shiftl_mul_pow2 by lia. reflexivity. }
  pose proof (Zdigits2_gt (Zpos mx) ltac:(lia)) as G1. fold d1 in G1.
  pose proof (Zdigits2_le mc) as G2. change (Zpos (digits2_pos mc)) with d2 in G2.
  assert (0 < d1) as P1 by (unfold d1; simpl; lia).
  assert (0 < d2) as P2 by (unfold d2; simpl; lia).
  assert (0 <= m' < 2 ^ (d1 + s)) as Hm'.
  { rewrite Em, Z.pow_add_r by lia.
    assert (0 < 2 ^ s) by (apply Z.pow_pos_nonneg; lia). nia. }
  destruct (div_digits m' (Zpos mc) (d2 - 1) (d1 + s) Hm' G2 ltac:(lia) ltac:(lia))
    as [Q0 QD].
  pose proof (Z_div_mod_full m' (Zpos mc) ltac:(lia)) as DM.
  unfold Z.div in Q0, QD.
  destruct (Z.div_eucl m' (Zpos mc)) as [q r].
  change (Zpos (digits2_pos mx)) with d1 in B1.
  change (Zpos (digits2_pos mc)) with d2 in Hc.
  assert (prec = 53) by reflexivity. assert (emax = 1024) by reflexivity.
  assert (e' <= emax - prec - 1) as He'.
  { unfold e', fexp, SpecFloat.emin. lia. }
  apply binary_round_aux_finite; [exact Q0| |exact He'].
  unfold s in QD. lia.
Qed.

(** *** The same on primitive floats *)

Lemma is_nan_SF x : is_nan x = negb (sf_number (Prim2SF x)).
Proof.
  destruct (is_nan x) eqn:E.
  - apply FloatFacts.is_nan_rk in E. unfold FloatOrder.rk in E.
    destruct (Prim2SF x) as [[]|[]| |[] m e]; simpl in E; try discriminate; reflexivity.
  - apply FloatFacts.not_nan_rk in E. destruct E as [a E]. unfold FloatOrder.rk in E.
    destruct (Prim2SF x) as [[]|[]| |[] m e]; simpl in E; try discriminate; reflexivity.
Qed.

Lemma is_finite_SF x : is_finite x = sf_finite (Prim2SF x).
Proof.
  unfold is_finite, is_infinity. rewrite is_nan_SF, FloatAxioms.eqb_spec, abs_spec.
  change (Prim2SF infinity) with (S754_infinity false).
  destruct (Prim2SF x) as [[]|[]| |[] m e]; reflexivity.
Qed.

Lemma finite_not_nan x : is_finite x = true -> is_nan x = false.
Proof.
  rewrite is_finite_SF, is_nan_SF. destruct (Prim2SF x); simpl; congruence.
Qed.

Lemma mul_small_finite x c :
  is_finite x = true -> small c = true -> is_finite (x * c)%float = true.
Proof.
  rewrite !is_finite_SF, mul_spec. unfold small. intros Fx Hc.
  apply SFmul_small; [apply Prim2SF_valid|exact Fx|exact Hc].
Qed.

Lemma mul_const_number x c :
  is_nan x = false -> nonzero_finite c = true -> is_nan (x * c)%float = false.
Proof.
  rewrite !is_nan_SF, mul_spec. unfold nonzero_finite. intros Nx Hc.
  apply negb_false_iff in Nx. apply negb_false_iff.
  apply SFmul_number; assumption.
Qed.

Lemma add_number a b :
  is_nan a = false -> is_finite b = true -> is_nan (a + b)%float = false.
Proof.
  rewrite !is_nan_SF, is_finite_SF, add_spec. intros Na Fb.
  apply negb_false_iff in Na. apply negb_false_iff.
  apply SFadd_number; assumption.
Qed.

Lemma div_big_finite x c :
  is_finite x = true -> big c = true -> is_finite (x / c)%float = true.
Proof.
  rewrite !is_finite_SF, div_spec. unfold big. intros Fx Hc.
  apply SFdiv_big; [apply Prim2SF_valid|exact Fx|exact Hc].
Qed.

Lemma Math_min_finite a b :
  is_finite a = true -> is_finite b = true -> is_finite (JS.Math_min a b) = true.
Proof.
  intros Fa Fb.
  destruct (FloatFacts.Math_min_cases a b) as [[_ [N|N]]|(_ & _ & _ & _ & [E|E])];
    try (rewrite E; assumption).
  - rewrite (finite_not_nan a Fa) in N. discriminate.
  - rewrite (finite_not_nan b Fb) in N. discriminate.
Qed.

End FloatFinite.

(** ** Ranges of the scores *)

Lemma prop_In {A : Type} (o : list (string * A)) k a : prop o k = Some a -> In (k, a) o.
Proof.
  induction o as [|[k' a'] o IH]; simpl; [discriminate|].
  destruct (String.eqb k' k) eqn:E.
  - apply String.eqb_eq in E. intros [= ->]. left. congruence.
  - auto.
Qed.

Lemma probabilities_range signals k p :
  In (k, p) (Spec.probabilities signals) ->
  is_nan p = true \/ Spec.in_unit_interval p.
Proof.
  unfold Spec.probabilities. simpl.
  intros H; repeat (destruct H as [[= <- <-]|H]; [apply FloatFacts.clamp_range|]);
    contradiction.
Qed.

Lemma multiplier_nonzero_finite segment : nonzero_finite (Spec.multiplier segment) = true.
Proof.
  unfold Spec.multiplier.
  repeat match goal with
  | |- context [if ?b then _ else _] => destruct b
  end; reflexivity.
Qed.

Section FiniteSignals.
Import FloatFacts FloatFinite.

Variable signals : Signals.
Hypothesis V : valid signals.
Hypothesis F : finite_signals signals.

Lemma finite_numberAt k :
  In k requiredSignals -> isFlag k = false ->
  is_finite (Spec.numberAt signals k) = true.
Proof.
  intros Hk Fk. destruct (valid_number signals k V Hk Fk) as [E _].
  exact (F k _ Hk Fk E).
Qed.

Lemma small_mul_finite c x :
  small c = true -> is_finite x = true -> is_finite (c * x)%float = true.
Proof. intros Hc Fx. rewrite mul_comm. apply mul_small_finite; assumption. Qed.

Lemma truthy01_finite k : is_finite (Spec.truthy01 signals k) = true.
Proof. unfold Spec.truthy01. destruct (flag signals k); reflexivity. Qed.

(** A weighted term of a score is finite. *)
Ltac finite :=
  repeat first
    [ apply small_mul_finite; [reflexivity|]
    | apply Math_min_finite; [|reflexivity]
    | apply div_big_finite; [|reflexivity]
    | apply truthy01_finite
    | apply finite_numberAt; [in_list|reflexivity] ].

(** A sum of weighted terms is not NaN. *)
Ltac number :=
  repeat (apply add_number; [|finite]);
  apply finite_not_nan; finite.

Lemma probabilities_unit k p :
  In (k, p) (Spec.probabilities signals) -> Spec.in_unit_interval p.
Proof.
  unfold Spec.probabilities. simpl.
  intros H; repeat (destruct H as [[= <- <-]|H]; [apply clamp_unit|]); try contradiction.
  - unfold Spec.italian_heritage_advocate. number.
  - unfold Spec.luxury_project_planner. number.
  - unfold Spec.international_minimalist. number.
  - unfold Spec.hospitality_professional. number.
Qed.

Lemma consultation_readiness_unit segment :
  Spec.in_unit_interval (Spec.consultation_readiness signals segment).
Proof.
  unfold Spec.consultation_readiness. apply clamp_unit.
  apply mul_const_number; [|apply multiplier_nonzero_finite]. number.
Qed.

End FiniteSignals.

(** ** Primary-segment selection *)

Import FloatOrder FloatFacts Selection Whole.

Lemma chosen_gt_ge cs i k p :
  chosen cs i k p ->
  exists t, cs !! i = Some (k, p, t) /\ ge p t = true /\
    forall j c, cs !! j = Some c -> Spec.eligible c ->
      ((j < i)%nat -> gt p (snd (fst c)) = true) /\
      ((i < j)%nat -> ge p (snd (fst c)) = true).
Proof.
  intros (t & Hi & El & Best). exists t. split; [exact Hi|]. split; [exact El|].
  intros j c Hj Hc. destruct (Best j c Hj Hc) as [B1 B2].
  split; intros Hlt; [apply ltb_flt|apply leb_fle]; auto.
Qed.

(** C1.  On a validated signal vector the scores are computed and
    [selectPrimarySegment] returns a segment [r] for them.  The candidates
    are the four segments in catalog order with the thresholds 0.75, 0.85,
    0.7 and 0.8; a candidate is eligible when its probability is [>=] its
    own threshold.  If no candidate is eligible, [r] is
    international_minimalist with the probability it scored.  Otherwise
    [r] is an eligible candidate whose probability is strictly greater
    than that of every eligible candidate declared before it and at least
    that of every eligible candidate declared after it.  A returned
    classification carries [r] as its primary segment. *)
Theorem C1_primary_segment_selection (signals : Signals) :
  valid signals ->
  exists probs r conf,
    calculateSegmentProbabilities signals = Normal probs /\
    selectPrimarySegment informationService probs = Normal r /\
    prop probs r = Some conf /\
    map (fun c => (fst (fst c), snd c)) (Spec.candidates probs)
    = map (fun s => (fst s, Config.confidence (Config.thresholds (snd s))))
        (Config.customerSegments (mohdConfig informationService)) /\
    map (fun c => (fst (fst c), snd c)) (Spec.candidates probs)
    = [ ("italian_heritage_advocate"%string, 0.75%float);
        ("luxury_project_planner"%string, 0.85%float);
        ("international_minimalist"%string, 0.7%float);
        ("hospitality_professional"%string, 0.8%float) ] /\
    Spec.selection (Spec.candidates probs) r conf /\
    (forall w c,
       outcome (validateSegmentClassification informationService signals) w = Normal c ->
       primary_segment c = r /\ confidence_score c = conf /\
       segment_probabilities c = probs).
Proof.
  intros V. exists (Spec.probabilities signals), (selected signals).
  destruct (selected_cases signals) as [(None & Er & Hp)|(i & p & Hc & Hp & Nn)].
  - exists (Spec.international_minimalist signals).
    split; [apply calculateSegmentProbabilities_valid, V|].
    split; [apply selectPrimarySegment_pick|].
    split; [exact Hp|]. do 2 (split; [reflexivity|]).
    split.
    { split; [intros _; exact Er|].
      intros (c & Hc & El). exfalso. exact (None c Hc El). }
    intros w c H. destruct (returned_inv _ _ _ V H) as (conf & Hconf & _ & ->).
    simpl. rewrite Hp in Hconf. injection Hconf as <-. auto.
  - exists p.
    split; [apply calculateSegmentProbabilities_valid, V|].
    split; [apply selectPrimarySegment_pick|].
    split; [exact Hp|]. do 2 (split; [reflexivity|]).
    destruct (chosen_gt_ge _ _ _ _ Hc) as (t & Hi & G & Best).
    split.
    { split; [|intros _; exists i, t; auto].
      intros None. exfalso. apply (None (selected signals, p, t)); [|exact G].
      apply list_elem_of_In, list_elem_of_lookup. eauto. }
    intros w c H. destruct (returned_inv _ _ _ V H) as (conf & Hconf & _ & ->).
    simpl. rewrite Hp in Hconf. injection Hconf as <-. auto.
Qed.

Lemma valid_tie : valid Samples.tie.
Proof. vm_compute. reflexivity. Qed.

(** An exact tie between the first and the last segment, both at 1: the
    first-declared one is returned. *)
Lemma C1_primary_segment_selection_witness :
  valid Samples.tie /\
  exists probs r conf,
    calculateSegmentProbabilities Samples.tie = Normal probs /\
    selectPrimarySegment informationService probs = Normal r /\
    prop probs r = Some conf /\
    map (fun c => (fst (fst c), snd c)) (Spec.candidates probs)
    = map (fun s => (fst s, Config.confidence (Config.thresholds (snd s))))
        (Config.customerSegments (mohdConfig informationService)) /\
    map (fun c => (fst (fst c), snd c)) (Spec.candidates probs)
    = [ ("italian_heritage_advocate"%string, 0.75%float);
        ("luxury_project_planner"%string, 0.85%float);
        ("international_minimalist"%string, 0.7%float);
        ("hospitality_professional"%string, 0.8%float) ] /\
    Spec.selection (Spec.candidates probs) r conf /\
    (forall w c,
       outcome (validateSegmentClassification informationService Samples.tie) w = Normal c ->
       primary_segment c = r /\ confidence_score c = conf /\
       segment_probabilities c = probs).
Proof.
  split; [vm_compute; reflexivity|].
  apply (C1_primary_segment_selection Samples.tie). vm_compute. reflexivity.
Defined.

(** ** Rejected inputs *)

Lemma isMissing_iff signals k :
  isMissing signals k = true <-> get signals k = VUndefined \/ get signals k = VNull.
Proof.
  unfold isMissing. destruct (get signals k); split; intros H;
    try reflexivity; try discriminate; auto; destruct H; discriminate.
Qed.

Lemma requiredSignals_NoDup : NoDup requiredSignals.
Proof. apply (bool_decide_unpack _). vm_compute. reflexivity. Qed.

Lemma validate_missing signals :
  List.filter (isMissing signals) requiredSignals <> [] ->
  validate signals
  = Throw ("Missing required signals: "
           +:+ String.concat ", " (List.filter (isMissing signals) requiredSignals)).
Proof.
  intros H. unfold validate.
  destruct (List.filter (isMissing signals) requiredSignals); [contradiction|reflexivity].
Qed.

(** A failed validation is the outcome of the whole call, and the call
    then only reads the clock once and writes the error line. *)
Lemma validateSegmentClassification_invalid this signals w msg :
  validate signals = Throw msg ->
  validateSegmentClassification this signals w
  = (Throw msg,
     {| perf := perf w; calls := S (calls w);
        console := console w ++
          [ {| level := ERROR;
               message := "Enterprise segment classification failed";
               data := [ ("error"%string, LText msg);
                         ("signals"%string, LCount (size signals)) ] |} ] |}).
Proof.
  intros H.
  unfold validateSegmentClassification, classify, bind, try_catch, performance_now, lift,
    log, throw.
  rewrite H. reflexivity.
Qed.

(** C3.  If a required signal is missing ([undefined] or [null]) the
    validation step throws, and so does the classification, with the message
    "Missing required signals: " followed by the missing keys joined by ", ":
    the keys listed are exactly the required keys that are missing, each
    once.  The call ends there: it has read the clock once and written only
    the error line, and no result is built. *)
Theorem C3_missing_signals_rejected (signals : Signals) (w : World) :
  (exists k, In k requiredSignals /\ isMissing signals k = true) ->
  let missing := List.filter (isMissing signals) requiredSignals in
  let msg := "Missing required signals: " +:+ String.concat ", " missing in
  validate signals = Throw msg /\
  validateSegmentClassification informationService signals w
  = (Throw msg,
     {| perf := perf w; calls := S (calls w);
        console := console w ++
          [ {| level := ERROR;
               message := "Enterprise segment classification failed";
               data := [ ("error"%string, LText msg);
                         ("signals"%string, LCount (size signals)) ] |} ] |}) /\
  (forall k, In k missing <->
     In k requiredSignals /\ (get signals k = VUndefined \/ get signals k = VNull)) /\
  NoDup missing.
Proof.
  intros (k & Hk & Mk) missing msg.
  assert (validate signals = Throw msg) as Hv.
  { apply validate_missing. intros E.
    assert (In k (List.filter (isMissing signals) requiredSignals)) as Hin
      by (apply filter_In; auto).
    rewrite E in Hin. exact Hin. }
  split; [exact Hv|]. split; [apply validateSegmentClassification_invalid, Hv|].
  split.
  - intros k'. unfold missing. rewrite filter_In, isMissing_iff. reflexivity.
  - apply NoDup_ListNoDup, List.NoDup_filter, NoDup_ListNoDup, requiredSignals_NoDup.
Qed.

Lemma C3_missing_signals_rejected_witness :
  outcome (validateSegmentClassification informationService Samples.twoMissing) Samples.world
  = Throw "Missing required signals: designer_story_engagement, page_depth".
Proof.
  assert (exists k, In k requiredSignals /\ isMissing Samples.twoMissing k = true) as H.
  { exists "page_depth"%string. split; [in_list|vm_compute; reflexivity]. }
  destruct (C3_missing_signals_rejected Samples.twoMissing Samples.world H) as (_ & E & _).
  unfold outcome. rewrite E. vm_compute. reflexivity.
Defined.

Lemma valid_infiniteTime : valid Samples.infiniteTime.
Proof. vm_compute. reflexivity. Qed.

(** C4, as stated, fails: with heritage_content_time = +Infinity and every
    other signal 0, all sixteen signals are present and one numeric signal
    is not finite, yet the classification returns a result. *)
Lemma C4_counterexample :
  (forall k, In k requiredSignals -> isMissing Samples.infiniteTime k = false) /\
  (exists k, In k requiredSignals /\ isFlag k = false /\
             finiteNumber (get Samples.infiniteTime k) = false) /\
  exists c,
    outcome (validateSegmentClassification informationService Samples.infiniteTime)
      Samples.world = Normal c.
Proof.
  split; [|split].
  - intros k Hk. apply wellTyped_not_missing.
    apply valid_iff; [apply valid_infiniteTime|exact Hk].
  - exists "heritage_content_time"%string. split; [in_list|]. split; reflexivity.
  - eexists. vm_compute. reflexivity.
Qed.

(** C4, amended.  With all sixteen signals present, if some non-flag signal
    is not of type number or is NaN, the validation step throws the message
    of the type check of one of the required signals, and the classification
    fails with that message; a classification that returns had every
    non-flag signal a number other than NaN.  (The infinities are numbers
    other than NaN.) *)
Theorem C4_non_numbers_rejected (signals : Signals) (w : World) :
  (forall k, In k requiredSignals -> isMissing signals k = false) ->
  ((exists k, In k requiredSignals /\ isFlag k = false /\ isNumber (get signals k) = false) ->
   exists msg k',
     In k' requiredSignals /\ checkSignal signals k' = Throw msg /\
     validate signals = Throw msg /\
     outcome (validateSegmentClassification informationService signals) w = Throw msg) /\
  (forall c,
     outcome (validateSegmentClassification informationService signals) w = Normal c ->
     forall k, In k requiredSignals -> isFlag k = false -> isNumber (get signals k) = true) /\
  isNumber (VNum infinity) = true /\ isNumber (VNum neg_infinity) = true.
Proof.
  intros Present. split; [|split; [|split; reflexivity]].
  - intros (k & Hk & F & Bad).
    assert (List.filter (isMissing signals) requiredSignals = []) as Hnil
      by (apply filter_nil_iff, Present).
    destruct (validate signals) as [[]|msg|] eqn:Hv.
    + exfalso. pose proof (proj1 (valid_iff signals) Hv k Hk) as W.
      unfold wellTyped in W. rewrite F in W. congruence.
    + pose proof Hv as Hf. unfold validate in Hf. rewrite Hnil in Hf.
      apply (for_of_Throw requiredSignals (checkSignal signals)) in Hf.
      destruct Hf as (k' & Hk' & Ek'). exists msg, k'. repeat split; auto.
      unfold outcome. rewrite (validateSegmentClassification_invalid _ _ _ msg Hv).
      reflexivity.
    + exfalso. exact (validate_not_Stuck signals Hv).
  - intros c H k Hk F. pose proof (returned_valid _ _ _ H) as V.
    pose proof (proj1 (valid_iff signals) V k Hk) as W.
    unfold wellTyped in W. rewrite F in W. exact W.
Qed.

Lemma C4_non_numbers_rejected_witness :
  exists msg,
    outcome (validateSegmentClassification informationService Samples.textSignal)
      Samples.world = Throw msg.
Proof.
  assert (forall k, In k requiredSignals -> isMissing Samples.textSignal k = false) as P.
  { intros k Hk. simpl in Hk.
    repeat (destruct Hk as [<-|Hk]; [vm_compute; reflexivity|]). contradiction. }
  destruct (C4_non_numbers_rejected Samples.textSignal Samples.world P) as (H & _).
  destruct H as (msg & k' & _ & _ & _ & E).
  - exists "designer_story_engagement"%string.
    split; [in_list|]. split; vm_compute; reflexivity.
  - exists msg. exact E.
Defined.

(** ** The returned result *)

Lemma valid_heritage : valid Samples.heritage.
Proof. vm_compute. reflexivity. Qed.

(** C5.  The confidence score of a returned classification is the value
    stored under its primary segment in its probability mapping. *)
Theorem C5_confidence_is_primary_probability (signals : Signals) (w : World)
    (c : Classification) :
  valid signals ->
  outcome (validateSegmentClassification informationService signals) w = Normal c ->
  prop (segment_probabilities c) (primary_segment c) = Some (confidence_score c).
Proof.
  intros V H. destruct (returned_inv _ _ _ V H) as (conf & Hconf & _ & ->). exact Hconf.
Qed.

Lemma C5_confidence_is_primary_probability_witness :
  prop [ ("italian_heritage_advocate"%string, 1%float);
         ("luxury_project_planner"%string, 0%float);
         ("international_minimalist"%string, 0%float);
         ("hospitality_professional"%string, 0%float) ] "italian_heritage_advocate"
  = Some 1%float.
Proof.
  exact (C5_confidence_is_primary_probability Samples.heritage Samples.world
           {| primary_segment := "italian_heritage_advocate";
              confidence_score := 1;
              segment_probabilities :=
                [ ("italian_heritage_advocate"%string, 1%float);
                  ("luxury_project_planner"%string, 0%float);
                  ("international_minimalist"%string, 0%float);
                  ("hospitality_professional"%string, 0%float) ];
              classification_factors :=
                [ "High designer story engagement"%string;
                  "Strong craftsmanship interest"%string;
                  "Extended heritage content consumption"%string ];
              recommended_content_angle := "italian_heritage";
              consultation_readiness_score := 0 |}
           valid_heritage eq_refl).
Defined.

(** ** Classification factors *)

Lemma checks_shape segment chk s :
  In (chk, s) (Spec.checks segment) ->
  chk = Spec.Truthy "multi_room_navigation" \/
  chk = Spec.Above "heritage_content_time" 90 \/
  exists k, chk = Spec.Above k 0.6.
Proof.
  unfold Spec.checks.
  repeat match goal with
  | |- context [if ?b then _ else _] => destruct b
  end; simpl; intros H;
    repeat (destruct H as [[= <- <-]|H]; [eauto|]); contradiction.
Qed.

Lemma checks_length segment : (length (Spec.checks segment) <= 3)%nat.
Proof.
  unfold Spec.checks.
  repeat match goal with
  | |- context [if ?b then _ else _] => destruct b
  end; simpl; lia.
Qed.

(** C7.  The factors of a returned classification are those of its primary
    segment's fixed list of checks: the strings of the checks that hold, in
    the order of the list.  There are at most three; every check compares a
    signal with 0.6, except heritage_content_time (with 90) and the
    multi_room_navigation flag (tested for truthiness); and when no check
    holds the list is empty. *)
Theorem C7_classification_factors (signals : Signals) (w : World) (c : Classification) :
  valid signals ->
  outcome (validateSegmentClassification informationService signals) w = Normal c ->
  let checks := Spec.checks (primary_segment c) in
  classification_factors c
  = map snd (List.filter (fun chk => Spec.holds signals (fst chk)) checks) /\
  (length checks <= 3)%nat /\
  (forall chk s, In (chk, s) checks ->
     chk = Spec.Truthy "multi_room_navigation" \/
     chk = Spec.Above "heritage_content_time" 90 \/
     exists k, chk = Spec.Above k 0.6) /\
  ((forall chk, In chk checks -> Spec.holds signals (fst chk) = false) ->
   classification_factors c = []).
Proof.
  intros V H checks. destruct (returned_inv _ _ _ V H) as (conf & _ & _ & ->).
  simpl. split; [reflexivity|]. split; [apply checks_length|].
  split; [apply checks_shape|].
  intros None. unfold Spec.factors.
  rewrite (proj2 (filter_nil_iff _ _)); [reflexivity|]. exact None.
Qed.

Lemma valid_allZero : valid Samples.allZero.
Proof. vm_compute. reflexivity. Qed.

(** With every signal at 0 no check holds, and the factor list is empty. *)
Lemma C7_classification_factors_witness :
  exists c,
    outcome (validateSegmentClassification informationService Samples.allZero) Samples.world
    = Normal c /\
    classification_factors c = [].
Proof.
  eexists. split; [vm_compute; reflexivity|].
  refine (proj2 (proj2 (proj2
    (C7_classification_factors Samples.allZero Samples.world _ valid_allZero eq_refl))) _).
  intros chk Hc. simpl in Hc.
  repeat (destruct Hc as [<-|Hc]; [vm_compute; reflexivity|]). contradiction.
Defined.

Lemma checks_functional segment c1 c2 s :
  In (c1, s) (Spec.checks segment) -> In (c2, s) (Spec.checks segment) -> c1 = c2.
Proof.
  unfold Spec.checks.
  repeat match goal with
  | |- context [if ?b then _ else _] => destruct b
  end; simpl; intros H1 H2;
    repeat match goal with
    | H : _ \/ _ |- _ => destruct H
    | H : False |- _ => contradiction
    end; congruence.
Qed.

(** C10.  The comparisons are strict: in a returned classification, a check
    [signal > t] of the primary segment whose signal equals [t] contributes
    no factor string. *)
Theorem C10_factor_comparisons_strict (signals : Signals) (w : World) (c : Classification)
    (k : string) (t x : float) (s : string) :
  valid signals ->
  outcome (validateSegmentClassification informationService signals) w = Normal c ->
  In (Spec.Above k t, s) (Spec.checks (primary_segment c)) ->
  get signals k = VNum x ->
  (x =? t)%float = true ->
  ~ In s (classification_factors c).
Proof.
  intros V H Hin Hx Heq. destruct (returned_inv _ _ _ V H) as (conf & _ & _ & ->).
  simpl in *. unfold Spec.factors. intros Hs.
  apply in_map_iff in Hs. destruct Hs as ([chk s'] & Es & Hf). simpl in Es. subst s'.
  apply filter_In in Hf. destruct Hf as [Hc Hh]. simpl in Hh.
  pose proof (checks_functional _ _ _ _ Hin Hc) as <-.
  simpl in Hh. unfold Spec.numberAt in Hh. rewrite Hx in Hh.
  apply ltb_flt in Hh. apply eqb_fle in Heq. destruct Heq as [Hle _].
  exact (flt_not_fle _ _ Hh Hle).
Qed.

Lemma valid_onThreshold : valid Samples.onThreshold.
Proof. vm_compute. reflexivity. Qed.

(** A heritage advocate with designer_story_engagement = 0.6 exactly: the
    engagement factor is absent. *)
Lemma C10_factor_comparisons_strict_witness :
  exists c,
    outcome (validateSegmentClassification informationService Samples.onThreshold)
      Samples.world = Normal c /\
    primary_segment c = "italian_heritage_advocate"%string /\
    ~ In "High designer story engagement"%string (classification_factors c).
Proof.
  eexists. split; [vm_compute; reflexivity|]. split; [reflexivity|].
  apply (C10_factor_comparisons_strict Samples.onThreshold Samples.world _
           "designer_story_engagement" 0.6 0.6 "High designer story engagement"
           valid_onThreshold eq_refl).
  - left. reflexivity.
  - vm_compute. reflexivity.
  - reflexivity.
Defined.

(** The same at heritage_content_time = 90 exactly. *)
Example heritage_content_time_on_threshold :
  let signals := <["heritage_content_time" := VNum 90%float]> Samples.heritage in
  exists c,
    outcome (validateSegmentClassification informationService signals) Samples.world
    = Normal c /\
    primary_segment c = "italian_heritage_advocate"%string /\
    classification_factors c
    = [ "High designer story engagement"%string; "Strong craftsmanship interest"%string ].
Proof. eexists. vm_compute. repeat split. Qed.

(** ** Determinism *)

Lemma stable_lift {A : Type} (c : completion A) : stable (lift c).
Proof. exists c. reflexivity. Qed.

Lemma stable_ret {A : Type} (a : A) : stable (ret a).
Proof. exists (Normal a). reflexivity. Qed.

Lemma stable_throw {A : Type} msg : stable (throw (A:=A) msg).
Proof. exists (Throw msg). reflexivity. Qed.

Lemma stable_bind {A B : Type} (m : M A) (f : A -> M B) :
  stable m -> (forall a, stable (f a)) -> stable (bind m f).
Proof.
  intros [r Hr] Hf. unfold stable, outcome, bind in *.
  destruct r as [a|message0|].
  - destruct (Hf a) as [r' Hr']. exists r'. intros w.
    specialize (Hr w). destruct (m w) as [[a'| |] w']; simpl in Hr; try discriminate.
    injection Hr as ->. apply Hr'.
  - exists (Throw message0). intros w.
    specialize (Hr w). destruct (m w) as [[a'| |] w']; simpl in Hr; try discriminate.
    injection Hr as ->. reflexivity.
  - exists Stuck. intros w.
    specialize (Hr w). destruct (m w) as [[a'| |] w']; simpl in Hr; try discriminate.
    reflexivity.
Qed.

Lemma stable_log l msg d : stable (log l msg d).
Proof. exists (Normal tt). reflexivity. Qed.

Lemma stable_try_catch {A : Type} (body : M A) (handler : string -> M A) :
  stable body -> (forall e, stable (handler e)) -> stable (try_catch body handler).
Proof.
  intros [r Hr] Hh. unfold stable, outcome, try_catch in *.
  destruct r as [a|e|].
  - exists (Normal a). intros w.
    specialize (Hr w). destruct (body w) as [[a'| |] w']; simpl in Hr; try discriminate.
    exact Hr.
  - destruct (Hh e) as [r' Hr']. exists r'. intros w.
    specialize (Hr w). destruct (body w) as [[a'|e'|] w']; simpl in Hr; try discriminate.
    injection Hr as ->. apply Hr'.
  - exists Stuck. intros w.
    specialize (Hr w). destruct (body w) as [[a'| |] w']; simpl in Hr; try discriminate.
    reflexivity.
Qed.

Lemma stable_identifyClassificationFactors signals segment :
  stable (identifyClassificationFactors signals segment).
Proof.
  unfold identifyClassificationFactors.
  match goal with
  | |- stable (match ?b with _ => _ end) => destruct b as [factors [[]|e|]]
  end.
  - apply stable_ret.
  - apply stable_bind; [apply stable_log|intros; apply stable_ret].
  - apply stable_lift.
Qed.

Lemma stable_calculateConsultationReadiness signals segment :
  stable (calculateConsultationReadiness signals segment).
Proof.
  unfold calculateConsultationReadiness.
  apply stable_try_catch; [apply stable_lift|].
  intros e. apply stable_bind; [apply stable_log|intros; apply stable_ret].
Qed.

Lemma stable_classify this signals : stable (classify this signals).
Proof.
  unfold classify.
  apply stable_bind; [apply stable_lift|intros _].
  apply stable_bind; [apply stable_lift|intros probabilities].
  apply stable_bind; [apply stable_lift|intros primarySegment].
  destruct (prop probabilities primarySegment) as [confidence|]; [|apply stable_throw].
  destruct (isNaN confidence); [apply stable_throw|].
  apply stable_bind; [apply stable_identifyClassificationFactors|intros factors].
  apply stable_bind; [apply stable_lift|intros angle].
  apply stable_bind; [apply stable_calculateConsultationReadiness|intros readiness].
  apply stable_ret.
Qed.

(** C8.  Two calls with the same signal vector end the same way, with the
    same result or the same error, whatever the clock reads and whatever
    the console holds: no input other than the vector (and the service's
    catalog) bears on the outcome. *)
Theorem C8_classification_deterministic (this : Service) (signals : Signals)
    (w1 w2 : World) :
  outcome (validateSegmentClassification this signals) w1
  = outcome (validateSegmentClassification this signals) w2.
Proof.
  rewrite !validateSegmentClassification_outcome.
  destruct (stable_classify this signals) as [r Hr]. rewrite !Hr. reflexivity.
Qed.

(** ** The scores *)

Lemma valid_infiniteHeritage : valid Samples.infiniteHeritage.
Proof. vm_compute. reflexivity. Qed.

Lemma nan_not_unit : ~ Spec.in_unit_interval nan.
Proof. intros [H _]. vm_compute in H. discriminate H. Qed.

(** C2, as stated, fails in its last part: +Infinity and -Infinity pass the
    type check, and with designer_story_engagement = +Infinity and
    craftsmanship_content_focus = -Infinity the classification returns a
    result whose heritage probability is NaN, which is not in [0,1]. *)
Lemma C2_counterexample :
  valid Samples.infiniteHeritage /\
  exists c p,
    outcome (validateSegmentClassification informationService Samples.infiniteHeritage)
      Samples.world = Normal c /\
    In ("italian_heritage_advocate"%string, p) (segment_probabilities c) /\
    is_nan p = true /\
    ~ Spec.in_unit_interval p.
Proof.
  split; [exact valid_infiniteHeritage|].
  eexists. exists nan. split; [vm_compute; reflexivity|].
  split; [left; reflexivity|]. split; [reflexivity|exact nan_not_unit].
Qed.

(** C2, amended.  On a validated signal vector the four probabilities are
    the specified weighted sums, clamped by [min(max(x, 0), 1)], listed in
    catalog order; each is in [0,1] or NaN, and each is in [0,1] when the
    non-flag signals are finite. *)
Theorem C2_segment_probabilities (signals : Signals) :
  valid signals ->
  calculateSegmentProbabilities signals
  = Normal [ ("italian_heritage_advocate"%string, Spec.italian_heritage_advocate signals);
             ("luxury_project_planner"%string, Spec.luxury_project_planner signals);
             ("international_minimalist"%string, Spec.international_minimalist signals);
             ("hospitality_professional"%string, Spec.hospitality_professional signals) ] /\
  (forall w c,
     outcome (validateSegmentClassification informationService signals) w = Normal c ->
     segment_probabilities c = Spec.probabilities signals) /\
  (forall k p, In (k, p) (Spec.probabilities signals) ->
     is_nan p = true \/ Spec.in_unit_interval p) /\
  (finite_signals signals ->
   forall k p, In (k, p) (Spec.probabilities signals) -> Spec.in_unit_interval p).
Proof.
  intros V. split; [apply (calculateSegmentProbabilities_valid signals V)|].
  split.
  { intros w c H. destruct (returned_inv _ _ _ V H) as (conf & _ & _ & ->). reflexivity. }
  split; [apply probabilities_range|].
  intros F k p. apply (probabilities_unit signals V F).
Qed.

Lemma finite_heritage : finite_signals Samples.heritage.
Proof.
  intros k x Hk _. simpl in Hk.
  repeat (destruct Hk as [<-|Hk]; [vm_compute; intros [= <-]; reflexivity|]).
  contradiction.
Qed.

Lemma C2_segment_probabilities_witness :
  Spec.in_unit_interval (Spec.italian_heritage_advocate Samples.heritage).
Proof.
  apply (proj2 (proj2 (proj2 (C2_segment_probabilities Samples.heritage valid_heritage)))
           finite_heritage "italian_heritage_advocate"%string).
  left. reflexivity.
Defined.

Lemma valid_infiniteSession : valid Samples.infiniteSession.
Proof. vm_compute. reflexivity. Qed.

Lemma valid_returning : valid Samples.returning.
Proof. vm_compute. reflexivity. Qed.

Lemma finite_returning : finite_signals Samples.returning.
Proof.
  intros k x Hk _. simpl in Hk.
  repeat (destruct Hk as [<-|Hk]; [vm_compute; intros [= <-]; reflexivity|]).
  contradiction.
Qed.

(** C6, as stated, fails in two places.  Its last part: with
    session_duration = -Infinity and product_interaction_quality =
    +Infinity, both of which pass the type check, the classification
    returns a result whose consultation readiness is NaN.  Its default
    multiplier: under a segment id that is an inherited property name, such
    as constructor, the multiplier is not 1.0, and on finite signals the
    score is NaN where the stated formula gives a number in [0,1]. *)
Lemma C6_counterexample :
  (valid Samples.infiniteSession /\
   exists c,
     outcome (validateSegmentClassification informationService Samples.infiniteSession)
       Samples.world = Normal c /\
     is_nan (consultation_readiness_score c) = true /\
     ~ Spec.in_unit_interval (consultation_readiness_score c)) /\
  (valid Samples.returning /\ finite_signals Samples.returning /\
   outcome (calculateConsultationReadiness Samples.returning "constructor") Samples.world
   = Normal nan /\
   Spec.multiplier "constructor" = 1%float /\
   Spec.in_unit_interval (Spec.consultation_readiness Samples.returning "constructor")).
Proof.
  split.
  - split; [exact valid_infiniteSession|].
    eexists. split; [vm_compute; reflexivity|].
    split; [reflexivity|exact nan_not_unit].
  - split; [exact valid_returning|]. split; [exact finite_returning|].
    split; [vm_compute; reflexivity|]. split; [reflexivity|].
    apply (consultation_readiness_unit _ valid_returning finite_returning).
Qed.

(** C6, amended.  On a validated signal vector, and for a segment id that
    is no inherited property name, the consultation readiness is the
    specified base score times the segment's multiplier (1.5, 1.3, 1.1,
    0.8, and 1 for any other such id), clamped by [min(max(x, 0), 1)];
    under an inherited name it is NaN.  A returned classification carries
    the score of its primary segment, which is never an inherited name.
    The calculation always returns, with a score in [0,1] or NaN, and in
    [0,1] when the non-flag signals are finite and the id is not
    inherited. *)
Theorem C6_consultation_readiness (signals : Signals) (segment : string) :
  valid signals ->
  (inherited segment = false ->
   forall w,
     calculateConsultationReadiness signals segment w
     = (Normal (Spec.consultation_readiness signals segment), w)) /\
  (inherited segment = true ->
   forall w, calculateConsultationReadiness signals segment w = (Normal nan, w)) /\
  (forall w c,
     outcome (validateSegmentClassification informationService signals) w = Normal c ->
     inherited (primary_segment c) = false /\
     consultation_readiness_score c
     = Spec.consultation_readiness signals (primary_segment c)) /\
  (forall w, exists r,
     calculateConsultationReadiness signals segment w = (Normal r, w) /\
     (is_nan r = true \/ Spec.in_unit_interval r)) /\
  (finite_signals signals -> inherited segment = false ->
   Spec.in_unit_interval (Spec.consultation_readiness signals segment)).
Proof.
  intros V.
  split; [intros Hi w; apply (calculateConsultationReadiness_valid signals V _ _ Hi)|].
  split; [intros Hi w; apply (calculateConsultationReadiness_inherited signals V _ _ Hi)|].
  split.
  { intros w c H. destruct (returned_inv _ _ _ V H) as (conf & _ & _ & ->).
    split; [apply selected_not_inherited|reflexivity]. }
  split.
  { intros w. destruct (inherited segment) eqn:Hi.
    - exists nan. rewrite (calculateConsultationReadiness_inherited signals V _ _ Hi).
      split; [reflexivity|left; reflexivity].
    - exists (Spec.consultation_readiness signals segment).
      rewrite (calculateConsultationReadiness_valid signals V _ _ Hi).
      split; [reflexivity|apply clamp_range]. }
  intros F _. apply (consultation_readiness_unit signals V F).
Qed.

Lemma C6_consultation_readiness_witness :
  calculateConsultationReadiness Samples.returning "luxury_project_planner" Samples.world
  = (Normal (Spec.consultation_readiness Samples.returning "luxury_project_planner"),
     Samples.world) /\
  Spec.in_unit_interval
    (Spec.consultation_readiness Samples.returning "luxury_project_planner").
Proof.
  pose proof (C6_consultation_readiness Samples.returning "luxury_project_planner"
                valid_returning) as T.
  exact (conj (proj1 T eq_refl Samples.world)
              (proj2 (proj2 (proj2 (proj2 T))) finite_returning eq_refl)).
Defined.

(** The readiness of the returning planner visitor: base score 0.6, times
    1.5. *)
Example scenario_returning :
  exists c,
    outcome (validateSegmentClassification informationService Samples.returning)
      Samples.world = Normal c /\
    primary_segment c = "luxury_project_planner"%string /\
    consultation_readiness_score c = 0.90000000000000013%float /\
    Spec.consultation_readiness Samples.returning "international_minimalist"
    = 0.48000000000000009%float.
Proof. eexists. vm_compute. repeat split. Qed.

(** ** The confidence guard *)

(** C9.  On a validated signal vector whose non-flag signals are finite the
    classification returns a result, with a confidence in [0,1]: the guard
    that throws "Classification confidence calculation failed" is not
    taken. *)
Theorem C9_confidence_guard_unreachable (signals : Signals) (w : World) :
  valid signals -> finite_signals signals ->
  exists c,
    outcome (validateSegmentClassification informationService signals) w = Normal c /\
    Spec.in_unit_interval (confidence_score c) /\
    isNaN (confidence_score c) = false.
Proof.
  intros V F. destruct (selected_prop signals) as [conf Hconf].
  pose proof (probabilities_unit signals V F _ _ (prop_In _ _ _ Hconf)) as U.
  pose proof (in_unit_not_nan _ U) as N.
  exists (assembled signals (selected signals) conf).
  rewrite (validateSegmentClassification_valid _ _ _ V Hconf), N. auto.
Qed.

Lemma C9_confidence_guard_unreachable_witness :
  exists c,
    outcome (validateSegmentClassification informationService Samples.heritage)
      Samples.world = Normal c /\
    Spec.in_unit_interval (confidence_score c) /\
    isNaN (confidence_score c) = false.
Proof.
  exact (C9_confidence_guard_unreachable Samples.heritage Samples.world
           valid_heritage finite_heritage).
Defined.

(** Without finiteness the guard can be taken: the fallback segment's own
    score is NaN here. *)
Example confidence_guard_taken :
  let signals :=
    <["clean_aesthetic_preference" := VNum infinity]>
      (<["integration_content_focus" := VNum neg_infinity]> Samples.allZero) in
  valid signals /\
  outcome (validateSegmentClassification informationService signals) Samples.world
  = Throw "Classification confidence calculation failed".
Proof. split; vm_compute; reflexivity. Qed.

(** ** The scenarios of the specification *)

Example scenario_heritage :
  outcome (validateSegmentClassification informationService Samples.heritage) Samples.world
  = Normal {| primary_segment := "italian_heritage_advocate";
              confidence_score := 1;
              segment_probabilities :=
                [ ("italian_heritage_advocate"%string, 1%float);
                  ("luxury_project_planner"%string, 0%float);
                  ("international_minimalist"%string, 0%float);
                  ("hospitality_professional"%string, 0%float) ];
              classification_factors :=
                [ "High designer story engagement"%string;
                  "Strong craftsmanship interest"%string;
                  "Extended heritage content consumption"%string ];
              recommended_content_angle := "italian_heritage";
              consultation_readiness_score := 0 |}.
Proof. vm_compute. reflexivity. Qed.

Example scenario_planner :
  exists c,
    outcome (validateSegmentClassification informationService Samples.planner) Samples.world
    = Normal c /\
    primary_segment c = "luxury_project_planner"%string /\
    confidence_score c = 1%float /\
    recommended_content_angle c = "project_completion"%string.
Proof. eexists. vm_compute. repeat split. Qed.

Example scenario_all_zero :
  exists c,
    outcome (validateSegmentClassification informationService Samples.allZero) Samples.world
    = Normal c /\
    primary_segment c = "international_minimalist"%string /\
    confidence_score c = 0%float.
Proof. eexists. vm_compute. repeat split. Qed.

(** Heritage and hospitality tie at 1: the first declared is returned. *)
Example tie_goes_to_first_declared :
  exists c,
    outcome (validateSegmentClassification informationService Samples.tie) Samples.world
    = Normal c /\
    prop (segment_probabilities c) "italian_heritage_advocate" = Some 1%float /\
    prop (segment_probabilities c) "hospitality_professional" = Some 1%float /\
    primary_segment c = "italian_heritage_advocate"%string.
Proof. eexists. vm_compute. repeat split. Qed.

(** * Further properties of the classifier *)

(** ** The result and the catalog *)

(** X1.  Whatever is returned is consistent with the catalog: the
    probability mapping has the catalog's segment ids as keys, in catalog
    order; the primary segment is the id of a catalog segment; the
    recommended content angle is the one the fixed mapping gives for the
    primary segment, it is the id of a catalog content angle, and it is
    contemporary_integration only for international_minimalist. *)
Theorem X1_result_matches_catalog (signals : Signals) (w : World) (c : Classification) :
  outcome (validateSegmentClassification informationService signals) w = Normal c ->
  map fst (segment_probabilities c)
  = map fst (Config.customerSegments (mohdConfig informationService)) /\
  (exists seg,
     prop (Config.customerSegments (mohdConfig informationService)) (primary_segment c)
     = Some seg /\ Config.id seg = primary_segment c) /\
  selectContentAngle (primary_segment c) = Normal (recommended_content_angle c) /\
  (exists angle,
     prop (Config.contentAngles (mohdConfig informationService))
       (recommended_content_angle c) = Some angle /\
     Config.angle_id angle = recommended_content_angle c) /\
  (recommended_content_angle c = "contemporary_integration"%string <->
   primary_segment c = "international_minimalist"%string).
Proof.
  intros H. pose proof (returned_valid _ _ _ H) as V.
  destruct (returned_inv _ _ _ V H) as (conf & _ & _ & ->). simpl.
  split; [reflexivity|].
  pose proof (selected_catalog signals) as Hs. simpl in Hs.
  destruct Hs as [<-|[<-|[<-|[<-|[]]]]]; (split; [eexists; split; reflexivity|]);
    (split; [reflexivity|]); (split; [eexists; split; reflexivity|]);
    split; intros E; try reflexivity; discriminate E.
Qed.

Lemma X1_result_matches_catalog_witness :
  let c := assembled Samples.heritage "italian_heritage_advocate" 1 in
  map fst (segment_probabilities c)
  = map fst (Config.customerSegments (mohdConfig informationService)) /\
  (exists seg,
     prop (Config.customerSegments (mohdConfig informationService)) (primary_segment c)
     = Some seg /\ Config.id seg = primary_segment c) /\
  selectContentAngle (primary_segment c) = Normal (recommended_content_angle c) /\
  (exists angle,
     prop (Config.contentAngles (mohdConfig informationService))
       (recommended_content_angle c) = Some angle /\
     Config.angle_id angle = recommended_content_angle c) /\
  (recommended_content_angle c = "contemporary_integration"%string <->
   primary_segment c = "international_minimalist"%string).
Proof.
  exact (X1_result_matches_catalog Samples.heritage Samples.world
           (assembled Samples.heritage "italian_heritage_advocate" 1) eq_refl).
Defined.

(** ** Confidence and thresholds *)

Lemma catalog_threshold k seg :
  prop (Config.customerSegments (mohdConfig informationService)) k = Some seg ->
  fle 0.7 (Config.confidence (Config.thresholds seg)).
Proof.
  simpl.
  repeat match goal with
  | |- context [if ?b then _ else _] => destruct b
  end; intros [= <-]; apply leb_fle; reflexivity.
Qed.

(** X2.  A returned primary segment other than the fallback has a
    confidence at or above its own catalog threshold; the fallback
    international_minimalist is returned below its threshold only when no
    segment reached its own.  So a confidence below 0.7, the lowest
    threshold, always comes with international_minimalist. *)
Theorem X2_confidence_meets_threshold (signals : Signals) (w : World) (c : Classification) :
  outcome (validateSegmentClassification informationService signals) w = Normal c ->
  ((exists seg,
      prop (Config.customerSegments (mohdConfig informationService)) (primary_segment c)
      = Some seg /\
      ge (confidence_score c) (Config.confidence (Config.thresholds seg)) = true)
   \/ (primary_segment c = "international_minimalist"%string /\
       forall cand, In cand (Spec.candidates (segment_probabilities c)) ->
         ~ Spec.eligible cand)) /\
  (gt 0.7 (confidence_score c) = true ->
   primary_segment c = "international_minimalist"%string).
Proof.
  intros H. pose proof (returned_valid _ _ _ H) as V.
  destruct (returned_inv _ _ _ V H) as (conf & Hconf & _ & ->). simpl.
  assert ((exists seg,
      prop (Config.customerSegments (mohdConfig informationService)) (selected signals)
      = Some seg /\
      ge conf (Config.confidence (Config.thresholds seg)) = true)
   \/ (selected signals = "international_minimalist"%string /\
       forall cand, In cand (Spec.candidates (Spec.probabilities signals)) ->
         ~ Spec.eligible cand)) as Hcase.
  { destruct (selected_cases signals) as [(None & Er & _)|(i & p & (t & Hi & El & _) & Hp & _)].
    - right. auto.
    - left. rewrite Hp in Hconf. injection Hconf as <-.
      unfold Spec.candidates, Spec.probabilities, Spec.thresholds in Hi. simpl in Hi.
      do 4 (destruct i as [|i];
            [injection Hi as E1 E2 E3; rewrite <- E1; subst t;
             eexists; split; [reflexivity|exact El]|]).
      discriminate Hi. }
  split; [exact Hcase|].
  intros Hlow. destruct Hcase as [(seg & Hseg & Hge)|[E _]]; [|exact E].
  exfalso. apply ltb_flt in Hlow. apply leb_fle in Hge.
  pose proof (catalog_threshold _ _ Hseg) as Ht.
  exact (flt_not_fle _ _ Hlow (fle_trans _ _ _ Ht Hge)).
Qed.

Lemma X2_confidence_meets_threshold_witness :
  let c := assembled Samples.allZero "international_minimalist" 0 in
  ((exists seg,
      prop (Config.customerSegments (mohdConfig informationService)) (primary_segment c)
      = Some seg /\
      ge (confidence_score c) (Config.confidence (Config.thresholds seg)) = true)
   \/ (primary_segment c = "international_minimalist"%string /\
       forall cand, In cand (Spec.candidates (segment_probabilities c)) ->
         ~ Spec.eligible cand)) /\
  (gt 0.7 (confidence_score c) = true ->
   primary_segment c = "international_minimalist"%string).
Proof.
  exact (X2_confidence_meets_threshold Samples.allZero Samples.world
           (assembled Samples.allZero "international_minimalist" 0) eq_refl).
Defined.

(** ** What a call leaves on the console *)

Lemma validate_cases signals :
  valid signals \/ exists msg, validate signals = Throw msg.
Proof.
  unfold valid. destruct (validate signals) as [[]|msg|] eqn:E; eauto.
  exfalso. exact (validate_not_Stuck signals E).
Qed.

(** X3.  Every call of the classification ends normally or by a throw, and
    writes exactly one line to the console: an INFO line after two readings
    of the clock when it returns, carrying the primary segment, the
    confidence and the elapsed time, or an ERROR line after one reading
    when it throws, carrying the message thrown. *)
Theorem X3_one_log_line_per_call (signals : Signals) (w : World) :
  exists entry,
    console (snd (validateSegmentClassification informationService signals w))
    = console w ++ [entry] /\
    match outcome (validateSegmentClassification informationService signals) w with
    | Normal c =>
        level entry = INFO /\
        calls (snd (validateSegmentClassification informationService signals w))
        = S (S (calls w)) /\
        data entry
        = [ ("primarySegment"%string, LText (primary_segment c));
            ("confidence"%string, LFixed 4 (confidence_score c));
            ("processingTime"%string,
               LMillis (perf w (S (calls w)) - perf w (calls w))%float);
            ("sessionSignals"%string, LCount (size signals));
            ("security"%string, LText "VALIDATED") ]
    | Throw msg =>
        level entry = ERROR /\
        calls (snd (validateSegmentClassification informationService signals w))
        = S (calls w) /\
        data entry = [ ("error"%string, LText msg);
                       ("signals"%string, LCount (size signals)) ]
    | Stuck => False
    end.
Proof.
  destruct (validate_cases signals) as [V|[msg Hmsg]].
  - destruct (selected_prop signals) as [conf Hconf].
    unfold outcome, validateSegmentClassification, bind, try_catch, performance_now.
    rewrite (classify_valid signals _ conf V Hconf).
    destruct (is_nan conf); simpl; eexists; split; try reflexivity; auto.
  - unfold outcome. rewrite (validateSegmentClassification_invalid _ _ _ msg Hmsg). simpl.
    eexists. split; [reflexivity|]. auto.
Qed.

(** ** The errors of a call *)

Lemma for_of_first_Throw {A : Type} (l : list A) (body : A -> completion unit) msg :
  for_of l body = Throw msg ->
  exists pre x post,
    l = pre ++ x :: post /\ (forall y, In y pre -> body y = Normal tt) /\ body x = Throw msg.
Proof.
  induction l as [|a l IH]; simpl; [discriminate|].
  destruct (body a) as [[]| |] eqn:E; simpl.
  - intros H. destruct (IH H) as (pre & x & post & -> & Hpre & Hx).
    exists (a :: pre), x, post. split; [reflexivity|]. split; [|exact Hx].
    intros y [<-|Hy]; auto.
  - intros [= <-]. exists [], a, l. split; [reflexivity|]. split; [intros y []|exact E].
  - discriminate.
Qed.

Lemma checkSignal_Throw signals k msg :
  checkSignal signals k = Throw msg ->
  wellTyped signals k = false /\
  msg = ("Signal '" +:+ k +:+ "' must be "
         +:+ (if isFlag k then "a boolean or number" else "a number")
         +:+ ", got " +:+ typeof (get signals k))%string.
Proof.
  unfold checkSignal, wellTyped.
  destruct (isFlag k), (get signals k) as [| |b|x|s|]; simpl;
    try discriminate; try (intros [= <-]; split; reflexivity).
  unfold isNaN. destruct (is_nan x); simpl; [|discriminate].
  intros [= <-]. split; reflexivity.
Qed.

(** X4.  When no required signal is missing but validation fails, the
    message names the first required signal, in declared order, that is
    ill-typed: every required signal before it is well typed, and the
    message is "Signal '<key>' must be a number, got <typeof>" (for a flag:
    "must be a boolean or number"). *)
Theorem X4_first_ill_typed_signal_named (signals : Signals) (msg : string) :
  List.filter (isMissing signals) requiredSignals = [] ->
  validate signals = Throw msg ->
  exists pre k post,
    requiredSignals = pre ++ k :: post /\
    (forall k', In k' pre -> wellTyped signals k' = true) /\
    wellTyped signals k = false /\
    msg = ("Signal '" +:+ k +:+ "' must be "
           +:+ (if isFlag k then "a boolean or number" else "a number")
           +:+ ", got " +:+ typeof (get signals k))%string.
Proof.
  intros Hnil Hv. unfold validate in Hv. rewrite Hnil in Hv.
  apply (for_of_first_Throw requiredSignals (checkSignal signals)) in Hv.
  destruct Hv as (pre & k & post & E & Hpre & Hk).
  exists pre, k, post. split; [exact E|]. split.
  - intros k' Hk'. apply checkSignal_Normal. auto.
  - apply checkSignal_Throw, Hk.
Qed.

Lemma X4_first_ill_typed_signal_named_witness :
  exists pre k post,
    requiredSignals = pre ++ k :: post /\
    (forall k', In k' pre -> wellTyped Samples.textSignal k' = true) /\
    wellTyped Samples.textSignal k = false /\
    "Signal 'designer_story_engagement' must be a number, got string"%string
    = ("Signal '" +:+ k +:+ "' must be "
       +:+ (if isFlag k then "a boolean or number" else "a number")
       +:+ ", got " +:+ typeof (get Samples.textSignal k))%string.
Proof.
  apply (X4_first_ill_typed_signal_named Samples.textSignal); vm_compute; reflexivity.
Defined.

(** X5.  A call throws only one of three kinds of error: the list of
    missing signals, the type error of a required signal, or, after a
    successful validation, the failed-confidence error, which needs that no
    segment reached its threshold and that the fallback's own score is NaN. *)
Theorem X5_errors_of_a_call (signals : Signals) (w : World) (msg : string) :
  outcome (validateSegmentClassification informationService signals) w = Throw msg ->
  (List.filter (isMissing signals) requiredSignals <> [] /\
   msg = ("Missing required signals: "
          +:+ String.concat ", " (List.filter (isMissing signals) requiredSignals))%string)
  \/ (exists k, In k requiredSignals /\ checkSignal signals k = Throw msg)
  \/ (valid signals /\
      msg = "Classification confidence calculation failed"%string /\
      selected signals = "international_minimalist"%string /\
      is_nan (Spec.international_minimalist signals) = true /\
      forall cand, In cand (Spec.candidates (Spec.probabilities signals)) ->
        ~ Spec.eligible cand).
Proof.
  intros H. destruct (validate_cases signals) as [V|[msg' Hmsg]].
  - right. right. split; [exact V|].
    destruct (selected_cases signals) as [(None & Er & Hp)|(i & p & _ & Hp & Nn)].
    + rewrite (validateSegmentClassification_valid _ _ _ V Hp) in H.
      destruct (is_nan (Spec.international_minimalist signals)) eqn:N; [|discriminate].
      injection H as <-. auto.
    + rewrite (validateSegmentClassification_valid _ _ _ V Hp), Nn in H. discriminate.
  - unfold outcome in H.
    rewrite (validateSegmentClassification_invalid _ _ _ msg' Hmsg) in H.
    injection H as ->.
    destruct (List.filter (isMissing signals) requiredSignals) as [|m ms] eqn:F.
    + right. left. unfold validate in Hmsg. rewrite F in Hmsg.
      apply (for_of_Throw requiredSignals (checkSignal signals)) in Hmsg. exact Hmsg.
    + left. split; [discriminate|].
      rewrite validate_missing in Hmsg by (rewrite F; discriminate).
      rewrite F in Hmsg. injection Hmsg as <-. reflexivity.
Qed.

Lemma X5_errors_of_a_call_witness :
  (List.filter (isMissing Samples.twoMissing) requiredSignals <> [] /\
   "Missing required signals: designer_story_engagement, page_depth"%string
   = ("Missing required signals: "
      +:+ String.concat ", "
            (List.filter (isMissing Samples.twoMissing) requiredSignals))%string)
  \/ (exists k, In k requiredSignals /\
        checkSignal Samples.twoMissing k
        = Throw "Missing required signals: designer_story_engagement, page_depth")
  \/ (valid Samples.twoMissing /\
      "Missing required signals: designer_story_engagement, page_depth"%string
      = "Classification confidence calculation failed"%string /\
      selected Samples.twoMissing = "international_minimalist"%string /\
      is_nan (Spec.international_minimalist Samples.twoMissing) = true /\
      forall cand, In cand (Spec.candidates (Spec.probabilities Samples.twoMissing)) ->
        ~ Spec.eligible cand).
Proof.
  apply (X5_errors_of_a_call Samples.twoMissing Samples.world). vm_compute. reflexivity.
Defined.

(** ** Selection over any catalog and any probability object *)

Lemma select_loop segs probs m s :
  fle 0 m ->
  match for_fold (selectStep segs) probs (m, s) with
  | Normal (m', s') =>
      (forall k p, In (k, p) probs -> is_Some (prop segs k)) /\
      fle 0 m' /\
      ((m', s') = (m, s) \/
       exists seg, In (s', m') probs /\ prop segs s' = Some seg /\
         ge m' (Config.confidence (Config.thresholds seg)) = true /\ gt m' 0 = true)
  | Throw _ => exists k p, In (k, p) probs /\ prop segs k = None
  | Stuck => False
  end.
Proof.
  revert m s. induction probs as [|[k p] probs IH]; intros m s Hm; simpl.
  { split; [intros k p []|]. auto. }
  destruct (prop segs k) as [seg|] eqn:Hk;
    [simpl|destruct (inherited k); simpl; exists k, p; auto].
  destruct (ge p (Config.confidence (Config.thresholds seg)) && gt p m) eqn:C; simpl.
  - apply andb_prop in C. destruct C as [C1 C2].
    assert (flt 0 p) as Hp by (apply ltb_flt in C2; eapply fle_flt_trans; eauto).
    specialize (IH p k (flt_fle _ _ Hp)).
    destruct (for_fold (selectStep segs) probs (p, k)) as [[m' s']|e|]; [| |exact IH].
    + destruct IH as (Hall & Hm' & Hcase). split; [|split; [exact Hm'|]].
      * intros k' p' [[= <- <-]|Hin]; [rewrite Hk; eauto|eauto].
      * right. destruct Hcase as [[= -> ->]|(seg' & Hin & Hs & G1 & G2)].
        -- exists seg. repeat split; auto. apply ltb_flt, Hp.
        -- exists seg'. repeat split; auto.
    + destruct IH as (k' & p' & Hin & Hnone). exists k', p'. auto.
  - specialize (IH m s Hm).
    destruct (for_fold (selectStep segs) probs (m, s)) as [[m' s']|e|]; [| |exact IH].
    + destruct IH as (Hall & Hm' & Hcase). split; [|split; [exact Hm'|]].
      * intros k' p' [[= <- <-]|Hin]; [rewrite Hk; eauto|eauto].
      * destruct Hcase as [E|(seg' & Hin & Hs & G1 & G2)]; [left; exact E|].
        right. exists seg'. repeat split; auto.
    + destruct IH as (k' & p' & Hin & Hnone). exists k', p'. auto.
Qed.

(** X6.  For any service and any probability object, [selectPrimarySegment]
    throws exactly when the object has a key that is no segment of the
    catalog (reading its thresholds, or under an inherited name their
    confidence, is a TypeError).  Otherwise it returns
    the fallback international_minimalist or a key of the object whose
    probability is at or above its catalog threshold and strictly positive,
    whatever the thresholds are. *)
Theorem X6_selection_over_any_catalog (this : Service) (probs : list (string * float)) :
  let segments := Config.customerSegments (mohdConfig this) in
  ((exists msg, selectPrimarySegment this probs = Throw msg) <->
   (exists k p, In (k, p) probs /\ prop segments k = None)) /\
  selectPrimarySegment this probs <> Stuck /\
  (forall r, selectPrimarySegment this probs = Normal r ->
     r = "international_minimalist"%string \/
     exists p seg, In (r, p) probs /\ prop segments r = Some seg /\
       ge p (Config.confidence (Config.thresholds seg)) = true /\ gt p 0 = true).
Proof.
  intros segments. unfold selectPrimarySegment. fold segments.
  pose proof (select_loop segments probs 0 "international_minimalist"
                (fle_refl 0 eq_refl)) as H.
  destruct (for_fold (selectStep segments) probs (0%float, "international_minimalist"%string))
    as [[m' s']|e|]; simpl; [| |contradiction].
  - destruct H as (Hall & _ & Hcase). split; [|split; [discriminate|]].
    + split; [intros [msg E]; discriminate E|].
      intros (k & p & Hin & Hnone). destruct (Hall k p Hin) as [seg E]. congruence.
    + intros r [= <-]. destruct Hcase as [[= _ ->]|(seg & Hin & Hs & G1 & G2)]; [auto|].
      right. exists m', seg. auto.
  - split; [|split; [discriminate|intros r E; discriminate E]].
    split; [intros _; exact H|eauto].
Qed.

(** ** Sums that stay below positive infinity *)

Module FloatBelow.
Import FloatFinite.
Local Open Scope Z_scope.

Lemma sf_below_mono k k' x : k <= k' -> sf_below k x = true -> sf_below k' x = true.
Proof.
  intros L. destruct x as [s|s| |[] m e]; simpl; auto.
  intros H%Z.leb_le. apply Z.leb_le. lia.
Qed.

Lemma sf_below_number k x : sf_below k x = true -> sf_number x = true.
Proof. destruct x; simpl; congruence. Qed.

Lemma shr_fexp_digits m e l :
  0 <= m ->
  Zdigits2 (shr_m (fst (shr_fexp prec emax m e l))) + snd (shr_fexp prec emax m e l)
  <= Z.max (Zdigits2 m + e) (SpecFloat.emin prec emax).
Proof.
  intros Hm. unfold shr_fexp, shr.
  destruct (fexp prec emax (Zdigits2 m + e) - e) as [|p|p] eqn:E; simpl.
  - rewrite shr_record_of_loc_m. lia.
  - destruct (iter_pos_shift (shifted (Zdigits2 m)) shr_1 (shr_1_shifted (Zdigits2 m))
                p 0 (shr_record_of_loc m l)) as [H1 H2].
    { unfold shifted. rewrite shr_record_of_loc_m. lia. }
    simpl in H2. revert E. unfold fexp. assert (prec = 53) by reflexivity. lia.
  - rewrite shr_record_of_loc_m. lia.
Qed.

(** Rounding adds at most one binary digit. *)
Lemma binary_round_aux_digits sx mx ex lx :
  0 <= mx ->
  exists m e,
    0 <= m /\
    e <= Z.max (Z.max ex (fexp prec emax (Zdigits2 mx + ex)) + 1) (SpecFloat.emin prec emax) /\
    Zdigits2 m + e <= Z.max (Zdigits2 mx + ex) (SpecFloat.emin prec emax) + 1 /\
    binary_round_aux prec emax sx mx ex lx
    = match m with
      | Z0 => S754_zero sx
      | Zpos p => if e <=? emax - prec then S754_finite sx p e else S754_infinity sx
      | Zneg _ => S754_nan
      end.
Proof.
  intros Hm. unfold binary_round_aux.
  pose proof (shr_fexp_bounds mx ex lx Hm) as (A1 & A2 & A3).
  pose proof (shr_fexp_digits mx ex lx Hm) as A4.
  destruct (shr_fexp prec emax mx ex lx) as [mrs' e']. simpl in A1, A2, A3, A4.
  set (m1 := round_nearest_even (shr_m mrs') (loc_of_shr_record mrs')).
  assert (0 <= m1 /\ Zdigits2 m1 <= prec + 1 /\ Zdigits2 m1 <= Zdigits2 (shr_m mrs') + 1)
    as (B1 & B2 & B3).
  { pose proof (Zdigits2_succ (shr_m mrs') A1).
    destruct (round_nearest_even_cases (shr_m mrs') (loc_of_shr_record mrs')) as [E|E];
      unfold m1; rewrite E; lia. }
  pose proof (shr_fexp_bounds m1 e' loc_Exact B1) as (C1 & C2 & C3).
  pose proof (shr_fexp_digits m1 e' loc_Exact B1) as C4.
  destruct (shr_fexp prec emax m1 e' loc_Exact) as [mrs'' e'']. simpl in C1, C2, C3, C4.
  exists (shr_m mrs''), e''. split; [exact C1|]. split; [|split; [|reflexivity]].
  - subst e'' e'. unfold fexp. lia.
  - lia.
Qed.

Lemma binary_round_aux_below sx mx ex lx k :
  0 <= mx ->
  (sx = false -> Zdigits2 mx + ex <= k /\ ex <= emax - prec - 1) ->
  SpecFloat.emin prec emax <= k <= emax - 2 ->
  sf_below (k + 1) (binary_round_aux prec emax sx mx ex lx) = true.
Proof.
  intros Hm Hs Hk.
  destruct (binary_round_aux_digits sx mx ex lx Hm) as (m & e & H0 & He & Hd & ->).
  destruct m as [|p|p]; [reflexivity| |lia].
  destruct sx; [destruct (e <=? emax - prec); reflexivity|].
  destruct (Hs eq_refl) as [S1 S2].
  assert (e <= emax - prec) as L.
  { revert He. unfold fexp, SpecFloat.emin in *. unfold prec, emax in *. lia. }
  apply Z.leb_le in L. rewrite L. simpl. apply Z.leb_le. simpl in Hd. lia.
Qed.

Lemma SFmul_below k kc x c :
  valid_binary x = true -> sf_below k x = true ->
  match c with
  | S754_finite false m e => (Zpos (digits2_pos m) + e <=? kc) && (e <=? -1)
  | _ => false
  end = true ->
  SpecFloat.emin prec emax <= k + kc <= emax - 2 ->
  sf_below (k + kc + 1) (SFmul prec emax x c) = true.
Proof.
  intros V Bx Hc Hk.
  destruct c as [sc|sc| |[] mc ec]; try discriminate.
  apply andb_prop in Hc. destruct Hc as [H1%Z.leb_le H2%Z.leb_le].
  destruct x as [sx|[]| |sx mx ex]; try discriminate; try reflexivity.
  destruct (valid_finite_bounds _ _ _ V) as [B1 B2].
  pose proof (Zdigits2_mul mx mc) as D. simpl in D |- *.
  apply binary_round_aux_below; [lia| |exact Hk].
  rewrite xorb_false_r. intros ->. simpl in Bx. apply Z.leb_le in Bx.
  simpl. lia.
Qed.

(** *** Aligning mantissas *)

Lemma iter_xO m d : Zpos (Pos.iter xO m d) = Zpos m * 2 ^ Zpos d.
Proof.
  induction d as [|d IH] using Pos.peano_ind.
  - simpl. lia.
  - rewrite Pos.iter_succ, Pos2Z.inj_succ, Z.pow_succ_r by lia.
    rewrite (Pos2Z.pos_xO (Pos.iter xO m d)), IH. lia.
Qed.

Lemma shl_align_spec mx ex ex' :
  let '(m', e') := shl_align mx ex ex' in
  e' = Z.min ex ex' /\ Zpos m' = Zpos mx * 2 ^ (ex - e').
Proof.
  unfold shl_align. destruct (ex' - ex) as [|p|p] eqn:E.
  - split; [lia|]. rewrite Z.sub_diag. simpl. lia.
  - split; [lia|]. rewrite Z.sub_diag. simpl. lia.
  - split; [lia|]. rewrite iter_xO. f_equal. f_equal. lia.
Qed.

Lemma Zdigits2_shift m d k :
  0 <= d -> 0 <= k -> Zdigits2 (Zpos m) <= k -> Zdigits2 (Zpos m * 2 ^ d) <= k + d.
Proof.
  intros Hd Hk H. apply Zdigits2_bound; [|lia].
  pose proof (Zdigits2_gt (Zpos m) ltac:(lia)) as G.
  assert (2 ^ Zdigits2 (Zpos m) <= 2 ^ k) by (apply Z.pow_le_mono_r; lia).
  assert (0 < 2 ^ d) by (apply Z.pow_pos_nonneg; lia).
  rewrite Z.pow_add_r by lia. nia.
Qed.

(** A positive number below [2 ^ k], aligned to the exponent [ez]. *)
Lemma aligned_bound mx ex ez k :
  ez <= ex -> Zpos (digits2_pos mx) + ex <= k ->
  0 < Zpos (fst (shl_align mx ex ez)) < 2 ^ (k - ez).
Proof.
  intros L B. pose proof (shl_align_spec mx ex ez) as S.
  destruct (shl_align mx ex ez) as [m' e']. destruct S as [-> S]. simpl.
  split; [lia|]. rewrite S, Z.min_r by lia.
  pose proof (Zdigits2_gt (Zpos mx) ltac:(lia)) as G. simpl in G.
  assert (2 ^ Zpos (digits2_pos mx) * 2 ^ (ex - ez) <= 2 ^ (k - ez)) as P.
  { rewrite <- Z.pow_add_r by lia. apply Z.pow_le_mono_r; lia. }
  assert (0 < 2 ^ (ex - ez)) by (apply Z.pow_pos_nonneg; lia). nia.
Qed.

Lemma binary_round_below sx mx ex k :
  (sx = false -> Zpos (digits2_pos mx) + ex <= k) ->
  SpecFloat.emin prec emax <= k <= emax - 2 ->
  sf_below (k + 1) (binary_round prec emax sx mx ex) = true.
Proof.
  intros Hs Hk. unfold binary_round.
  pose proof (shl_align_spec mx ex (fexp prec emax (Zpos (digits2_pos mx) + ex))) as S.
  destruct (shl_align mx ex _) as [mz ez]. destruct S as [Ez Em].
  apply binary_round_aux_below; [lia| |exact Hk].
  intros Hsx. specialize (Hs Hsx). split.
  - rewrite Em.
    pose proof (Zdigits2_shift mx (ex - ez) (Zpos (digits2_pos mx))
                  ltac:(lia) ltac:(lia) ltac:(simpl; lia)). lia.
  - subst ez. unfold fexp, SpecFloat.emin in *. unfold prec, emax in *. lia.
Qed.

Lemma SFadd_below k a b :
  sf_below k a = true -> sf_below k b = true ->
  SpecFloat.emin prec emax <= k <= emax - 3 ->
  sf_below (k + 2) (SFadd prec emax a b) = true.
Proof.
  intros Ba Bb Hk.
  destruct a as [sa|[]| |sa ma ea]; try discriminate;
    destruct b as [sb|[]| |sb mb eb]; try discriminate; try reflexivity;
    try (destruct sa, sb; reflexivity);
    try (eapply sf_below_mono; [|eassumption]; lia).
  unfold SFadd. set (ez := Z.min ea eb).
  set (z := cond_Zopp sa (Zpos (fst (shl_align ma ea ez)))
            + cond_Zopp sb (Zpos (fst (shl_align mb eb ez)))).
  unfold binary_normalize.
  destruct z as [|p|p] eqn:Ez; [reflexivity| |].
  - replace (k + 2) with (k + 1 + 1) by lia.
    apply binary_round_below; [|lia]. intros _.
    assert (Zpos p < 2 ^ (k + 1 - ez)) as P.
    { assert (2 ^ (k + 1 - ez) = 2 * 2 ^ (k - ez)) as E2.
      { replace (k + 1 - ez) with (Z.succ (k - ez)) by lia.
        apply Z.pow_succ_r.
        destruct sa; simpl in Ba, Bb; [destruct sb|];
          [unfold z in Ez; simpl in Ez; lia
          |apply Z.leb_le in Bb; unfold ez; lia
          |apply Z.leb_le in Ba; unfold ez; lia]. }
      rewrite <- Ez, E2. unfold z.
      destruct sa, sb; simpl in Ba, Bb |- *;
        repeat match goal with H : (_ <=? _) = true |- _ => apply Z.leb_le in H end.
      - lia.
      - pose proof (aligned_bound mb eb ez k ltac:(unfold ez; lia) Bb). lia.
      - pose proof (aligned_bound ma ea ez k ltac:(unfold ez; lia) Ba). lia.
      - pose proof (aligned_bound ma ea ez k ltac:(unfold ez; lia) Ba).
        pose proof (aligned_bound mb eb ez k ltac:(unfold ez; lia) Bb). lia. }
    assert (0 <= k + 1 - ez) as N.
    { destruct (Z.le_gt_cases 0 (k + 1 - ez)) as [C|C]; [exact C|].
      rewrite Z.pow_neg_r in P by lia. lia. }
    pose proof (Zdigits2_bound (Zpos p) (k + 1 - ez) ltac:(lia) N) as D.
    simpl in D. lia.
  - replace (k + 2) with (k + 1 + 1) by lia.
    apply binary_round_below; [discriminate|lia].
Qed.

Lemma SFdiv_number x c :
  sf_number x = true ->
  match c with S754_finite _ _ _ => true | _ => false end = true ->
  sf_number (SFdiv prec emax x c) = true.
Proof.
  intros Nx Hc.
  destruct x as [sx|sx| |sx mx ex]; try discriminate;
    destruct c as [sc|sc| |sc mc ec]; try discriminate; try reflexivity.
  unfold SFdiv, SFdiv_core_binary.
  set (d1 := Zdigits2 (Zpos mx)). set (d2 := Zdigits2 (Zpos mc)).
  set (e' := Z.min (fexp prec emax (d1 + ex - (d2 + ec))) (ex - ec)).
  set (s := ex - ec - e').
  set (m' := match s with Zpos _ => Z.shiftl (Zpos mx) s | Z0 => Zpos mx | Zneg _ => 0 end).
  assert (0 <= m') as Hm'.
  { unfold m'. destruct s as [|p|p]; [lia| |lia]. apply Z.shiftl_nonneg. lia. }
  assert (0 <= m' / Zpos mc) as Q0 by (apply Z.div_pos; lia).
  unfold Z.div in Q0. destruct (Z.div_eucl m' (Zpos mc)) as [q r].
  apply binary_round_aux_number. exact Q0.
Qed.

(** *** The same on primitive floats *)

Lemma below_mono k k' x : k <= k' -> below k x = true -> below k' x = true.
Proof. apply sf_below_mono. Qed.

Lemma below_not_nan k x : below k x = true -> is_nan x = false.
Proof.
  unfold below. intros H%sf_below_number. rewrite is_nan_SF, H. reflexivity.
Qed.

Lemma mul_below k kc c x :
  positive_below kc c = true -> below k x = true ->
  SpecFloat.emin prec emax <= k + kc <= emax - 2 ->
  below (k + kc + 1) (c * x)%float = true.
Proof.
  unfold positive_below, below. intros Hc Bx Hk.
  rewrite FloatFacts.mul_comm, mul_spec.
  apply SFmul_below; [apply Prim2SF_valid|exact Bx| |exact Hk].
  destruct (Prim2SF c) as [| | |[] m e]; try discriminate. exact Hc.
Qed.

Lemma add_below k a b :
  below k a = true -> below k b = true ->
  SpecFloat.emin prec emax <= k <= emax - 3 ->
  below (k + 2) (a + b)%float = true.
Proof. unfold below. rewrite add_spec. apply SFadd_below. Qed.

Lemma div_number x c :
  is_nan x = false -> nonzero_finite c = true -> is_nan (x / c)%float = false.
Proof.
  rewrite !is_nan_SF, div_spec. unfold nonzero_finite. intros Nx Hc.
  apply negb_false_iff in Nx. apply negb_false_iff.
  apply SFdiv_number; assumption.
Qed.

(** A number at most 1 is below [2 ^ 1]. *)
Lemma fle_one_below x : FloatOrder.fle x 1 -> below 1 x = true.
Proof.
  intros (a & b & Ha & Hb & L). unfold below. unfold FloatOrder.rk in Ha, Hb.
  pose proof (Prim2SF_valid x) as V.
  change (Prim2SF 1) with (S754_finite false 4503599627370496 (-52)) in Hb.
  simpl in Hb. injection Hb as <-.
  destruct (Prim2SF x) as [s|[]| |[] m e]; simpl in Ha |- *; try reflexivity;
    try discriminate; injection Ha as <-.
  - destruct L as [L|L]; [simpl in L; lia|discriminate].
  - apply Z.leb_le.
    simpl in V. unfold bounded, canonical_mantissa, fexp, SpecFloat.emin in V.
    apply andb_prop in V. destruct V as [V1%Z.eqb_eq V2%Z.leb_le].
    assert (e <= -52) as Le.
    { destruct L as [L|L]; [simpl in L; lia|]. injection L as -> ->. lia. }
    unfold prec, emax in *. lia.
Qed.

Lemma min_one_below x : is_nan x = false -> below 1 (JS.Math_min x 1) = true.
Proof.
  intros Nx.
  destruct (FloatFacts.Math_min_cases x 1) as [[_ [N|N]]|(_ & _ & _ & L & _)];
    [congruence|discriminate N|].
  apply fle_one_below, L.
Qed.

End FloatBelow.

(** ** Scores of a vector whose bounded signals are bounded above *)

Section Capped.
Import FloatFacts FloatFinite FloatBelow.
Local Open Scope Z_scope.

Variable signals : Signals.
Variable K : Z.
Hypothesis V : valid signals.
Hypothesis HK : 1 <= K <= 1000.
Hypothesis B : capped K signals.

Lemma capped_numberAt k :
  In k requiredSignals -> isFlag k = false ->
  Http.includes Http.allowedLargeValues k = false ->
  below K (Spec.numberAt signals k) = true.
Proof.
  intros Hk Fk Lk. destruct (valid_number signals k V Hk Fk) as [E _].
  exact (B k _ Hk Fk Lk E).
Qed.

Lemma large_below k c :
  In k requiredSignals -> isFlag k = false -> nonzero_finite c = true ->
  below K (JS.Math_min (Spec.numberAt signals k / c) 1) = true.
Proof.
  intros Hk Fk Hc. destruct (valid_number signals k V Hk Fk) as [_ N].
  apply (below_mono 1); [lia|]. apply min_one_below, div_number; assumption.
Qed.

Lemma truthy01_below k : below K (Spec.truthy01 signals k) = true.
Proof.
  apply (below_mono 1); [lia|]. unfold Spec.truthy01.
  destruct (flag signals k); reflexivity.
Qed.

Lemma weighted_below c x :
  positive_below 0 c = true -> below K x = true -> below (K + 1) (c * x)%float = true.
Proof.
  intros Hc Hx. replace (K + 1) with (K + 0 + 1) by lia.
  apply mul_below; [exact Hc|exact Hx|].
  unfold SpecFloat.emin, emax, prec. lia.
Qed.

Lemma sum_below k a b :
  K + 1 <= k <= K + 10 -> below k a = true -> below (K + 1) b = true ->
  below (k + 2) (a + b)%float = true.
Proof.
  intros Hk Ha Hb. apply add_below; [exact Ha| |].
  - apply (below_mono (K + 1)); [lia|exact Hb].
  - unfold SpecFloat.emin, emax, prec. lia.
Qed.

(** A leaf of a score is below [2 ^ K]; a weighted term below [2 ^ (K + 1)]. *)
Ltac leaf :=
  first
    [ apply truthy01_below
    | apply large_below; [in_list|reflexivity|reflexivity]
    | apply capped_numberAt; [in_list|reflexivity|reflexivity] ].

Ltac term := apply weighted_below; [reflexivity|leaf].

Ltac sum3 :=
  apply (below_not_nan (K + 1 + 2 + 2));
  apply sum_below; [lia| |term];
  apply sum_below; [lia| |term];
  apply (below_mono (K + 1)); [lia|term].

Lemma capped_probabilities k p :
  In (k, p) (Spec.probabilities signals) -> Spec.in_unit_interval p.
Proof.
  unfold Spec.probabilities. simpl.
  intros H; repeat (destruct H as [[= <- <-]|H]; [apply clamp_unit|]); try contradiction.
  - unfold Spec.italian_heritage_advocate. sum3.
  - unfold Spec.luxury_project_planner. sum3.
  - unfold Spec.international_minimalist. sum3.
  - unfold Spec.hospitality_professional. sum3.
Qed.

Lemma capped_readiness segment :
  Spec.in_unit_interval (Spec.consultation_readiness signals segment).
Proof.
  unfold Spec.consultation_readiness. apply clamp_unit.
  apply mul_const_number; [|apply multiplier_nonzero_finite].
  apply (below_not_nan (K + 1 + 2 + 2 + 2)).
  apply sum_below; [lia| |term].
  apply sum_below; [lia| |term].
  apply sum_below; [lia| |term].
  apply (below_mono (K + 1)); [lia|term].
Qed.

(** The classification of such a vector returns, with every score in [0,1]. *)
Lemma capped_returns w :
  exists c,
    outcome (validateSegmentClassification informationService signals) w = Normal c /\
    Spec.in_unit_interval (confidence_score c) /\
    (forall k p, In (k, p) (segment_probabilities c) -> Spec.in_unit_interval p) /\
    Spec.in_unit_interval (consultation_readiness_score c).
Proof.
  destruct (selected_prop signals) as [conf Hconf].
  pose proof (capped_probabilities _ _ (prop_In _ _ _ Hconf)) as U.
  pose proof (in_unit_not_nan _ U) as N.
  exists (assembled signals (selected signals) conf).
  rewrite (validateSegmentClassification_valid _ _ _ V Hconf), N.
  split; [reflexivity|]. split; [exact U|]. split.
  - exact capped_probabilities.
  - apply capped_readiness.
Qed.

End Capped.

(** ** The HTTP boundary *)

Module HttpFacts.
Import Http FloatBelow.

(** An object read key by key gives the first entry under the key. *)
Lemma lookup_list_to_map_prop (es : list (string * value)) (k : string) :
  (list_to_map es : Signals) !! k = prop es k.
Proof.
  induction es as [|[k' v] es IH]; [reflexivity|].
  simpl. rewrite lookup_insert. destruct (String.eqb_spec k' k) as [->|N].
  - rewrite decide_True by reflexivity. reflexivity.
  - rewrite decide_False by exact N. exact IH.
Qed.

Lemma get_list_to_map (es : list (string * value)) (k : string) :
  get (list_to_map es) k = default VUndefined (prop es k).
Proof. unfold get. rewrite lookup_list_to_map_prop. reflexivity. Qed.

Lemma checkEntry_None path entry : checkEntry path entry = None <-> acceptable entry.
Proof.
  destruct entry as [key v]. unfold acceptable, checkEntry. cbn [fst snd].
  set (large := includes allowedLargeValues key).
  destruct v as [| |b|x|s|]; simpl;
    try (split; [discriminate|contradiction]); try (split; auto; fail).
  destruct (gt x 1) eqn:G.
  - rewrite !orb_true_r, andb_true_r. destruct large; simpl.
    + split; [intros _ _; reflexivity|reflexivity].
    + split; [discriminate|]. intros H. discriminate (H eq_refl).
  - rewrite andb_false_r. split; [discriminate|].
    intros _. destruct (isNaN x || gt 0 x || false); reflexivity.
Qed.

Lemma checkEntry_400 path entry r :
  checkEntry path entry = Some r ->
  status r = 400%nat /\ exists e, payload r = Failure e path None.
Proof.
  destruct entry as [key v]. unfold checkEntry.
  repeat match goal with
  | |- context [if ?b then _ else _] => destruct b
  | |- context [match ?v with VUndefined => _ | _ => _ end] => destruct v
  end; intros [= <-]; simpl; eauto.
Qed.

Lemma checkEntries_None path entries :
  checkEntries path entries = None <-> Forall acceptable entries.
Proof.
  induction entries as [|entry entries IH]; simpl.
  - split; auto.
  - destruct (checkEntry path entry) eqn:E.
    + split; [discriminate|]. intros H. inversion H as [|? ? A _]; subst.
      apply (checkEntry_None path) in A. congruence.
    + apply checkEntry_None in E. rewrite IH. split.
      * intros H. constructor; assumption.
      * intros H. inversion H. assumption.
Qed.

Lemma checkEntries_first path entries r :
  checkEntries path entries = Some r ->
  exists pre entry post,
    entries = pre ++ entry :: post /\ Forall acceptable pre /\
    ~ acceptable entry /\ checkEntry path entry = Some r.
Proof.
  induction entries as [|entry entries IH]; simpl; [discriminate|].
  destruct (checkEntry path entry) as [r'|] eqn:E.
  - intros [= ->]. exists [], entry, entries. repeat split; auto.
    intros A. apply (checkEntry_None path) in A. congruence.
  - intros H. destruct (IH H) as (pre & e & post & -> & Hpre & Hn & He).
    exists (entry :: pre), e, post. repeat split; auto.
    constructor; [apply (checkEntry_None path), E|exact Hpre].
Qed.

End HttpFacts.

(** ** Generated demo signals *)

Module DemoFacts.
Import Http HttpFacts FloatBelow.

Lemma draw_below_one random n : unit_draws random -> below 1 (random n) = true.
Proof.
  intros U. destruct (U n) as [_ G]. unfold gt in G.
  apply fle_one_below, flt_fle, ltb_flt, G.
Qed.

(** [c0 + Math.random() * c1] for the constants of the templates. *)
Lemma draw_below random n c0 c1 :
  unit_draws random -> positive_below 9 c1 = true -> below 11 c0 = true ->
  below 13 (c0 + random n * c1)%float = true.
Proof.
  intros U H1 H0. apply (add_below 11); [exact H0| |].
  - rewrite mul_comm. apply (mul_below 1 9); [exact H1|apply draw_below_one, U|].
    unfold SpecFloat.emin, emax, prec. lia.
  - unfold SpecFloat.emin, emax, prec. lia.
Qed.

Lemma prop_keys {A : Type} (o : list (string * A)) k :
  In k (map fst o) -> exists a, prop o k = Some a /\ In (k, a) o.
Proof.
  induction o as [|[k' a'] o IH]; simpl; [contradiction|].
  destruct (String.eqb_spec k' k) as [->|N].
  - intros _. exists a'. auto.
  - intros [E|H]; [contradiction|]. destruct (IH H) as (a & Ha & Hin). eauto.
Qed.

(** Every value of a template is a boolean under a flag, and otherwise a
    number below [2 ^ 13]. *)
Lemma template_values random t k v :
  unit_draws random ->
  t = heritageTemplate random \/ t = plannerTemplate random ->
  In (k, v) t ->
  if isFlag k then exists b, v = VBool b
  else exists x, v = VNum x /\ below 13 x = true.
Proof.
  intros U [-> | ->] H; simpl in H;
    repeat (destruct H as [[= <- <-]|H];
            [first [ eexists; reflexivity
                   | eexists; split; [reflexivity|];
                     apply draw_below; [exact U|reflexivity|reflexivity] ]|]);
    contradiction.
Qed.

Lemma template_keys random t :
  t = heritageTemplate random \/ t = plannerTemplate random ->
  map fst t = requiredSignals.
Proof. intros [-> | ->]; reflexivity. Qed.

Lemma template_valid random t :
  unit_draws random ->
  t = heritageTemplate random \/ t = plannerTemplate random ->
  valid (list_to_map t) /\ capped 13 (list_to_map t).
Proof.
  intros U Ht. split.
  - apply valid_iff. intros k Hk. unfold wellTyped. rewrite get_list_to_map.
    rewrite <- (template_keys random t Ht) in Hk.
    destruct (prop_keys t k Hk) as (v & -> & Hin).
    pose proof (template_values random t k v U Ht Hin) as T.
    destruct (isFlag k).
    + destruct T as [b ->]. reflexivity.
    + destruct T as (x & -> & Bx). simpl. rewrite (below_not_nan _ _ Bx). reflexivity.
  - intros k x Hk Fk _ E. rewrite get_list_to_map in E.
    rewrite <- (template_keys random t Ht) in Hk.
    destruct (prop_keys t k Hk) as (v & Hv & Hin). rewrite Hv in E. simpl in E. subst v.
    pose proof (template_values random t k _ U Ht Hin) as T. rewrite Fk in T.
    destruct T as (x' & [= <-] & Bx). exact Bx.
Qed.

Lemma pickType_cases types v :
  pickType types v = nth_error types 0 \/ pickType types v = nth_error types 1
  \/ pickType types v = None.
Proof.
  unfold pickType.
  destruct (Math_floor v =? 0)%float; [auto|]. destruct (Math_floor v =? 1)%float; auto.
Qed.

(** [Math.floor] on sample numbers, and the type picked from a draw. *)
Example Math_floor_samples :
  map Math_floor [0.5; -0.5; 3.999; -3; -3.1; 1e300; -0; 123456789.75; infinity]%float
  = [0; -1; 3; -3; -4; 1e300; -0; 123456789; infinity]%float.
Proof. vm_compute. reflexivity. Qed.

Example pickType_samples :
  map (fun r => pickType ["heritage"; "planner"] (r * 2)%float) [0; 0.25; 0.5; 0.99]%float
  = [Some "heritage"; Some "heritage"; Some "planner"; Some "planner"]%string.
Proof. vm_compute. reflexivity. Qed.

(** What is generated is one of the two templates. *)
Lemma chosen_cases (ht pt : list (string * value)) (o : option string) (s : Signals) :
  match o with
  | Some k =>
      if inherited k then Stuck
      else Normal (list_to_map
                     (default ht (prop [("heritage"%string, ht); ("planner"%string, pt)] k)))
  | None => Normal (list_to_map ht)
  end = Normal s ->
  s = list_to_map ht \/ s = list_to_map pt.
Proof.
  destruct o as [k|]; [|intros [= <-]; left; reflexivity].
  destruct (inherited k); [discriminate|]. cbn [prop].
  destruct (String.eqb "heritage" k); [intros [= <-]; left; reflexivity|].
  destruct (String.eqb "planner" k); intros [= <-]; [right|left]; reflexivity.
Qed.

Lemma generateDemoSignals_cases random segmentType s :
  generateDemoSignals random segmentType = Normal s ->
  s = list_to_map (heritageTemplate random) \/ s = list_to_map (plannerTemplate random).
Proof. unfold generateDemoSignals. apply chosen_cases. Qed.

Lemma generateDemoSignals_valid random segmentType s :
  unit_draws random ->
  generateDemoSignals random segmentType = Normal s ->
  valid s /\ capped 13 s.
Proof.
  intros U H. destruct (generateDemoSignals_cases _ _ _ H) as [-> | ->];
    apply (template_valid random); auto.
Qed.

End DemoFacts.

(** ** The classification route *)

Module RouteFacts.
Import Http HttpFacts DemoFacts FloatBelow.

Lemma demo_mode_ok d :
  ToBoolean d && negb (isDemoMode d) = false
  <-> (ToBoolean d = false \/ isDemoMode d = true).
Proof.
  destruct (ToBoolean d), (isDemoMode d); simpl; split; auto.
  intros [H|H]; discriminate.
Qed.

Lemma accepted_iff schema req : validateInput schema req = Normal Next <-> accepted req.
Proof.
  unfold validateInput, accepted. destruct (req_body req) as [v|signals demo_mode].
  - split.
    + destruct (negb (ToBoolean v) || negb (String.eqb (typeof v) "object")); discriminate.
    + intros (s & d & [=] & _).
  - pose proof (demo_mode_ok demo_mode) as D.
    destruct signals as [v|entries]; simpl.
    + destruct (ToBoolean v) eqn:Tv; simpl.
      * split.
        -- destruct (negb (String.eqb (typeof v) "object")); [discriminate|].
           destruct (ToBoolean demo_mode && negb (isDemoMode demo_mode)); discriminate.
        -- intros (s & d & [= <- <-] & _ & [(v' & [= <-] & F)|(es & [=] & _)]).
           congruence.
      * destruct (ToBoolean demo_mode && negb (isDemoMode demo_mode)) eqn:Dm.
        -- split; [discriminate|].
           intros (s & d & [= <- <-] & Hd & _). apply D in Hd. discriminate.
        -- split; [|reflexivity]. intros _. exists (Prim v), demo_mode.
           split; [reflexivity|]. split; [apply D; reflexivity|]. left. eauto.
    + destruct (ToBoolean demo_mode && negb (isDemoMode demo_mode)) eqn:Dm.
      * split; [discriminate|].
        intros (s & d & [= <- <-] & Hd & _). apply D in Hd. discriminate.
      * destruct (checkEntries (req_path req) entries) as [r|] eqn:C.
        -- split; [discriminate|].
           intros (s & d & [= <- <-] & _ & [(v' & [=] & _)|(es & [= <-] & F)]).
           apply (checkEntries_None (req_path req)) in F. congruence.
        -- split; [|reflexivity]. intros _. exists (Object entries), demo_mode.
           split; [reflexivity|]. split; [apply D; reflexivity|]. right.
           exists entries. split; [reflexivity|].
           apply (checkEntries_None (req_path req)), C.
Qed.

Lemma validateInput_400 schema req r :
  validateInput schema req = Normal (Responded r) ->
  status r = 400%nat /\ exists e, payload r = Failure e (req_path req) None.
Proof.
  unfold validateInput. destruct (req_body req) as [v|signals demo_mode].
  - destruct (negb (ToBoolean v) || negb (String.eqb (typeof v) "object"));
      [|discriminate]. intros [= <-]. simpl. eauto.
  - destruct (truthy signals && negb (String.eqb (typeofField signals) "object"));
      [intros [= <-]; simpl; eauto|].
    destruct (ToBoolean demo_mode && negb (isDemoMode demo_mode));
      [intros [= <-]; simpl; eauto|].
    destruct (truthy signals); [|discriminate].
    destruct signals as [v|entries]; [discriminate|].
    destruct (checkEntries (req_path req) entries) as [r'|] eqn:C; [|discriminate].
    intros [= <-]. destruct (checkEntries_first _ _ _ C) as (pre & e & post & _ & _ & _ & H).
    apply checkEntry_400 in H. exact H.
Qed.

Lemma validateInput_not_Throw schema req msg : validateInput schema req <> Throw msg.
Proof.
  unfold validateInput.
  repeat match goal with
  | |- context [if ?b then _ else _] => destruct b
  | |- context [match ?v with _ => _ end] => destruct v
  end; discriminate.
Qed.

Lemma segmentClassify_responded random req r w :
  validateInput segmentClassifySchema req = Normal (Responded r) ->
  segmentClassify random req w = (Normal r, w).
Proof. intros H. unfold segmentClassify, bind, lift, ret. rewrite H. reflexivity. Qed.

Lemma segmentClassify_next random req signals demo_mode w :
  validateInput segmentClassifySchema req = Normal Next ->
  req_body req = Parsed signals demo_mode ->
  segmentClassify random req w
  = match testSignals random signals demo_mode with
    | Normal None =>
        (Normal (badRequest (Message "No signals provided and demo_mode not specified")
                   (req_path req)), w)
    | Normal (Some used) =>
        match validateSegmentClassification informationService used w with
        | (Normal c, w') => (Normal (ok c used demo_mode), w')
        | (Throw e, w') => (Normal (validationFailed e (req_path req)), w')
        | (Stuck, w') => (Stuck, w')
        end
    | Throw e => (Throw e, w)
    | Stuck => (Stuck, w)
    end.
Proof.
  intros H B. unfold segmentClassify, bind, lift, ret, try_catch. rewrite H, B.
  destruct (testSignals random signals demo_mode) as [[used|]|e|]; try reflexivity.
  destruct (validateSegmentClassification informationService used w) as [[c|e|] w'];
    reflexivity.
Qed.

(** What the handler classifies once the middleware has passed the request
    on: generated signals in demo mode, the posted object otherwise. *)
Lemma testSignals_accepted random signals demo_mode used :
  testSignals random signals demo_mode = Normal (Some used) ->
  (ToBoolean demo_mode = true /\
   exists mode, demo_mode = VStr mode /\ generateDemoSignals random mode = Normal used)
  \/ (ToBoolean demo_mode = false /\
      exists entries, signals = Object entries /\ used = list_to_map entries).
Proof.
  unfold testSignals. destruct (ToBoolean demo_mode) eqn:T.
  - destruct demo_mode as [| |b|x|mode|]; try discriminate.
    destruct (generateDemoSignals random mode) as [s|e|] eqn:G; try discriminate.
    intros [= <-]. left. eauto.
  - destruct signals as [v|entries].
    + destruct (ToBoolean v); discriminate.
    + intros [= <-]. right. eauto.
Qed.

(** Acceptable entries, once validated by the classifier, are capped by 1. *)
Lemma acceptable_capped entries :
  Forall acceptable entries -> valid (list_to_map entries) ->
  capped 1 (list_to_map entries).
Proof.
  intros F V k x Hk Fk Lk E.
  destruct (valid_number _ k V Hk Fk) as [E' N]. rewrite E in E'.
  injection E' as E'. rewrite <- E' in N.
  rewrite get_list_to_map in E.
  destruct (prop entries k) as [v|] eqn:P; [|discriminate]. simpl in E. subst v.
  apply prop_In in P. rewrite List.Forall_forall in F. apply F in P.
  unfold acceptable in P. cbn [fst snd] in P.
  destruct (gt x 1) eqn:G; [rewrite (P eq_refl) in Lk; discriminate|].
  apply fle_one_below. apply not_ltb_fle; [reflexivity|exact N|exact G].
Qed.

(** The signals the handler classifies are capped whenever they pass the
    classifier's validation. *)
Lemma used_capped random req signals demo_mode used :
  unit_draws random ->
  accepted req -> req_body req = Parsed signals demo_mode ->
  testSignals random signals demo_mode = Normal (Some used) ->
  valid used -> capped 13 used.
Proof.
  intros U (s & d & B & _ & Hs) B' T V. rewrite B' in B. injection B as <- <-.
  destruct (testSignals_accepted _ _ _ _ T) as [(_ & mode & -> & G)|(_ & es & -> & ->)].
  - apply (generateDemoSignals_valid random mode used U G).
  - destruct Hs as [(v & [=] & _)|(es' & [= <-] & F)].
    intros k x Hk Fk Lk E. apply (below_mono 1); [lia|].
    exact (acceptable_capped es F V k x Hk Fk Lk E).
Qed.

End RouteFacts.

Import Http HttpFacts DemoFacts RouteFacts.

(** X7.  The middleware passes a request on exactly when its body is an
    object whose demo_mode is falsy or one of heritage, planner, random, and
    whose signals is falsy or an object in which no value is a string, null
    or undefined and no number is above 1 except under session_duration,
    page_depth and heritage_content_time.  Negative numbers and NaN pass,
    and neither the schema nor the list of required signals is consulted.
    Any other answer is a 400 error envelope carrying the request path; the
    middleware throws nothing. *)
Theorem X7_middleware_passes_on (schema : Schema) (req : Request) :
  (validateInput schema req = Normal Next <-> accepted req) /\
  (forall r, validateInput schema req = Normal (Responded r) ->
     status r = 400%nat /\ exists e, payload r = Failure e (req_path req) None) /\
  (forall msg, validateInput schema req <> Throw msg).
Proof.
  split; [apply accepted_iff|]. split.
  - apply validateInput_400.
  - apply validateInput_not_Throw.
Qed.

Lemma checkEntry_Some path key v r :
  checkEntry path (key, v) = Some r -> r = badRequest (refusal key v) path.
Proof.
  unfold checkEntry.
  set (large := includes allowedLargeValues key).
  destruct v as [| |b|x|s|]; simpl; try discriminate; try (intros [= <-]; reflexivity).
  destruct (isNaN x || gt 0 x || gt x 1); [|discriminate].
  destruct (negb large && gt x 1); [|discriminate]. intros [= <-]. reflexivity.
Qed.

(** X8.  When a posted signals object is refused, the 400 answer names the
    first entry, in the object's own order, that is not acceptable: a range
    error for a number, a type error for a string, null or undefined. *)
Theorem X8_first_refused_entry (schema : Schema) (req : Request)
    (entries : list (string * value)) (demo_mode : value) (r : Response) :
  req_body req = Parsed (Object entries) demo_mode ->
  (ToBoolean demo_mode = false \/ isDemoMode demo_mode = true) ->
  validateInput schema req = Normal (Responded r) ->
  exists pre key v post,
    entries = pre ++ (key, v) :: post /\
    Forall acceptable pre /\
    ~ acceptable (key, v) /\
    r = badRequest (refusal key v) (req_path req).
Proof.
  intros B D H. unfold validateInput in H. rewrite B in H. simpl in H.
  apply demo_mode_ok in D. rewrite D in H.
  destruct (checkEntries (req_path req) entries) as [r'|] eqn:C; [|discriminate].
  injection H as ->.
  destruct (checkEntries_first _ _ _ C) as (pre & [key v] & post & -> & Hpre & Hn & He).
  exists pre, key, v, post. repeat split; auto. apply checkEntry_Some, He.
Qed.

Lemma X8_first_refused_entry_witness :
  exists pre key v post,
    [ ("session_duration"%string, VNum 480%float);
      ("page_depth"%string, VStr "7");
      ("product_interaction_quality"%string, VNum 1.5%float) ]
    = pre ++ (key, v) :: post /\
    Forall acceptable pre /\
    ~ acceptable (key, v) /\
    badRequest (Message "Signal 'page_depth' must be a numeric value, got string")
      HttpSamples.path
    = badRequest (refusal key v) (req_path HttpSamples.refused).
Proof.
  apply (X8_first_refused_entry segmentClassifySchema HttpSamples.refused _ VUndefined).
  - reflexivity.
  - left. reflexivity.
  - reflexivity.
Defined.

(** X9.  Over HTTP a 200 answer never carries NaN: whatever was posted
    (infinities included) or generated, the classification it carries is
    the classifier's result on the signals it echoes, and its confidence,
    its four segment probabilities and its consultation readiness all lie
    in [0,1]. *)
Theorem X9_ok_scores_in_unit (random : nat -> float) (req : Request)
    (w w' : World) (r : Response) :
  unit_draws random ->
  segmentClassify random req w = (Normal r, w') ->
  status r = 200%nat ->
  exists c used mode,
    payload r = Success c used mode /\
    outcome (validateSegmentClassification informationService used) w = Normal c /\
    Spec.in_unit_interval (confidence_score c) /\
    (forall k p, In (k, p) (segment_probabilities c) -> Spec.in_unit_interval p) /\
    Spec.in_unit_interval (consultation_readiness_score c).
Proof.
  intros U H S.
  destruct (validateInput segmentClassifySchema req) as [[r0|]|e|] eqn:E.
  - rewrite (segmentClassify_responded _ _ _ _ E) in H. injection H as <- <-.
    destruct (validateInput_400 _ _ _ E) as [S' _]. congruence.
  - pose proof (proj1 (accepted_iff _ _) E) as A.
    pose proof A as (signals & demo_mode & B & _).
    rewrite (segmentClassify_next _ _ _ _ _ E B) in H.
    destruct (testSignals random signals demo_mode) as [[used|]|e|] eqn:T;
      try discriminate.
    + destruct (validateSegmentClassification informationService used w)
        as [[c|e|] w1] eqn:Q; try discriminate.
      * injection H as <- <-.
        assert (outcome (validateSegmentClassification informationService used) w
                = Normal c) as O by (unfold outcome; rewrite Q; reflexivity).
        pose proof (returned_valid _ _ _ O) as V.
        pose proof (used_capped random req signals demo_mode used U A B T V) as C.
        destruct (capped_returns used 13 V ltac:(lia) C w) as (c' & O' & P1 & P2 & P3).
        rewrite O in O'. injection O' as <-.
        exists c, used, (if ToBoolean demo_mode then demo_mode else VBool false).
        split; [reflexivity|]. split; [exact O|]. auto.
      * injection H as <- <-. discriminate S.
    + injection H as <- <-. discriminate S.
  - unfold segmentClassify, bind, lift in H. rewrite E in H. discriminate.
  - unfold segmentClassify, bind, lift in H. rewrite E in H. discriminate.
Qed.

Lemma X9_ok_scores_in_unit_witness :
  exists c used mode,
    payload (HttpSamples.answer HttpSamples.halves HttpSamples.demoHeritage)
    = Success c used mode /\
    outcome (validateSegmentClassification informationService used) Samples.world
    = Normal c /\
    Spec.in_unit_interval (confidence_score c) /\
    (forall k p, In (k, p) (segment_probabilities c) -> Spec.in_unit_interval p) /\
    Spec.in_unit_interval (consultation_readiness_score c).
Proof.
  apply (X9_ok_scores_in_unit HttpSamples.halves HttpSamples.demoHeritage Samples.world
           (snd (segmentClassify HttpSamples.halves HttpSamples.demoHeritage Samples.world))).
  - intros n. split; reflexivity.
  - vm_compute. reflexivity.
  - vm_compute. reflexivity.
Defined.

Lemma chosen_fallback (ht pt : list (string * value)) (k : string) (s : Signals) :
  (if inherited k then Stuck
   else Normal (list_to_map
                  (default ht (prop [("heritage"%string, ht); ("planner"%string, pt)] k))))
  = Normal s ->
  (k = "planner"%string -> s = list_to_map pt) /\
  (k <> "planner"%string -> s = list_to_map ht).
Proof.
  destruct (inherited k); [discriminate|]. cbn [prop].
  destruct (String.eqb_spec "heritage" k) as [<-|_].
  - intros [= <-]. split; [discriminate|reflexivity].
  - destruct (String.eqb_spec "planner" k) as [<-|N]; intros [= <-].
    + split; [reflexivity|contradiction].
    + split; [congruence|reflexivity].
Qed.

Lemma generateDemoSignals_fallback random segmentType s :
  generateDemoSignals random segmentType = Normal s ->
  (segmentType = "planner"%string -> s = list_to_map (plannerTemplate random)) /\
  (segmentType <> "planner"%string -> segmentType <> "random"%string ->
   s = list_to_map (heritageTemplate random)).
Proof.
  unfold generateDemoSignals.
  destruct (String.eqb_spec segmentType "random") as [->|N].
  - intros _. split; [discriminate|contradiction].
  - intros H. apply chosen_fallback in H. destruct H as [H1 H2]. auto.
Qed.

Lemma chosen_modes (ht pt : list (string * value)) (o : option string) :
  (forall k, o = Some k -> k = "heritage"%string \/ k = "planner"%string) ->
  exists s : Signals,
    match o with
    | Some k =>
        if inherited k then Stuck
        else Normal (list_to_map
                       (default ht (prop [("heritage"%string, ht); ("planner"%string, pt)] k)))
    | None => Normal (list_to_map ht)
    end = Normal s.
Proof.
  destruct o as [k|]; [|eauto].
  intros H. destruct (H k eq_refl) as [-> | ->]; eexists; reflexivity.
Qed.

Lemma generateDemoSignals_modes random mode :
  In mode demoModes -> exists s, generateDemoSignals random mode = Normal s.
Proof.
  intros M. unfold generateDemoSignals. apply chosen_modes.
  destruct M as [<-|[<-|[<-|[]]]].
  - intros k [= <-]. auto.
  - intros k [= <-]. auto.
  - change (String.eqb "random" "random") with true. cbv iota.
    destruct (pickType_cases
                (map fst [("heritage"%string, heritageTemplate random);
                          ("planner"%string, plannerTemplate random)])
                (random 31%nat * 2)%float) as [-> |[-> | ->]];
      intros k [= <-]; auto.
Qed.

Lemma generateDemoSignals_returns random segmentType :
  inherited segmentType = false ->
  exists s, generateDemoSignals random segmentType = Normal s.
Proof.
  intros Hi. unfold generateDemoSignals.
  destruct (String.eqb segmentType "random").
  - apply chosen_modes.
    destruct (pickType_cases
                (map fst [("heritage"%string, heritageTemplate random);
                          ("planner"%string, plannerTemplate random)])
                (random 31%nat * 2)%float) as [-> |[-> | ->]];
      intros k [= <-]; auto.
  - rewrite Hi. eexists. reflexivity.
Qed.

(** X10.  With draws in [0,1), and for any type that is no inherited
    property name, the demo generator returns one of its two templates
    over the sixteen required signals: the planner template for 'planner',
    the heritage template for any other such type than 'random' (unknown
    types fall back to it).  Either passes the classifier's validation, and
    its classification returns with a confidence in [0,1].  (Under an
    inherited name, such as constructor, what the code returns is the
    inherited function or object and no template.) *)
Theorem X10_demo_signals_classify (random : nat -> float) (segmentType : string)
    (w : World) :
  unit_draws random ->
  inherited segmentType = false ->
  exists s,
    generateDemoSignals random segmentType = Normal s /\
    (s = list_to_map (heritageTemplate random) \/
     s = list_to_map (plannerTemplate random)) /\
    (segmentType = "planner"%string -> s = list_to_map (plannerTemplate random)) /\
    (segmentType <> "planner"%string -> segmentType <> "random"%string ->
     s = list_to_map (heritageTemplate random)) /\
    valid s /\
    exists c,
      outcome (validateSegmentClassification informationService s) w = Normal c /\
      Spec.in_unit_interval (confidence_score c).
Proof.
  intros U Hi. destruct (generateDemoSignals_returns random segmentType Hi) as [s H].
  exists s. split; [exact H|].
  split; [exact (generateDemoSignals_cases _ _ _ H)|].
  destruct (generateDemoSignals_fallback _ _ _ H) as [F1 F2].
  split; [exact F1|]. split; [exact F2|].
  destruct (generateDemoSignals_valid _ _ _ U H) as [V C]. split; [exact V|].
  destruct (capped_returns s 13 V ltac:(lia) C w) as (c & O & P & _). eauto.
Qed.

Lemma X10_demo_signals_classify_witness :
  exists s,
    generateDemoSignals HttpSamples.halves "showroom" = Normal s /\
    (s = list_to_map (heritageTemplate HttpSamples.halves) \/
     s = list_to_map (plannerTemplate HttpSamples.halves)) /\
    ("showroom"%string = "planner"%string ->
     s = list_to_map (plannerTemplate HttpSamples.halves)) /\
    ("showroom"%string <> "planner"%string -> "showroom"%string <> "random"%string ->
     s = list_to_map (heritageTemplate HttpSamples.halves)) /\
    valid s /\
    exists c,
      outcome (validateSegmentClassification informationService s) Samples.world
      = Normal c /\
      Spec.in_unit_interval (confidence_score c).
Proof.
  apply (X10_demo_signals_classify HttpSamples.halves "showroom").
  - intros n. split; reflexivity.
  - reflexivity.
Defined.

(** X11.  In demo mode the route always answers 200: whatever signals were
    posted with the request (none, or any acceptable object), they are
    ignored, and the answer carries the classification of the generated
    signals, which it echoes together with the mode. *)
Theorem X11_demo_mode_answers_ok (random : nat -> float) (req : Request)
    (signals : field) (mode : string) (w : World) :
  unit_draws random ->
  req_body req = Parsed signals (VStr mode) ->
  In mode demoModes ->
  ((exists v, signals = Prim v /\ ToBoolean v = false) \/
   (exists entries, signals = Object entries /\ Forall acceptable entries)) ->
  exists c used w',
    segmentClassify random req w = (Normal (ok c used (VStr mode)), w') /\
    generateDemoSignals random mode = Normal used /\
    outcome (validateSegmentClassification informationService used) w = Normal c /\
    payload (ok c used (VStr mode)) = Success c used (VStr mode).
Proof.
  intros U B M S.
  assert (ToBoolean (VStr mode) = true) as T.
  { destruct M as [<-|[<-|[<-|[]]]]; reflexivity. }
  assert (isDemoMode (VStr mode) = true) as D.
  { destruct M as [<-|[<-|[<-|[]]]]; reflexivity. }
  assert (accepted req) as A by (exists signals, (VStr mode); auto).
  pose proof (proj2 (accepted_iff segmentClassifySchema req) A) as E.
  destruct (generateDemoSignals_modes random mode M) as [used G].
  destruct (generateDemoSignals_valid _ _ _ U G) as [V C].
  destruct (capped_returns used 13 V ltac:(lia) C w) as (c & O & _).
  exists c, used.
  rewrite (segmentClassify_next _ _ _ _ _ E B). unfold testSignals. rewrite T, G.
  pose proof O as O'. unfold outcome in O'.
  destruct (validateSegmentClassification informationService used w) as [r w1].
  simpl in O'. subst r. exists w1.
  split; [reflexivity|]. split; [reflexivity|]. split; [exact O|].
  unfold ok. rewrite T. reflexivity.
Qed.

Lemma X11_demo_mode_answers_ok_witness :
  exists c used w',
    segmentClassify HttpSamples.halves HttpSamples.demoHeritage Samples.world
    = (Normal (ok c used (VStr "heritage")), w') /\
    generateDemoSignals HttpSamples.halves "heritage" = Normal used /\
    outcome (validateSegmentClassification informationService used) Samples.world
    = Normal c /\
    payload (ok c used (VStr "heritage")) = Success c used (VStr "heritage").
Proof.
  apply (X11_demo_mode_answers_ok HttpSamples.halves HttpSamples.demoHeritage
           (Prim VUndefined)).
  - intros n. split; reflexivity.
  - reflexivity.
  - left. reflexivity.
  - left. exists VUndefined. split; reflexivity.
Defined.

Lemma validate_type_error signals msg :
  List.filter (isMissing signals) requiredSignals = [] ->
  validate signals = Throw msg ->
  exists k, In k requiredSignals /\ checkSignal signals k = Throw msg.
Proof.
  intros F H. unfold validate in H. rewrite F in H.
  change (for_of requiredSignals (checkSignal signals) = Throw msg) in H.
  exact (for_of_Throw requiredSignals (checkSignal signals) msg H).
Qed.

Lemma acceptable_not_missing entries k :
  Forall acceptable entries ->
  isMissing (list_to_map entries) k = true -> prop entries k = None.
Proof.
  intros F. unfold isMissing. rewrite get_list_to_map.
  destruct (prop entries k) as [v|] eqn:P; [|reflexivity].
  apply prop_In in P. rewrite List.Forall_forall in F. apply F in P.
  unfold acceptable in P. simpl in P |- *.
  destruct v; try discriminate; contradiction.
Qed.

Lemma acceptable_typeof entries k :
  Forall acceptable entries ->
  isMissing (list_to_map entries) k = false ->
  In (typeof (get (list_to_map entries) k)) ["boolean"; "number"; "object"]%string.
Proof.
  intros F. unfold isMissing. rewrite get_list_to_map.
  destruct (prop entries k) as [v|] eqn:P; [|discriminate].
  apply prop_In in P. rewrite List.Forall_forall in F. apply F in P.
  unfold acceptable in P. simpl in P |- *.
  destruct v; try discriminate; try contradiction; simpl; auto.
Qed.

(** X12.  An error of the classifier reaches the client only for posted
    signals (never in demo mode), as a 400 with security validation_failed,
    and it is a validation error: the list of required signals absent from
    the posted object, or the type error of a required signal that is a
    boolean, an object or NaN.  "Classification confidence calculation
    failed" is never answered. *)
Theorem X12_classifier_errors_over_http (random : nat -> float) (req : Request)
    (w w' : World) (r : Response) (msg path security : string) :
  unit_draws random ->
  segmentClassify random req w = (Normal r, w') ->
  payload r = Failure (Message msg) path (Some security) ->
  status r = 400%nat /\ path = req_path req /\ security = "validation_failed"%string /\
  msg <> "Classification confidence calculation failed"%string /\
  exists entries demo_mode,
    req_body req = Parsed (Object entries) demo_mode /\
    ToBoolean demo_mode = false /\
    Forall acceptable entries /\
    outcome (validateSegmentClassification informationService (list_to_map entries)) w
    = Throw msg /\
    ((List.filter (isMissing (list_to_map entries)) requiredSignals <> [] /\
      (forall k, In k (List.filter (isMissing (list_to_map entries)) requiredSignals) ->
         prop entries k = None) /\
      msg = ("Missing required signals: "
             +:+ String.concat ", "
                   (List.filter (isMissing (list_to_map entries)) requiredSignals))%string)
     \/
     (List.filter (isMissing (list_to_map entries)) requiredSignals = [] /\
      exists k, In k requiredSignals /\
        wellTyped (list_to_map entries) k = false /\
        In (typeof (get (list_to_map entries) k)) ["boolean"; "number"; "object"]%string /\
        msg = ("Signal '" +:+ k +:+ "' must be "
               +:+ (if isFlag k then "a boolean or number" else "a number")
               +:+ ", got " +:+ typeof (get (list_to_map entries) k))%string)).
Proof.
  intros U H P.
  destruct (validateInput segmentClassifySchema req) as [[r0|]|e|] eqn:E.
  - rewrite (segmentClassify_responded _ _ _ _ E) in H. injection H as <- <-.
    destruct (validateInput_400 _ _ _ E) as [_ [e P']]. rewrite P in P'. discriminate.
  - pose proof (proj1 (accepted_iff _ _) E) as A.
    pose proof A as (signals & demo_mode & B & _ & Hs).
    rewrite (segmentClassify_next _ _ _ _ _ E B) in H.
    destruct (testSignals random signals demo_mode) as [[used|]|e|] eqn:T;
      try discriminate.
    + destruct (validateSegmentClassification informationService used w)
        as [[c|e|] w1] eqn:Q; try discriminate.
      * injection H as <- <-. discriminate P.
      * injection H as <- <-. injection P as -> <- <-.
        assert (outcome (validateSegmentClassification informationService used) w
                = Throw msg) as O by (unfold outcome; rewrite Q; reflexivity).
        assert (~ valid used) as NV.
        { intros V.
          pose proof (used_capped random req signals demo_mode used U A B T V) as C.
          destruct (capped_returns used 13 V ltac:(lia) C w) as (c & O' & _).
          congruence. }
        destruct (validate_cases used) as [V|[msg' Hmsg]]; [contradiction|].
        assert (msg' = msg) as ->.
        { unfold outcome in O.
          rewrite (validateSegmentClassification_invalid _ _ _ msg' Hmsg) in O.
          injection O as ->. reflexivity. }
        destruct (testSignals_accepted _ _ _ _ T)
          as [(_ & mode & -> & G)|(Td & es & -> & ->)].
        { exfalso. apply NV. apply (generateDemoSignals_valid random mode used U G). }
        destruct Hs as [(v & [=] & _)|(es' & [= <-] & F)].
        assert
          ((List.filter (isMissing (list_to_map es)) requiredSignals <> [] /\
            msg = ("Missing required signals: "
                   +:+ String.concat ", "
                         (List.filter (isMissing (list_to_map es)) requiredSignals))%string)
           \/ (List.filter (isMissing (list_to_map es)) requiredSignals = [] /\
               exists k, In k requiredSignals /\
                 checkSignal (list_to_map es) k = Throw msg)) as Cases.
        { destruct (List.filter (isMissing (list_to_map es)) requiredSignals)
            as [|m ms] eqn:Fm.
          - right. split; [reflexivity|]. exact (validate_type_error _ _ Fm Hmsg).
          - left. split; [discriminate|].
            rewrite validate_missing in Hmsg by (rewrite Fm; discriminate).
            rewrite Fm in Hmsg. injection Hmsg as <-. reflexivity. }
        split; [reflexivity|]. split; [reflexivity|]. split; [reflexivity|]. split.
        { destruct Cases as [[_ ->]|(_ & k & _ & Hk)]; [discriminate|].
          apply checkSignal_Throw in Hk. destruct Hk as [_ ->]. discriminate. }
        exists es, demo_mode. split; [exact B|]. split; [exact Td|].
        split; [exact F|]. split; [exact O|].
        destruct Cases as [[Hne ->]|(Hnil & k & Hin & Hk)].
        -- left. split; [exact Hne|]. split; [|reflexivity].
           intros k Hk. apply filter_In in Hk. destruct Hk as [_ Hk].
           apply acceptable_not_missing; assumption.
        -- right. split; [exact Hnil|]. exists k. split; [exact Hin|].
           apply checkSignal_Throw in Hk. destruct Hk as [Hw ->].
           split; [exact Hw|]. split; [|reflexivity].
           apply acceptable_typeof; [exact F|].
           destruct (isMissing (list_to_map es) k) eqn:Mk; [|reflexivity].
           assert (In k (List.filter (isMissing (list_to_map es)) requiredSignals)) as Hf
             by (apply filter_In; auto).
           rewrite Hnil in Hf. contradiction.
    + injection H as <- <-. discriminate P.
  - unfold segmentClassify, bind, lift in H. rewrite E in H. discriminate.
  - unfold segmentClassify, bind, lift in H. rewrite E in H. discriminate.
Qed.

Lemma X12_classifier_errors_over_http_witness :
  let msg := HttpSamples.missingText in
  status (HttpSamples.answer HttpSamples.halves HttpSamples.incomplete) = 400%nat /\
  HttpSamples.path = req_path HttpSamples.incomplete /\
  "validation_failed"%string = "validation_failed"%string /\
  msg <> "Classification confidence calculation failed"%string /\
  exists entries demo_mode,
    req_body HttpSamples.incomplete = Parsed (Object entries) demo_mode /\
    ToBoolean demo_mode = false /\
    Forall acceptable entries /\
    outcome (validateSegmentClassification informationService (list_to_map entries))
      Samples.world
    = Throw msg /\
    ((List.filter (isMissing (list_to_map entries)) requiredSignals <> [] /\
      (forall k, In k (List.filter (isMissing (list_to_map entries)) requiredSignals) ->
         prop entries k = None) /\
      msg = ("Missing required signals: "
             +:+ String.concat ", "
                   (List.filter (isMissing (list_to_map entries)) requiredSignals))%string)
     \/
     (List.filter (isMissing (list_to_map entries)) requiredSignals = [] /\
      exists k, In k requiredSignals /\
        wellTyped (list_to_map entries) k = false /\
        In (typeof (get (list_to_map entries) k)) ["boolean"; "number"; "object"]%string /\
        msg = ("Signal '" +:+ k +:+ "' must be "
               +:+ (if isFlag k then "a boolean or number" else "a number")
               +:+ ", got " +:+ typeof (get (list_to_map entries) k))%string)).
Proof.
  apply (X12_classifier_errors_over_http HttpSamples.halves HttpSamples.incomplete
           Samples.world
           (snd (segmentClassify HttpSamples.halves HttpSamples.incomplete Samples.world))).
  - intros n. split; reflexivity.
  - vm_compute. reflexivity.
  - vm_compute. reflexivity.
Defined.

(** X17.  Posted signals are answered 200 as soon as the object passes the
    middleware and holds, under each of the sixteen required names, a
    number other than NaN (a boolean or any number for the two flags):
    further entries do not matter, and the answer echoes the posted
    signals with the classifier's result on them. *)
Theorem X17_posted_signals_answered_ok (random : nat -> float) (req : Request)
    (entries : list (string * value)) (demo_mode : value) (w : World) :
  req_body req = Parsed (Object entries) demo_mode ->
  ToBoolean demo_mode = false ->
  Forall acceptable entries ->
  (forall k, In k requiredSignals -> wellTyped (list_to_map entries) k = true) ->
  exists c w',
    segmentClassify random req w
    = (Normal {| status := 200;
                 payload := Success c (list_to_map entries) (VBool false) |}, w') /\
    outcome (validateSegmentClassification informationService (list_to_map entries)) w
    = Normal c /\
    Spec.in_unit_interval (confidence_score c) /\
    Spec.in_unit_interval (consultation_readiness_score c).
Proof.
  intros B D F W.
  assert (accepted req) as A.
  { exists (Object entries), demo_mode. split; [exact B|]. split; [left; exact D|].
    right. eauto. }
  pose proof (proj2 (accepted_iff segmentClassifySchema req) A) as E.
  pose proof (proj2 (valid_iff (list_to_map entries)) W) as V.
  pose proof (acceptable_capped entries F V) as C.
  destruct (capped_returns _ 1 V ltac:(lia) C w) as (c & O & P1 & _ & P3).
  exists c. rewrite (segmentClassify_next _ _ _ _ _ E B). unfold testSignals. rewrite D.
  pose proof O as O'. unfold outcome in O'.
  destruct (validateSegmentClassification informationService (list_to_map entries) w)
    as [r w1].
  simpl in O'. subst r. exists w1. unfold ok. rewrite D. auto.
Qed.

Lemma X17_posted_signals_answered_ok_witness :
  exists c w',
    segmentClassify HttpSamples.halves HttpSamples.zerosRequest Samples.world
    = (Normal {| status := 200;
                 payload := Success c (list_to_map HttpSamples.zeros) (VBool false) |},
       w') /\
    outcome (validateSegmentClassification informationService
               (list_to_map HttpSamples.zeros)) Samples.world
    = Normal c /\
    Spec.in_unit_interval (confidence_score c) /\
    Spec.in_unit_interval (consultation_readiness_score c).
Proof.
  apply (X17_posted_signals_answered_ok HttpSamples.halves HttpSamples.zerosRequest
           HttpSamples.zeros VUndefined).
  - reflexivity.
  - reflexivity.
  - unfold HttpSamples.zeros. simpl.
    repeat (constructor;
            [unfold acceptable; simpl; first [exact I|intros H; discriminate H]|]).
    constructor.
  - intros k H. vm_compute in H.
    repeat (destruct H as [<-|H]; [vm_compute; reflexivity|]). contradiction.
Defined.

(** X16.  With draws in [0,1) the user-profile route never answers 500:
    the generated signals always classify, and the 200 answer carries that
    classification, the generated signals as the only history entry, the
    confidence (in [0,1]) as engagement score, conversion probability and
    metadata confidence, the urgency "high" exactly when the consultation
    readiness exceeds 0.8, and the higher project value exactly for the
    luxury project planner. *)
Theorem X16_user_profile_never_fails (random : nat -> float) (sessionId path : string)
    (w : World) :
  unit_draws random ->
  exists s c p w',
    Profile.userProfile random sessionId path w
    = (Normal {| Profile.status := 200;
                 Profile.answer := Profile.Data p (confidence_score c) |}, w') /\
    generateDemoSignals random "random" = Normal s /\
    outcome (validateSegmentClassification informationService s) w = Normal c /\
    Profile.session_id p = sessionId /\
    Profile.segment_classification p = c /\
    Profile.behavioral_history p = [s] /\
    Profile.content_engagement_score (Profile.engagement_metrics p) = confidence_score c /\
    Profile.conversion_probability (Profile.business_value p) = confidence_score c /\
    Spec.in_unit_interval (confidence_score c) /\
    (Profile.consultation_urgency (Profile.business_value p) = "high"%string
     <-> gt (consultation_readiness_score c) 0.8 = true) /\
    (Profile.estimated_project_value (Profile.business_value p)
     = (Profile.euro +:+ "15,000+")%string
     <-> primary_segment c = "luxury_project_planner"%string).
Proof.
  intros U.
  destruct (generateDemoSignals_modes random "random") as [s G];
    [right; right; left; reflexivity|].
  destruct (generateDemoSignals_valid _ _ _ U G) as [V C].
  destruct (capped_returns s 13 V ltac:(lia) C w) as (c & O & P & _).
  exists s, c. unfold Profile.userProfile, try_catch, bind, lift, ret. rewrite G.
  pose proof O as O'. unfold outcome in O'.
  destruct (validateSegmentClassification informationService s w) as [r w1].
  simpl in O'. subst r. eexists. exists w1.
  split; [reflexivity|]. cbn.
  repeat (split; [reflexivity || assumption|]). split.
  - unfold gt. destruct (_ <? _)%float; split; intros H;
      first [reflexivity|discriminate H].
  - destruct (String.eqb_spec (primary_segment c) "luxury_project_planner") as [E|N].
    + split; auto.
    + split; [intros [=]|contradiction].
Qed.

Lemma X16_user_profile_never_fails_witness :
  exists s c p w',
    Profile.userProfile HttpSamples.halves "s-1" "/api/v1/user-profile/s-1" Samples.world
    = (Normal {| Profile.status := 200;
                 Profile.answer := Profile.Data p (confidence_score c) |}, w') /\
    generateDemoSignals HttpSamples.halves "random" = Normal s /\
    outcome (validateSegmentClassification informationService s) Samples.world
    = Normal c /\
    Profile.session_id p = "s-1"%string /\
    Profile.segment_classification p = c /\
    Profile.behavioral_history p = [s] /\
    Profile.content_engagement_score (Profile.engagement_metrics p) = confidence_score c /\
    Profile.conversion_probability (Profile.business_value p) = confidence_score c /\
    Spec.in_unit_interval (confidence_score c) /\
    (Profile.consultation_urgency (Profile.business_value p) = "high"%string
     <-> gt (consultation_readiness_score c) 0.8 = true) /\
    (Profile.estimated_project_value (Profile.business_value p)
     = (Profile.euro +:+ "15,000+")%string
     <-> primary_segment c = "luxury_project_planner"%string).
Proof.
  apply (X16_user_profile_never_fails HttpSamples.halves).
  intros n. split; reflexivity.
Defined.

(** ** The API keys manager *)

Module ApiKeysFacts.
Import ApiKeys.

Lemma prefix_spec sub s : String.prefix sub s = true <-> exists b, s = (sub +:+ b)%string.
Proof.
  revert s. induction sub as [|c sub IH]; intros s.
  - split; [intros _; exists s; reflexivity|]. intros _. destruct s; reflexivity.
  - destruct s as [|c' s]; simpl; [split; [discriminate|intros [b [=]]]|].
    destruct (Ascii.ascii_dec c c') as [->|N].
    + rewrite IH. split; intros [b E]; exists b; [rewrite E; reflexivity|].
      injection E as E. exact E.
    + split; [discriminate|]. intros [b [= E _]]. congruence.
Qed.

Lemma str_includes_spec s sub : str_includes s sub = true <-> occurs sub s.
Proof.
  unfold occurs. split.
  - induction s as [|c s IH].
    + cbn [str_includes]. rewrite orb_false_r. intros [b E]%prefix_spec.
      exists ""%string, b. exact E.
    + cbn [str_includes]. intros [[b E]%prefix_spec|H]%orb_prop.
      * exists ""%string, b. exact E.
      * destruct (IH H) as (a & b & E). exists (String c a), b. rewrite E. reflexivity.
  - intros (a & b & E). revert s E. induction a as [|c a IH]; intros s E.
    + simpl in E. assert (String.prefix sub s = true) as P by (apply prefix_spec; eauto).
      destruct s; cbn [str_includes]; rewrite P; reflexivity.
    + subst s. change (str_includes (String c (a +:+ sub +:+ b)) sub = true).
      cbn [str_includes]. rewrite (IH _ eq_refl). apply orb_true_r.
Qed.

Lemma placeholder_configured (env : Env) key :
  placeholder (env !! key) = false <-> configured env key.
Proof.
  unfold placeholder, configured. destruct (env !! key) as [s|].
  - split.
    + intros H. apply orb_false_elim in H. destruct H as [H H3].
      apply orb_false_elim in H. destruct H as [H1 H2].
      exists s. split; [reflexivity|]. split; [|split].
      * intros ->. discriminate H1.
      * intros O. apply str_includes_spec in O. congruence.
      * intros O. apply str_includes_spec in O. congruence.
    + intros (s' & [= <-] & N & N1 & N2).
      destruct (String.eqb_spec s "") as [E|_]; [contradiction|].
      destruct (str_includes s "your-") eqn:I1;
        [apply str_includes_spec in I1; contradiction|].
      destruct (str_includes s "here") eqn:I2;
        [apply str_includes_spec in I2; contradiction|].
      reflexivity.
  - split; [discriminate|]. intros (s & [=] & _).
Qed.

(** The loop pushes, in order, the keys that hold a placeholder. *)
Lemma missing_loop (env : Env) (keys acc : list string) :
  fold_left
    (fun missing key => if placeholder (env !! key) then missing ++ [key] else missing)
    keys acc
  = acc ++ List.filter (fun key => placeholder (env !! key)) keys.
Proof.
  revert acc. induction keys as [|k keys IH]; intros acc; simpl.
  - rewrite app_nil_r. reflexivity.
  - rewrite IH. destruct (placeholder (env !! k)); [|reflexivity].
    rewrite <- app_assoc. reflexivity.
Qed.

Lemma missing_filter this (env : Env) :
  missing (validateRequiredKeys this env)
  = List.filter (fun key => placeholder (env !! key)) (required_keys this).
Proof. unfold validateRequiredKeys. simpl. apply missing_loop. Qed.

Lemma isValid_iff this (env : Env) :
  isValid (validateRequiredKeys this env) = true
  <-> missing (validateRequiredKeys this env) = [].
Proof.
  unfold validateRequiredKeys. simpl.
  destruct (fold_left _ _ _); simpl; split; congruence.
Qed.

End ApiKeysFacts.

Import ApiKeys ApiKeysFacts.

(** X13.  The keys reported missing are, in their declared order, exactly
    the required keys that are not configured, a key being configured when
    its variable is set, not empty, and contains neither "your-" nor "here"
    anywhere; the validation succeeds exactly when every required key is
    configured. *)
Theorem X13_missing_keys_are_the_unconfigured (this : Manager) (env : Env) :
  missing (validateRequiredKeys this env)
  = List.filter (fun key => placeholder (env !! key)) (required_keys this) /\
  (forall key, In key (missing (validateRequiredKeys this env))
     <-> In key (required_keys this) /\ ~ configured env key) /\
  (isValid (validateRequiredKeys this env) = true
   <-> forall key, In key (required_keys this) -> configured env key).
Proof.
  split; [apply missing_filter|]. split.
  - intros key. rewrite missing_filter, filter_In. split.
    + intros [H P]. split; [exact H|]. intros C%placeholder_configured. congruence.
    + intros [H N]. split; [exact H|].
      destruct (placeholder (env !! key)) eqn:P; [reflexivity|].
      apply placeholder_configured in P. contradiction.
  - rewrite isValid_iff, missing_filter. split.
    + intros E key H. apply placeholder_configured.
      destruct (placeholder (env !! key)) eqn:P; [|reflexivity].
      assert (In key (List.filter (fun key => placeholder (env !! key))
                        (required_keys this))) as F by (apply filter_In; auto).
      rewrite E in F. contradiction.
    + intros H. induction (required_keys this) as [|k ks IH]; [reflexivity|].
      simpl. rewrite (proj2 (placeholder_configured env k)) by (apply H; left; reflexivity).
      apply IH. intros key Hk. apply H. right. exact Hk.
Qed.

(** X14.  The configuration status counts consistently: the configured and
    the missing keys add up to the required ones, the count of configured
    keys is never negative, and it reaches the number of required keys
    exactly when the validation of the required keys succeeds. *)
Theorem X14_status_counts (this : Manager) (env : Env) :
  let status := getConfigurationStatus this env in
  (0 <= configuredKeys status <= requiredKeys status)%Z /\
  (configuredKeys status + Z.of_nat (length (missingKeys status))
   = requiredKeys status)%Z /\
  (configuredKeys status = requiredKeys status
   <-> isValid (validateRequiredKeys this env) = true) /\
  isConfigured status = isInitialized this.
Proof.
  unfold getConfigurationStatus. cbn [configuredKeys requiredKeys missingKeys isConfigured].
  pose proof (filter_length_le (fun key => placeholder (env !! key)) (required_keys this))
    as L.
  rewrite isValid_iff, missing_filter.
  split; [lia|]. split; [lia|]. split; [|reflexivity].
  destruct (List.filter _ (required_keys this)) as [|k ks]; simpl in *; split;
    try reflexivity; try discriminate; lia.
Qed.

(** X15.  When the three required keys pass the validation, the connection
    tests report on both services without failing: Pinecone is reported
    valid, and OpenAI is reported valid exactly when its key starts with
    "sk-". *)
Theorem X15_valid_keys_are_tested (this : Manager) (env : Env) :
  required_keys this
  = [ "OPENAI_API_KEY"; "PINECONE_API_KEY"; "PINECONE_ENVIRONMENT" ]%string ->
  isValid (validateRequiredKeys this env) = true ->
  exists key,
    env !! "OPENAI_API_KEY" = Some key /\
    validateAPIKeys env
    = Normal {| openai := Some (if startsWith key "sk-"
                                then Valid "Formato API key valido"
                                else Invalid "Formato API key OpenAI non valido");
                pinecone := Some (Valid "Configurazione Pinecone completa") |}.
Proof.
  intros R V.
  assert (forall k, In k (required_keys this) -> placeholder (env !! k) = false) as C.
  { intros k Hk. apply isValid_iff in V. rewrite missing_filter in V.
    destruct (placeholder (env !! k)) eqn:P; [|reflexivity].
    assert (In k (List.filter (fun key => placeholder (env !! key))
                    (required_keys this))) as F
      by (apply filter_In; auto).
    rewrite V in F. contradiction. }
  rewrite R in C.
  pose proof (C "OPENAI_API_KEY"%string ltac:(simpl; auto)) as C1.
  pose proof (C "PINECONE_API_KEY"%string ltac:(simpl; auto)) as C2.
  pose proof (C "PINECONE_ENVIRONMENT"%string ltac:(simpl; auto)) as C3.
  unfold validateAPIKeys, testOpenAIConnection, testPineconeConnection, testable, isSet.
  unfold placeholder in C1, C2, C3.
  destruct (env !! "OPENAI_API_KEY"%string) as [k1|]; [|discriminate].
  destruct (env !! "PINECONE_API_KEY"%string) as [k2|]; [|discriminate].
  destruct (env !! "PINECONE_ENVIRONMENT"%string) as [k3|]; [|discriminate].
  apply orb_false_elim in C1. destruct C1 as [C1 _].
  apply orb_false_elim in C1. destruct C1 as [E1 Y1].
  apply orb_false_elim in C2. destruct C2 as [C2 _].
  apply orb_false_elim in C2. destruct C2 as [E2 Y2].
  apply orb_false_elim in C3. destruct C3 as [C3 _].
  apply orb_false_elim in C3. destruct C3 as [E3 _].
  exists k1. split; [reflexivity|].
  rewrite E1, Y1, E2, Y2, E3. simpl.
  destruct (startsWith k1 "sk-"); reflexivity.
Qed.

Lemma X15_valid_keys_are_tested_witness :
  exists key,
    KeySamples.complete !! "OPENAI_API_KEY" = Some key /\
    validateAPIKeys KeySamples.complete
    = Normal {| openai := Some (if startsWith key "sk-"
                                then Valid "Formato API key valido"
                                else Invalid "Formato API key OpenAI non valido");
                pinecone := Some (Valid "Configurazione Pinecone completa") |}.
Proof.
  apply (X15_valid_keys_are_tested KeySamples.manager KeySamples.complete).
  - reflexivity.
  - vm_compute. reflexivity.
Defined.

(** The two validations disagree on the fragment "here": a key that
    contains it is tested, and found valid, while reported missing. *)
Example here_is_reported_missing :
  let env : Env :=
    <["OPENAI_API_KEY" := "sk-adherent-0123456789"]> KeySamples.complete in
  missing (validateRequiredKeys KeySamples.manager env) = ["OPENAI_API_KEY"%string] /\
  exists r, validateAPIKeys env = Normal r /\
    openai r = Some (Valid "Formato API key valido").
Proof. split; [vm_compute; reflexivity|]. eexists. split; vm_compute; reflexivity. Qed.

(** With the values of the template nothing counts as configured but the
    Pinecone environment. *)
Example template_is_not_configured :
  missing (validateRequiredKeys KeySamples.manager KeySamples.template)
  = ["OPENAI_API_KEY"; "PINECONE_API_KEY"]%string.
Proof. vm_compute. reflexivity. Qed.
